(** * Kubernetes-backed Pod controller of jina ([jina/peapods/pods/k8s.py])

    A shallow embedding of [K8sPod] and of its nested [_K8sDeployment]
    handle: the topology partitioner, the three polling waits of a handle and
    the fan-out operations of the controller, with the properties the
    specification states about them, and further properties of the same
    code: what the partitioner and [__init__] build case by case, what
    [start], [close] and [__exit__] ask of the platform, what a rolling update
    and a scale leave in the handles, and how the waits behave without
    deadline.

    Python values are modelled as follows.
    - [int] is [Z]; [Optional[int]] is [option Z]; [str] is [string].
    - [float] only occurs in the deadline of a wait; it is IEEE 754 binary64,
      modelled by exact fractions rounded to nearest, ties to even.
    - An [argparse.Namespace] is a record with one field per attribute the
      module reads or writes; an attribute read with [getattr(_, _, default)]
      is an [option] whose [None] stands for "absent".
    - Exceptions are an outcome of the computation ([Raise]); the platform
      (Kubernetes API client, clock, sleep) is a type class over an abstract
      world, and every call is recorded with its answer in a transcript.
    - A [while] loop that may poll forever takes fuel; [OutOfFuel] is the
      outcome of a run that is still polling when the fuel is spent.
    - Objects that are mutated ([self] of a handle, the controller) are part
      of the state, so that what was assigned before an exception stays
      assigned; the controller refers to its handles by reference.
    - The calls to the logger, which only format what was observed, and the
      building of image names and container arguments are left out. *)

From Stdlib Require Import ZArith Lia Ascii String.
From stdpp Require Import base option strings gmap list pretty.

Local Open Scope Z_scope.

(** ** Strings as Python writes them *)

(** The double-quote character, as it appears inside the f-strings. *)
Definition dq : string := String (Ascii.ascii_of_nat 34) EmptyString.

(** [str(i)] on an [int]. *)
Definition str (i : Z) : string := pretty i.

(** [s[:-1]]: the string without its last character ([''] stays ['']). *)
Definition drop_last (s : string) : string :=
  String.substring 0 (String.length s - 1)%nat s.

(** Truthiness of an optional string: [None] and [''] are falsy. *)
Definition truthy (o : option string) : bool :=
  match o with
  | None => false
  | Some s => negb (String.eqb s "")
  end.

(** ** Exceptions and the outcome of a computation *)

(** [kubernetes.client.ApiException]; [reason] is the attribute [close] logs. *)
Record ApiException := { status : Z; reason : string }.

Inductive exn :=
| ApiExc (ex : ApiException)
| RuntimeFailToStart (msg : string)
| ValueError (msg : string)
| AttributeError (msg : string)
| AssertionError (msg : string)
| IndexError (msg : string)
| KeyError (key : string).

Inductive outcome (A : Type) :=
| Ret (a : A)
| Raise (e : exn)
| OutOfFuel.
Arguments Ret {A} a.
Arguments Raise {A} e.
Arguments OutOfFuel {A}.

(** A computation over a state [S] that returns, raises or is cut off. The
    state is kept in every case: an exception does not undo a mutation. *)
Definition M (S A : Type) : Type := S -> outcome A * S.

Definition ret {S A} (a : A) : M S A := fun s => (Ret a, s).
Definition raise {S A} (e : exn) : M S A := fun s => (Raise e, s).
Definition bind {S A B} (m : M S A) (k : A -> M S B) : M S B :=
  fun s =>
    match m s with
    | (Ret a, s') => k a s'
    | (Raise e, s') => (Raise e, s')
    | (OutOfFuel, s') => (OutOfFuel, s')
    end.

Declare Scope py_scope.
Delimit Scope py_scope with py.
Notation "x <- m ;; k" := (bind m (fun x => k))
  (at level 100, m at next level, right associativity) : py_scope.
Notation "m ;;; k" := (bind m (fun _ => k))
  (at level 100, right associativity) : py_scope.
Local Open Scope py_scope.

(** ** Enumerations and argument bags *)

(** [jina.enums.PeaRoleType]. *)
Inductive PeaRoleType := HEAD | WORKER | GATEWAY.

Module Namespace.
(** The attributes of the [args] Namespace that [k8s.py] touches. *)
Record t := {
    name : string;
    k8s_namespace : string;
    shards : option Z;            (* getattr(args, 'shards', 1) *)
    replicas : option Z;          (* getattr(args, 'replicas', 1) *)
    uses_before : option string;  (* getattr(args, 'uses_before', None) *)
    uses_after : option string;   (* getattr(args, 'uses_after', None) *)
    uses_with : option (gmap string string);
    dump_path : option string;
    k8s_connection_pool : bool;
    noblock_on_start : bool;
    timeout_ready : Z;
    (* attributes written by the partitioner *)
    runtime_cls : option string;
    pea_role : option PeaRoleType;
    port_in : option Z;
    shard_id : option Z;
    connection_list : option string;
    uses_before_address : option string;
    uses_after_address : option string
}.

(** Attribute assignment, one function per attribute that is written. *)
(** [a.replicas = v]. *)
Definition set_replicas (v : option Z) (a : t) : t :=
  {| name := name a; k8s_namespace := k8s_namespace a; shards := shards a;
     replicas := v; uses_before := uses_before a;
     uses_after := uses_after a; uses_with := uses_with a;
     dump_path := dump_path a;
     k8s_connection_pool := k8s_connection_pool a;
     noblock_on_start := noblock_on_start a;
     timeout_ready := timeout_ready a; runtime_cls := runtime_cls a;
     pea_role := pea_role a; port_in := port_in a; shard_id := shard_id a;
     connection_list := connection_list a;
     uses_before_address := uses_before_address a;
     uses_after_address := uses_after_address a |}.
(** [a.runtime_cls = v]. *)
Definition set_runtime_cls (v : option string) (a : t) : t :=
  {| name := name a; k8s_namespace := k8s_namespace a; shards := shards a;
     replicas := replicas a; uses_before := uses_before a;
     uses_after := uses_after a; uses_with := uses_with a;
     dump_path := dump_path a;
     k8s_connection_pool := k8s_connection_pool a;
     noblock_on_start := noblock_on_start a;
     timeout_ready := timeout_ready a; runtime_cls := v;
     pea_role := pea_role a; port_in := port_in a; shard_id := shard_id a;
     connection_list := connection_list a;
     uses_before_address := uses_before_address a;
     uses_after_address := uses_after_address a |}.
(** [a.pea_role = v]. *)
Definition set_pea_role (v : option PeaRoleType) (a : t) : t :=
  {| name := name a; k8s_namespace := k8s_namespace a; shards := shards a;
     replicas := replicas a; uses_before := uses_before a;
     uses_after := uses_after a; uses_with := uses_with a;
     dump_path := dump_path a;
     k8s_connection_pool := k8s_connection_pool a;
     noblock_on_start := noblock_on_start a;
     timeout_ready := timeout_ready a; runtime_cls := runtime_cls a;
     pea_role := v; port_in := port_in a; shard_id := shard_id a;
     connection_list := connection_list a;
     uses_before_address := uses_before_address a;
     uses_after_address := uses_after_address a |}.
(** [a.port_in = v]. *)
Definition set_port_in (v : option Z) (a : t) : t :=
  {| name := name a; k8s_namespace := k8s_namespace a; shards := shards a;
     replicas := replicas a; uses_before := uses_before a;
     uses_after := uses_after a; uses_with := uses_with a;
     dump_path := dump_path a;
     k8s_connection_pool := k8s_connection_pool a;
     noblock_on_start := noblock_on_start a;
     timeout_ready := timeout_ready a; runtime_cls := runtime_cls a;
     pea_role := pea_role a; port_in := v; shard_id := shard_id a;
     connection_list := connection_list a;
     uses_before_address := uses_before_address a;
     uses_after_address := uses_after_address a |}.
(** [a.shard_id = v]. *)
Definition set_shard_id (v : option Z) (a : t) : t :=
  {| name := name a; k8s_namespace := k8s_namespace a; shards := shards a;
     replicas := replicas a; uses_before := uses_before a;
     uses_after := uses_after a; uses_with := uses_with a;
     dump_path := dump_path a;
     k8s_connection_pool := k8s_connection_pool a;
     noblock_on_start := noblock_on_start a;
     timeout_ready := timeout_ready a; runtime_cls := runtime_cls a;
     pea_role := pea_role a; port_in := port_in a; shard_id := v;
     connection_list := connection_list a;
     uses_before_address := uses_before_address a;
     uses_after_address := uses_after_address a |}.
(** [a.uses_before = v]. *)
Definition set_uses_before (v : option string) (a : t) : t :=
  {| name := name a; k8s_namespace := k8s_namespace a; shards := shards a;
     replicas := replicas a; uses_before := v; uses_after := uses_after a;
     uses_with := uses_with a; dump_path := dump_path a;
     k8s_connection_pool := k8s_connection_pool a;
     noblock_on_start := noblock_on_start a;
     timeout_ready := timeout_ready a; runtime_cls := runtime_cls a;
     pea_role := pea_role a; port_in := port_in a; shard_id := shard_id a;
     connection_list := connection_list a;
     uses_before_address := uses_before_address a;
     uses_after_address := uses_after_address a |}.
(** [a.uses_after = v]. *)
Definition set_uses_after (v : option string) (a : t) : t :=
  {| name := name a; k8s_namespace := k8s_namespace a; shards := shards a;
     replicas := replicas a; uses_before := uses_before a;
     uses_after := v; uses_with := uses_with a; dump_path := dump_path a;
     k8s_connection_pool := k8s_connection_pool a;
     noblock_on_start := noblock_on_start a;
     timeout_ready := timeout_ready a; runtime_cls := runtime_cls a;
     pea_role := pea_role a; port_in := port_in a; shard_id := shard_id a;
     connection_list := connection_list a;
     uses_before_address := uses_before_address a;
     uses_after_address := uses_after_address a |}.
(** [a.connection_list = v]. *)
Definition set_connection_list (v : option string) (a : t) : t :=
  {| name := name a; k8s_namespace := k8s_namespace a; shards := shards a;
     replicas := replicas a; uses_before := uses_before a;
     uses_after := uses_after a; uses_with := uses_with a;
     dump_path := dump_path a;
     k8s_connection_pool := k8s_connection_pool a;
     noblock_on_start := noblock_on_start a;
     timeout_ready := timeout_ready a; runtime_cls := runtime_cls a;
     pea_role := pea_role a; port_in := port_in a; shard_id := shard_id a;
     connection_list := v; uses_before_address := uses_before_address a;
     uses_after_address := uses_after_address a |}.
(** [a.uses_before_address = v]. *)
Definition set_uses_before_address (v : option string) (a : t) : t :=
  {| name := name a; k8s_namespace := k8s_namespace a; shards := shards a;
     replicas := replicas a; uses_before := uses_before a;
     uses_after := uses_after a; uses_with := uses_with a;
     dump_path := dump_path a;
     k8s_connection_pool := k8s_connection_pool a;
     noblock_on_start := noblock_on_start a;
     timeout_ready := timeout_ready a; runtime_cls := runtime_cls a;
     pea_role := pea_role a; port_in := port_in a; shard_id := shard_id a;
     connection_list := connection_list a; uses_before_address := v;
     uses_after_address := uses_after_address a |}.
(** [a.uses_after_address = v]. *)
Definition set_uses_after_address (v : option string) (a : t) : t :=
  {| name := name a; k8s_namespace := k8s_namespace a; shards := shards a;
     replicas := replicas a; uses_before := uses_before a;
     uses_after := uses_after a; uses_with := uses_with a;
     dump_path := dump_path a;
     k8s_connection_pool := k8s_connection_pool a;
     noblock_on_start := noblock_on_start a;
     timeout_ready := timeout_ready a; runtime_cls := runtime_cls a;
     pea_role := pea_role a; port_in := port_in a; shard_id := shard_id a;
     connection_list := connection_list a;
     uses_before_address := uses_before_address a;
     uses_after_address := v |}.
(** [a.uses_with = v]. *)
Definition set_uses_with (v : option (gmap string string)) (a : t) : t :=
  {| name := name a; k8s_namespace := k8s_namespace a; shards := shards a;
     replicas := replicas a; uses_before := uses_before a;
     uses_after := uses_after a; uses_with := v; dump_path := dump_path a;
     k8s_connection_pool := k8s_connection_pool a;
     noblock_on_start := noblock_on_start a;
     timeout_ready := timeout_ready a; runtime_cls := runtime_cls a;
     pea_role := pea_role a; port_in := port_in a; shard_id := shard_id a;
     connection_list := connection_list a;
     uses_before_address := uses_before_address a;
     uses_after_address := uses_after_address a |}.
(** [a.dump_path = v]. *)
Definition set_dump_path (v : option string) (a : t) : t :=
  {| name := name a; k8s_namespace := k8s_namespace a; shards := shards a;
     replicas := replicas a; uses_before := uses_before a;
     uses_after := uses_after a; uses_with := uses_with a; dump_path := v;
     k8s_connection_pool := k8s_connection_pool a;
     noblock_on_start := noblock_on_start a;
     timeout_ready := timeout_ready a; runtime_cls := runtime_cls a;
     pea_role := pea_role a; port_in := port_in a; shard_id := shard_id a;
     connection_list := connection_list a;
     uses_before_address := uses_before_address a;
     uses_after_address := uses_after_address a |}.
End Namespace.

(** Constants and helpers of the repository that live outside [k8s.py]:
    [K8sGrpcConnectionPool]'s well-known ports,
    [kubernetes_deployment.to_dns_name] and [repr] of an [ApiException]. *)
Class Externals := {
  K8S_PORT_IN : Z;
  K8S_PORT_USES_BEFORE : Z;
  K8S_PORT_USES_AFTER : Z;
  to_dns_name : string -> string;
  repr : ApiException -> string
}.

(** ** The topology partitioner *)

(** The dictionary [{'head_deployment': _, 'deployments': _}]. *)
Record ParsedArgs := {
  head_deployment : option Namespace.t;
  deployments : list Namespace.t
}.

Section Partitioner.
Context `{Externals}.

(** Lines 518-522: the shallow copy of [args] that becomes the head. *)
Definition head_args (args : Namespace.t) : Namespace.t :=
  Namespace.set_port_in (Some K8S_PORT_IN)
    (Namespace.set_pea_role (Some HEAD)
       (Namespace.set_runtime_cls (Some "HeadRuntime"%string)
          (Namespace.set_replicas (Some 1) args))).

(** Line 529: one entry of the connection list, with its trailing comma. *)
Definition connection_entry (self_name self_k8s_namespace : string)
    (shards i : Z) : string :=
  let name :=
    if 1 <? shards then self_name +:+ "-" +:+ str i else self_name in
  dq +:+ str i +:+ dq +:+ ": " +:+ dq +:+ name +:+ "." +:+
  self_k8s_namespace +:+ ".svc:" +:+ str K8S_PORT_IN +:+ dq +:+ ",".

(** Lines 526-531: the connection list as a JSON text. *)
Definition build_connection_list (self_name self_k8s_namespace : string)
    (shards : Z) : string :=
  let connection_list :=
    fold_left
      (fun acc i => acc +:+ connection_entry self_name self_k8s_namespace shards i)
      (seqZ 0 shards) "{"%string in
  drop_last connection_list +:+ "}".

(** Lines 549-556: the deep copy of [args] for shard [i]. *)
Definition shard_args (args : Namespace.t) (i : Z) : Namespace.t :=
  let cargs :=
    Namespace.set_port_in (Some K8S_PORT_IN)
      (Namespace.set_uses_after None
         (Namespace.set_uses_before None
            (Namespace.set_shard_id (Some i) args))) in
  if String.eqb (Namespace.name args) "gateway"
  then Namespace.set_pea_role (Some GATEWAY) cargs
  else cargs.

(** Assigning an attribute of [parsed_args['head_deployment']], which raises
    [AttributeError] when the slot holds [None]. *)
Definition set_head_attr (attr : string) (f : Namespace.t -> Namespace.t)
    (head : option Namespace.t) : outcome (option Namespace.t) :=
  match head with
  | Some h => Ret (Some (f h))
  | None =>
      Raise (AttributeError
               ("'NoneType' object has no attribute '" +:+ attr +:+ "'"))
  end.

(** [K8sPod._parse_deployment_args]; [self_name] and [self_k8s_namespace]
    are [self.name] and [self.k8s_namespace]. *)
Definition _parse_deployment_args (self_name self_k8s_namespace : string)
    (args : Namespace.t) : outcome ParsedArgs :=
  let shards := default 1 (Namespace.shards args) in
  let uses_before := Namespace.uses_before args in
  let uses_after := Namespace.uses_after args in
  let head0 :=
    if negb (String.eqb (Namespace.name args) "gateway") then
      let head := head_args args in
      if negb (Namespace.k8s_connection_pool args) then
        Some (Namespace.set_connection_list
                (Some (build_connection_list self_name self_k8s_namespace shards))
                head)
      else Some head
    else None in
  match
    (if truthy uses_before then
       set_head_attr "uses_before_address"
         (Namespace.set_uses_before_address
            (Some ("127.0.0.1:" +:+ str K8S_PORT_USES_BEFORE))) head0
     else Ret head0)
  with
  | Ret head1 =>
      match
        (if truthy uses_after then
           set_head_attr "uses_after_address"
             (Namespace.set_uses_after_address
                (Some ("127.0.0.1:" +:+ str K8S_PORT_USES_AFTER))) head1
         else Ret head1)
      with
      | Ret head2 =>
          Ret {| head_deployment := head2;
                 deployments := map (shard_args args) (seqZ 0 shards) |}
      | Raise e => Raise e
      | OutOfFuel => OutOfFuel
      end
  | Raise e => Raise e
  | OutOfFuel => OutOfFuel
  end.

End Partitioner.

(** ** The platform *)

Module V1DeploymentStatus.
(** [api_response.status] of a Deployment, with the counts the waits read. *)
Record t := {
  ready_replicas : option Z;
  updated_replicas : option Z;
  replicas : option Z
}.
End V1DeploymentStatus.

Module DeployService.
(** The keyword arguments of [kubernetes_deployment.deploy_service] that
    [k8s.py] computes itself. Image names, container commands and arguments,
    the init container, [env], [gpus] and the resource directory come from
    helpers outside this module and are not part of the model. *)
Record t := {
  name : string;
  namespace : string;
  replicas : Z;
  jina_pod_name : string;
  pea_type : string;
  shard_id : option Z;
  replace_deployment : bool
}.
End DeployService.

(** One call to the world outside the process, with what it answered. *)
Inductive Call :=
| time_ns_call (t : Z)
| sleep_call
| deploy_service_call (req : DeployService.t) (resp : ApiException + string)
| read_namespaced_deployment_call (name namespace : string)
    (resp : ApiException + V1DeploymentStatus.t)
| list_namespaced_pod_call (namespace label_selector : string)
    (resp : ApiException + list string)
| delete_namespaced_deployment_call (name namespace : string)
    (resp : ApiException + string)
| patch_namespaced_deployment_scale_call (name namespace : string)
    (replicas : Z) (resp : ApiException + unit).

(** The Kubernetes API client, the clock and the sleep, over a world [W].
    An API call answers with a value or raises an [ApiException];
    [deploy_service] is [kubernetes_deployment.deploy_service], which applies
    the Deployment and answers with the cluster address. *)
Class Platform (W : Type) := {
  time_ns : W -> Z * W;
  sleep : W -> W;
  deploy_service : DeployService.t -> W -> (ApiException + string) * W;
  read_namespaced_deployment :
    string -> string -> W -> (ApiException + V1DeploymentStatus.t) * W;
  list_namespaced_pod :
    string -> string -> W -> (ApiException + list string) * W;
  delete_namespaced_deployment :
    string -> string -> W -> (ApiException + string) * W;
  patch_namespaced_deployment_scale :
    string -> string -> Z -> W -> (ApiException + unit) * W
}.

(** A platform with a clock that never runs backwards and that a sleep of
    one second advances by at least 10^9 nanoseconds. *)
Class Ticking (W : Type) `{Platform W} := {
  clock_of : W -> Z;
  time_ns_reads : forall w, (time_ns w).1 = clock_of w;
  time_ns_mono : forall w, clock_of w <= clock_of (time_ns w).2;
  sleep_ticks : forall w, clock_of w + 1000000000 <= clock_of (sleep w);
  read_mono : forall name namespace w,
    clock_of w <= clock_of (read_namespaced_deployment name namespace w).2;
  list_mono : forall namespace label_selector w,
    clock_of w <= clock_of (list_namespaced_pod namespace label_selector w).2
}.

(** The world together with the transcript of the calls made so far, oldest
    first. *)
Record Env (W : Type) := { world : W; calls : list Call }.
Arguments world {W} _.
Arguments calls {W} _.

Section Effects.
Context {W : Type} `{Platform W}.

(** An API call: performed on the world, recorded, and turned into a return
    or a raised [ApiException]. *)
Definition api_call {A} (op : W -> (ApiException + A) * W)
    (record : ApiException + A -> Call) : M (Env W) A :=
  fun e =>
    let '(resp, w) := op (world e) in
    let e' := {| world := w; calls := calls e ++ [record resp] |} in
    match resp with
    | inl ex => (Raise (ApiExc ex), e')
    | inr a => (Ret a, e')
    end.

(** [time.time_ns()]. *)
Definition clock : M (Env W) Z :=
  fun e =>
    let '(t, w) := time_ns (world e) in
    (Ret t, {| world := w; calls := calls e ++ [time_ns_call t] |}).

(** [time.sleep(1.0)] and [await asyncio.sleep(1.0)]. *)
Definition sleep_1s : M (Env W) unit :=
  fun e =>
    (Ret tt, {| world := sleep (world e); calls := calls e ++ [sleep_call] |}).

End Effects.

(** [try: m except client.ApiException as ex: handler ex]. *)
Definition try_except_ApiException {S A} (m : M S A)
    (handler : ApiException -> M S A) : M S A :=
  fun s =>
    match m s with
    | (Raise (ApiExc ex), s') => handler ex s'
    | r => r
    end.

(** [try: m except: handler], the bare [except] that catches whatever is
    raised; a bare [raise] in the handler raises it again. *)
Definition try_except {S A} (m : M S A) (handler : exn -> M S A) : M S A :=
  fun s =>
    match m s with
    | (Raise e, s') => handler e s'
    | r => r
    end.

(** [for x in xs: acc = body x acc], a loop that updates a local. *)
Fixpoint for_fold {S A B} (xs : list A) (acc : B) (body : A -> B -> M S B)
    : M S B :=
  match xs with
  | [] => ret acc
  | x :: xs' => acc' <- body x acc ;; for_fold xs' acc' body
  end.

(** [for x in xs: body x]. *)
Definition for_each {S A} (xs : list A) (body : A -> M S unit) : M S unit :=
  for_fold xs tt (fun x _ => body x).

(** How one turn of a polling loop ends: [return], [break] out of the loop
    with the caught exception, or go round again. *)
Inductive control := Return_ | Break (ex : ApiException) | Continue.

(** How a polling loop is left: by [return] inside it, by [break], or by its
    condition turning false. *)
Inductive loop_exit := Returned | Broken (ex : ApiException) | Expired.

(** [while cond: body], with fuel for the turns. *)
Fixpoint while_ {S} (fuel : nat) (cond : M S bool) (body : M S control)
    : M S loop_exit :=
  match fuel with
  | O => fun s => (OutOfFuel, s)
  | S fuel' =>
      go_on <- cond ;;
      if go_on : bool then
        c <- body ;;
        match c with
        | Return_ => ret Returned
        | Break ex => ret (Broken ex)
        | Continue => while_ fuel' cond body
        end
      else ret Expired
  end.

(** ** Objects in the state *)

(** A method runs on a state whose first component is [self]. *)
Definition self {X S} : M (X * S) X := fun s => (Ret (fst s), s).
Definition set_self {X S} (f : X -> X) : M (X * S) unit :=
  fun s => (Ret tt, (f (fst s), snd s)).
(** A computation on the rest of the state, run from inside a method. *)
Definition lift {X S A} (m : M S A) : M (X * S) A :=
  fun s => let '(o, s') := m (snd s) in (o, (fst s, s')).

(** Python's [float] is IEEE 754 binary64. A positive float is given here
    by a fraction [(numerator, denominator)] of positive integers.
    [round_binary64 n d] is the float nearest to [n / d], ties to the even
    significand: the significand [m] has 53 bits, and the float is
    [m * 2 ^ e]. Overflow and subnormal numbers are out of reach of a timeout
    in milliseconds and are not modelled. *)
Definition round_binary64 (n d : Z) : Z * Z :=
  let l := Z.log2 n - Z.log2 d in
  let scaled := fun e : Z => (n * 2 ^ Z.max 0 (- e), d * 2 ^ Z.max 0 e) in
  let e := if (scaled (l - 52)).2 * 2 ^ 52 <=? (scaled (l - 52)).1
           then l - 52 else l - 53 in
  let num := (scaled e).1 in
  let den := (scaled e).2 in
  let quo := num / den in
  let r := num mod den in
  let m := if 2 * r <? den then quo
           else if den <? 2 * r then quo + 1
           else quo + quo mod 2 in
  (m * 2 ^ Z.max 0 e, 2 ^ Z.max 0 (- e)).

(** [float(x)] of an [int], and [a / b] and [a * b] on floats. *)
Definition float_of_int (x : Z) : Z * Z := round_binary64 x 1.
Definition float_div (a b : Z * Z) : Z * Z :=
  round_binary64 (a.1 * b.2) (a.2 * b.1).
Definition float_mul (a b : Z * Z) : Z * Z :=
  round_binary64 (a.1 * b.1) (a.2 * b.2).

(** The least integer that is not below the fraction. *)
Definition ceiling (q : Z * Z) : Z := - ((- q.1) / q.2).

(** The deadline of lines 189-201: [None] when [timeout_ready <= 0], else
    the float [1000000000 * (timeout_ready / 1e3)]. The loop compares the
    elapsed nanoseconds, an [int], with that float, and Python compares the
    two exactly: the elapsed time is below the float exactly when it is below
    the float's ceiling, which is the number kept here. For 2000 it is
    2000000000; for 67 the float is just above 67000000 and it is
    67000001. *)
Definition timeout_ns_of (timeout_ready : Z) : option Z :=
  if timeout_ready <=? 0 then None
  else Some (ceiling (float_mul (float_of_int 1000000000)
                        (float_div (float_of_int timeout_ready)
                           (float_of_int 1000)))).

(** [o is not None and o == n]. *)
Definition is_count (o : option Z) (n : Z) : bool :=
  match o with
  | Some r => r =? n
  | None => false
  end.

Module Node.
(** The dictionary [to_node] returns, which the routing table is built
    from. *)
Record t := {
  name : string;
  head_host : string;
  head_port_in : Z
}.
End Node.

Module K8sPod.

Module _K8sDeployment.

Record t := {
  name : string;
  dns_name : string;
  head_port_in : Z;
  version : string;
  pea_type : string;
  jina_pod_name : string;
  shard_id : option Z;
  common_args : Namespace.t;
  deployment_args : Namespace.t;
  k8s_namespace : string;
  num_replicas : Z;
  cluster_address : option string
}.

(** [self.num_replicas = v]. *)
Definition set_num_replicas (v : Z) (d : t) : t :=
  {| name := name d; dns_name := dns_name d; head_port_in := head_port_in d;
     version := version d; pea_type := pea_type d;
     jina_pod_name := jina_pod_name d; shard_id := shard_id d;
     common_args := common_args d; deployment_args := deployment_args d;
     k8s_namespace := k8s_namespace d; num_replicas := v;
     cluster_address := cluster_address d |}.

(** [self.cluster_address = v]. *)
Definition set_cluster_address (v : option string) (d : t) : t :=
  {| name := name d; dns_name := dns_name d; head_port_in := head_port_in d;
     version := version d; pea_type := pea_type d;
     jina_pod_name := jina_pod_name d; shard_id := shard_id d;
     common_args := common_args d; deployment_args := deployment_args d;
     k8s_namespace := k8s_namespace d; num_replicas := num_replicas d;
     cluster_address := v |}.

(** [self.deployment_args.<attr> = _], through [f]. *)
Definition update_deployment_args (f : Namespace.t -> Namespace.t) (d : t) : t :=
  {| name := name d; dns_name := dns_name d; head_port_in := head_port_in d;
     version := version d; pea_type := pea_type d;
     jina_pod_name := jina_pod_name d; shard_id := shard_id d;
     common_args := common_args d; deployment_args := f (deployment_args d);
     k8s_namespace := k8s_namespace d; num_replicas := num_replicas d;
     cluster_address := cluster_address d |}.

Section Methods.
Context {W : Type} `{Platform W} `{Externals}.

(** [__init__] (lines 21-43). *)
Definition __init__ (name : string) (head_port_in : Z) (version pea_type : string)
    (jina_pod_name : string) (shard_id : option Z)
    (common_args deployment_args : Namespace.t) : t :=
  {| name := name; dns_name := to_dns_name name; head_port_in := head_port_in;
     version := version; pea_type := pea_type; jina_pod_name := jina_pod_name;
     shard_id := shard_id; common_args := common_args;
     deployment_args := deployment_args;
     k8s_namespace := Namespace.k8s_namespace common_args;
     num_replicas := default 1 (Namespace.replicas deployment_args);
     cluster_address := None |}.

(** [_deploy_gateway] (lines 45-65); [shard_id] and [replace_deployment] are
    not passed and keep the defaults of [deploy_service]. *)
Definition _deploy_gateway : M (t * Env W) unit :=
  d <- self ;;
  let req :=
    {| DeployService.name := dns_name d;
       DeployService.namespace := k8s_namespace d;
       DeployService.replicas := 1;
       DeployService.jina_pod_name := "gateway";
       DeployService.pea_type := "gateway";
       DeployService.shard_id := None;
       DeployService.replace_deployment := false |} in
  address <- lift (api_call (deploy_service req) (deploy_service_call req)) ;;
  set_self (set_cluster_address (Some address)).

(** [_deploy_runtime] (lines 116-183). *)
Definition _deploy_runtime (replace : bool) : M (t * Env W) unit :=
  d <- self ;;
  let req :=
    {| DeployService.name := dns_name d;
       DeployService.namespace := k8s_namespace d;
       DeployService.replicas := num_replicas d;
       DeployService.jina_pod_name := jina_pod_name d;
       DeployService.pea_type := pea_type d;
       DeployService.shard_id := shard_id d;
       DeployService.replace_deployment := replace |} in
  address <- lift (api_call (deploy_service req) (deploy_service_call req)) ;;
  set_self (set_cluster_address (Some address)).

(** [_restart_runtime] (lines 185-186). *)
Definition _restart_runtime : M (t * Env W) unit := _deploy_runtime true.

(** [_delete_namespaced_deployment] (lines 408-411). *)
Definition _delete_namespaced_deployment : M (t * Env W) string :=
  d <- self ;;
  lift (api_call (delete_namespaced_deployment (dns_name d) (k8s_namespace d))
          (delete_namespaced_deployment_call (dns_name d) (k8s_namespace d))).

(** [_read_namespaced_deployment] (lines 413-416); the two async waits make
    the same call inline. *)
Definition _read_namespaced_deployment : M (t * Env W) V1DeploymentStatus.t :=
  d <- self ;;
  lift (api_call (read_namespaced_deployment (dns_name d) (k8s_namespace d))
          (read_namespaced_deployment_call (dns_name d) (k8s_namespace d))).

(** [_patch_namespaced_deployment_scale] (lines 418-423). *)
Definition _patch_namespaced_deployment_scale (replicas : Z)
    : M (t * Env W) unit :=
  d <- self ;;
  lift (api_call
          (patch_namespaced_deployment_scale (dns_name d) (k8s_namespace d) replicas)
          (patch_namespaced_deployment_scale_call (dns_name d) (k8s_namespace d)
             replicas)).

(** [get_pod_uids] (lines 425-434). *)
Definition get_pod_uids : M (t * Env W) (list string) :=
  d <- self ;;
  let label_selector := "app=" +:+ dns_name d in
  lift (api_call (list_namespaced_pod (k8s_namespace d) label_selector)
          (list_namespaced_pod_call (k8s_namespace d) label_selector)).

(** [any(uid in current_pods_uids for uid in uids)]. *)
Definition any_uid_in (current_pods_uids uids : list string) : bool :=
  existsb (fun uid => bool_decide (uid ∈ current_pods_uids)) uids.

(** [_has_pod_with_uid] (lines 436-444). *)
Definition _has_pod_with_uid (uids : list string) : M (t * Env W) bool :=
  current_pods_uids <- get_pod_uids ;;
  ret (any_uid_in current_pods_uids uids).

(** The loop condition of the three waits:
    [timeout_ns is None or time.time_ns() - now < timeout_ns]. *)
Definition before_deadline (timeout_ns : option Z) (now : Z)
    : M (t * Env W) bool :=
  match timeout_ns with
  | None => ret true
  | Some t => t' <- lift clock ;; ret (t' - now <? t)
  end.

(** The tail shared by the three waits: build [fail_msg] and raise. *)
Definition raise_fail {A} (fail_msg : string) (exit : loop_exit)
    : M (t * Env W) A :=
  match exit with
  | Broken ex => raise (RuntimeFailToStart (fail_msg +:+ ": " +:+ repr ex))
  | _ => raise (RuntimeFailToStart fail_msg)
  end.

(** The f-string of lines 223, 293 and 350:
    [f' Deployment {self.name} did not <verb> with a timeout of
    {self.common_args.timeout_ready}']. *)
Definition fail_msg (verb : string) (d : t) : string :=
  " Deployment " +:+ name d +:+ " did not " +:+ verb +:+
  " with a timeout of " +:+ str (Namespace.timeout_ready (common_args d)).

(** One turn of the loop of [wait_start_success] (lines 205-222). *)
Definition wait_start_turn : M (t * Env W) control :=
  d <- self ;;
  try_except_ApiException
    (api_response <- _read_namespaced_deployment ;;
     if is_count (V1DeploymentStatus.ready_replicas api_response)
          (num_replicas d)
     then ret Return_
     else lift sleep_1s ;;; ret Continue)
    (fun ex => ret (Break ex)).

(** [wait_start_success] (lines 188-226). *)
Definition wait_start_success (fuel : nat) : M (t * Env W) unit :=
  d <- self ;;
  let timeout_ns := timeout_ns_of (Namespace.timeout_ready (common_args d)) in
  now <- lift clock ;;
  exit <- while_ fuel (before_deadline timeout_ns now) wait_start_turn ;;
  match exit with
  | Returned => ret tt
  | _ =>
      raise_fail (fail_msg "start" d) exit
  end.

(** One turn of the loop of [wait_restart_success] (lines 251-292). *)
Definition wait_restart_turn (previous_uids : list string)
    : M (t * Env W) control :=
  d <- self ;;
  try_except_ApiException
    (api_response <- _read_namespaced_deployment ;;
     has_pod_with_uid <- _has_pod_with_uid previous_uids ;;
     if is_count (V1DeploymentStatus.updated_replicas api_response)
          (num_replicas d)
        && bool_decide (V1DeploymentStatus.replicas api_response
                        = Some (num_replicas d))
        && negb has_pod_with_uid
     then ret Return_
     else lift sleep_1s ;;; ret Continue)
    (fun ex => ret (Break ex)).

(** [wait_restart_success] (lines 228-296). *)
Definition wait_restart_success (fuel : nat) (previous_uids : option (list string))
    : M (t * Env W) unit :=
  d <- self ;;
  let timeout_ns := timeout_ns_of (Namespace.timeout_ready (common_args d)) in
  let previous_uids := default [] previous_uids in
  now <- lift clock ;;
  exit <- while_ fuel (before_deadline timeout_ns now)
            (wait_restart_turn previous_uids) ;;
  match exit with
  | Returned => ret tt
  | _ =>
      raise_fail (fail_msg "restart" d) exit
  end.

(** One turn of the loop of [wait_scale_success] (lines 318-349). *)
Definition wait_scale_turn (scale_to : Z) : M (t * Env W) control :=
  try_except_ApiException
    (api_response <- _read_namespaced_deployment ;;
     if is_count (V1DeploymentStatus.ready_replicas api_response) scale_to
     then ret Return_
     else lift sleep_1s ;;; ret Continue)
    (fun ex => ret (Break ex)).

(** [wait_scale_success] (lines 298-353). *)
Definition wait_scale_success (fuel : nat) (replicas : Z) : M (t * Env W) unit :=
  d <- self ;;
  let scale_to := replicas in
  let timeout_ns := timeout_ns_of (Namespace.timeout_ready (common_args d)) in
  now <- lift clock ;;
  exit <- while_ fuel (before_deadline timeout_ns now)
            (wait_scale_turn scale_to) ;;
  match exit with
  | Returned => ret tt
  | _ =>
      raise_fail (fail_msg "restart" d) exit
  end.

(** [rolling_update] (lines 355-368). The dictionary [uses_with] is passed
    by reference in the source; storing [dump_path] in it twice stores the
    same value, so a copy per handle holds what the shared one holds. *)
Definition rolling_update (dump_path : option string)
    (uses_with : option (gmap string string)) : M (t * Env W) unit :=
  d <- self ;;
  if String.eqb (name d) "gateway" then
    raise (AssertionError "Rolling update on the gateway is not supported")
  else
    let uses_with :=
      match dump_path with
      | Some p =>
          match uses_with with
          | Some m => Some (<["dump_path"%string := p]> m)
          | None => Some {["dump_path"%string := p]}
          end
      | None => uses_with
      end in
    set_self (update_deployment_args (Namespace.set_uses_with uses_with)) ;;;
    set_self (update_deployment_args (Namespace.set_dump_path dump_path)) ;;;
    _restart_runtime.

(** [scale] (lines 370-376). *)
Definition scale (replicas : Z) : M (t * Env W) unit :=
  _patch_namespaced_deployment_scale replicas.

(** [start] (lines 378-387). *)
Definition start (fuel : nat) : M (t * Env W) unit :=
  d <- self ;;
  (if String.eqb (name d) "gateway" then _deploy_gateway
   else _deploy_runtime false) ;;;
  if negb (Namespace.noblock_on_start (common_args d))
  then wait_start_success fuel
  else ret tt.

(** [close] (lines 389-406): the deletion is attempted and its result, or
    the [ApiException] it raises, only goes to the log. *)
Definition close : M (t * Env W) unit :=
  try_except_ApiException
    (resp <- _delete_namespaced_deployment ;; ret tt)
    (fun exc => ret tt).

(** [__enter__] and [__exit__] (lines 446-450). *)
Definition __enter__ (fuel : nat) : M (t * Env W) unit := start fuel.
Definition __exit__ : M (t * Env W) unit := close.

End Methods.

(** [to_node] (lines 452-457). *)
Definition to_node (d : t) : Node.t :=
  {| Node.name := dns_name d;
     Node.head_host := dns_name d +:+ "." +:+ k8s_namespace d +:+ ".svc";
     Node.head_port_in := head_port_in d |}.

End _K8sDeployment.

(** A reference to one of the controller's handles: what an iteration
    variable, or a callback on the exit stack, holds. *)
Inductive handle_ref := head_ref | worker_ref (i : nat).

(** The controller. [exit_callbacks] is the stack of callbacks of
    [contextlib.ExitStack], the base of [BasePod], newest first.
    [self.deployment_args] is left out: its Namespaces are the very objects the
    handles hold as [deployment_args]. *)
Record t := {
  args : Namespace.t;
  k8s_namespace : string;
  needs : gset string;
  version : string;
  k8s_head_deployment : option _K8sDeployment.t;
  k8s_connection_pool : bool;
  k8s_deployments : list _K8sDeployment.t;
  exit_callbacks : list handle_ref
}.

Definition set_k8s_head_deployment (v : option _K8sDeployment.t) (p : t) : t :=
  {| args := args p; k8s_namespace := k8s_namespace p; needs := needs p;
     version := version p; k8s_head_deployment := v;
     k8s_connection_pool := k8s_connection_pool p;
     k8s_deployments := k8s_deployments p;
     exit_callbacks := exit_callbacks p |}.

Definition set_k8s_deployments (v : list _K8sDeployment.t) (p : t) : t :=
  {| args := args p; k8s_namespace := k8s_namespace p; needs := needs p;
     version := version p; k8s_head_deployment := k8s_head_deployment p;
     k8s_connection_pool := k8s_connection_pool p;
     k8s_deployments := v;
     exit_callbacks := exit_callbacks p |}.

Definition set_exit_callbacks (v : list handle_ref) (p : t) : t :=
  {| args := args p; k8s_namespace := k8s_namespace p; needs := needs p;
     version := version p; k8s_head_deployment := k8s_head_deployment p;
     k8s_connection_pool := k8s_connection_pool p;
     k8s_deployments := k8s_deployments p;
     exit_callbacks := v |}.

(** Modelled from the spec: [self.name], a property of the base class
    [BasePod], which is not in this module. The spec's PodSpec has one name,
    from which the names of the deployments derive: the name in [args]. *)
Definition name_of (args : Namespace.t) : string := Namespace.name args.

Section Methods.
Context {W : Type} `{Platform W} `{Externals}.

(** Running a method of the handle a reference points to. Following
    [head_ref] when the head is [None], or an index outside the list, raises
    as the attribute access or the indexing would. *)
Definition on {A} (r : handle_ref) (m : M (_K8sDeployment.t * Env W) A)
    : M (t * Env W) A :=
  fun s =>
    let '(p, e) := s in
    match r with
    | head_ref =>
        match k8s_head_deployment p with
        | Some d =>
            let '(o, (d', e')) := m (d, e) in
            (o, (set_k8s_head_deployment (Some d') p, e'))
        | None =>
            (Raise (AttributeError "'NoneType' object has no attribute"), s)
        end
    | worker_ref i =>
        match k8s_deployments p !! i with
        | Some d =>
            let '(o, (d', e')) := m (d, e) in
            (o, (set_k8s_deployments (<[i := d']> (k8s_deployments p)) p, e'))
        | None => (Raise (IndexError "list index out of range"), s)
        end
    end.

(** The references a [for deployment in self.k8s_deployments] loop visits. *)
Definition deployment_refs (p : t) : list handle_ref :=
  map worker_ref (seq 0 (length (k8s_deployments p))).

(** [__init__] (lines 459-501); [version] is what
    [_get_base_executor_version] fetched from the registry. *)
Definition __init__ (args : Namespace.t) (needs : gset string) (version : string)
    : outcome t :=
  let self_name := name_of args in
  match _parse_deployment_args self_name (Namespace.k8s_namespace args) args with
  | Ret deployment_args =>
      let mk := fun name shard_id pea_type dargs =>
        _K8sDeployment.__init__ name K8S_PORT_IN version pea_type self_name
          shard_id args dargs in
      Ret {| args := args;
             k8s_namespace := Namespace.k8s_namespace args;
             needs := needs;
             version := version;
             k8s_head_deployment :=
               match head_deployment deployment_args with
               | Some h => Some (mk (self_name +:+ "-head") None "head"%string h)
               | None => None
               end;
             k8s_connection_pool := Namespace.k8s_connection_pool args;
             k8s_deployments :=
               imap (fun i dargs =>
                       mk (if (1 <? length (deployments deployment_args))%nat
                           then self_name +:+ "-" +:+ str (Z.of_nat i)
                           else self_name)
                          (Some (Z.of_nat i)) "worker"%string dargs)
                    (deployments deployment_args);
             exit_callbacks := [] |}
  | Raise e => Raise e
  | OutOfFuel => OutOfFuel
  end.

(** [enter_context] of [contextlib.ExitStack], which the controller
    inherits through [BasePod]: enter the handle and, when that returned, push
    its exit on the stack. *)
Definition enter_context (fuel : nat) (r : handle_ref) : M (t * Env W) unit :=
  on r (_K8sDeployment.__enter__ fuel) ;;;
  set_self (fun p => set_exit_callbacks (r :: exit_callbacks p) p).

(** [close] of [contextlib.ExitStack], as [__exit__] (lines 560-562) runs
    it: the callbacks are popped and called newest first, and [join] does
    nothing. A callback that raises would be remembered by the real stack while
    it goes on unwinding; [_K8sDeployment.__exit__] does not raise. *)
Fixpoint unwind (callbacks : list handle_ref) : M (t * Env W) unit :=
  match callbacks with
  | [] => ret tt
  | r :: rest =>
      set_self (set_exit_callbacks rest) ;;;
      on r _K8sDeployment.__exit__ ;;;
      unwind rest
  end.

Definition close : M (t * Env W) unit :=
  p <- self ;; unwind (exit_callbacks p).

(** [rolling_update] (lines 578-591). *)
Definition rolling_update (fuel : nat) (dump_path : option string)
    (uses_with : option (gmap string string)) : M (t * Env W) unit :=
  p <- self ;;
  old_uids <-
    for_fold (deployment_refs p) (∅ : gmap string (list string))
      (fun r old_uids =>
         uids <- on r _K8sDeployment.get_pod_uids ;;
         key <- on r (d <- self ;; ret (_K8sDeployment.dns_name d)) ;;
         let old_uids := <[key := uids]> old_uids in
         on r (_K8sDeployment.rolling_update dump_path uses_with) ;;;
         ret old_uids) ;;
  for_each (deployment_refs p)
    (fun r =>
       key <- on r (d <- self ;; ret (_K8sDeployment.dns_name d)) ;;
       match (old_uids : gmap string (list string)) !! key with
       | Some uids => on r (_K8sDeployment.wait_restart_success fuel (Some uids))
       | None => raise (KeyError key)
       end).

(** [scale] (lines 593-603). *)
Definition scale (fuel : nat) (replicas : Z) : M (t * Env W) unit :=
  p <- self ;;
  for_each (deployment_refs p)
    (fun r => on r (_K8sDeployment.scale replicas)) ;;;
  for_each (deployment_refs p)
    (fun r =>
       on r (_K8sDeployment.wait_scale_success fuel replicas) ;;;
       on r (set_self (_K8sDeployment.set_num_replicas replicas))).

(** [start] (lines 605-616). *)
Definition start (fuel : nat) : M (t * Env W) unit :=
  p <- self ;;
  match k8s_head_deployment p with
  | Some _ => enter_context fuel head_ref
  | None => ret tt
  end ;;;
  for_each (deployment_refs p) (enter_context fuel).

(** [wait_start_success] (lines 618-631). The message of the [ValueError]
    embeds the [repr] of the bound method, left out here. *)
Definition wait_start_success (fuel : nat) : M (t * Env W) unit :=
  p <- self ;;
  if negb (Namespace.noblock_on_start (args p)) then
    raise (ValueError
             ("wait_start_success should only be called when " +:+
              "`noblock_on_start` is set to True"))
  else
    try_except
      (match k8s_head_deployment p with
       | Some _ => on head_ref (_K8sDeployment.wait_start_success fuel)
       | None => ret tt
       end ;;;
       for_each (deployment_refs p)
         (fun r => on r (_K8sDeployment.wait_start_success fuel)))
      (fun e => close ;;; raise e).

(** [join] (lines 633-635). *)
Definition join : M (t * Env W) unit := ret tt.

(** [__exit__] (lines 560-562): [ExitStack.__exit__] unwinds the stack as
    [close] does, and no callback of a handle asks to swallow the exception
    that is passed to it. *)
Definition __exit__ : M (t * Env W) unit := close ;;; join.

End Methods.

(** [num_peas] (lines 651-664): [sum] adds from the left, starting at 0. *)
Definition num_peas (p : t) : Z :=
  fold_left Z.add
    ([match k8s_head_deployment p with
      | Some h => _K8sDeployment.num_replicas h
      | None => 0
      end] ++ (_K8sDeployment.num_replicas <$> k8s_deployments p))
    0.

(** The property [deployments] (lines 666-680); indexing an empty list
    raises [IndexError]. *)
Definition deployments (p : t) : outcome (list Node.t) :=
  if String.eqb (Namespace.name (args p)) "gateway" then
    match k8s_deployments p !! 0%nat with
    | Some d => Ret [_K8sDeployment.to_node d]
    | None => Raise (IndexError "list index out of range")
    end
  else
    Ret (match k8s_head_deployment p with
         | Some h => [_K8sDeployment.to_node h]
         | None => []
         end ++ (_K8sDeployment.to_node <$> k8s_deployments p)).

End K8sPod.

(** The handle class, by a short name. *)
Module D := K8sPod._K8sDeployment.

(** ** A scripted cluster, for the examples

    A world whose deployments and pods answer by the time on the clock,
    whose clock only moves while the process sleeps, and where creating,
    deleting and scaling always succeed. *)
Module Scripted.

Record t := {
  now : Z;
  status_of : Z -> string -> ApiException + V1DeploymentStatus.t;
  uids_of : Z -> string -> ApiException + list string
}.

#[export] Instance platform : Platform t := {|
  time_ns := fun w => (now w, w);
  sleep := fun w =>
    {| now := now w + 1000000000; status_of := status_of w;
       uids_of := uids_of w |};
  deploy_service := fun req w =>
    (inr (DeployService.name req +:+ "." +:+ DeployService.namespace req
          +:+ ".svc"), w);
  read_namespaced_deployment := fun name namespace w =>
    (status_of w (now w) name, w);
  list_namespaced_pod := fun namespace label_selector w =>
    (uids_of w (now w) label_selector, w);
  delete_namespaced_deployment := fun name namespace w =>
    (inr "Success"%string, w);
  patch_namespaced_deployment_scale := fun name namespace replicas w =>
    (inr tt, w)
|}.

(** Its clock ticks. *)
#[export] Instance ticking : Ticking t.
Proof. refine {| clock_of := now |}; intros; simpl; lia. Defined.

#[export] Instance externals : Externals := {|
  K8S_PORT_IN := 8081;
  K8S_PORT_USES_BEFORE := 8082;
  K8S_PORT_USES_AFTER := 8083;
  to_dns_name := fun name => name;
  repr := fun ex => "ApiException(" +:+ reason ex +:+ ")"
|}.



(** A status with the three counts. *)
Definition counts (ready updated total : Z) : ApiException + V1DeploymentStatus.t :=
  inr {| V1DeploymentStatus.ready_replicas := Some ready;
         V1DeploymentStatus.updated_replicas := Some updated;
         V1DeploymentStatus.replicas := Some total |}.

Definition not_found : ApiException := {| status := 404; reason := "Not Found" |}.

(** The arguments of a Pod with three replicas per shard in the namespace
    ["ns"]. *)
Definition pod_args (name : string) (shards : option Z)
    (k8s_connection_pool noblock_on_start : bool)
    (uses_before : option string) (timeout_ready : Z) : Namespace.t :=
  {| Namespace.name := name;
     Namespace.k8s_namespace := "ns";
     Namespace.shards := shards;
     Namespace.replicas := Some 3;
     Namespace.uses_before := uses_before;
     Namespace.uses_after := None;
     Namespace.uses_with := None;
     Namespace.dump_path := None;
     Namespace.k8s_connection_pool := k8s_connection_pool;
     Namespace.noblock_on_start := noblock_on_start;
     Namespace.timeout_ready := timeout_ready;
     Namespace.runtime_cls := None;
     Namespace.pea_role := Some WORKER;
     Namespace.port_in := None;
     Namespace.shard_id := None;
     Namespace.connection_list := None;
     Namespace.uses_before_address := None;
     Namespace.uses_after_address := None |}.

(** A world at time 0 with an empty transcript. *)
Definition env0 (status_of : Z -> string -> ApiException + V1DeploymentStatus.t)
    (uids_of : Z -> string -> ApiException + list string) : Env t :=
  {| world := {| now := 0; status_of := status_of; uids_of := uids_of |};
     calls := [] |}.

(** The controller [K8sPod(args)] builds, when the partitioner returns. *)
Definition new_pod (args : Namespace.t) : K8sPod.t :=
  match K8sPod.__init__ args ∅ "master" with
  | Ret p => p
  | _ =>
      {| K8sPod.args := args;
         K8sPod.k8s_namespace := Namespace.k8s_namespace args;
         K8sPod.needs := ∅;
         K8sPod.version := "master";
         K8sPod.k8s_head_deployment := None;
         K8sPod.k8s_connection_pool := Namespace.k8s_connection_pool args;
         K8sPod.k8s_deployments := [];
         K8sPod.exit_callbacks := [] |}
  end.

(** The worker handle of the single-shard Pod ["enc"], three replicas. *)
Definition enc_worker (timeout_ready : Z) : D.t :=
  let args := pod_args "enc" (Some 1) true false None timeout_ready in
  D.__init__ "enc" 8081 "master" "worker" "enc" (Some 0) args
    (shard_args args 0).

(** The Pod ["enc"] with two shards. *)
Definition enc_pod (noblock_on_start : bool) : K8sPod.t :=
  new_pod (pod_args "enc" (Some 2) true noblock_on_start None 2000).

(** A cluster where the head and the first shard are ready and the
    deployment of the second shard cannot be read. *)
Definition second_shard_unreadable : Env t :=
  env0 (fun _ name =>
          if String.eqb name "enc-head" then counts 1 1 1
          else if String.eqb name "enc-1" then inl not_found
          else counts 3 3 3)
       (fun _ _ => inr []).

(** A cluster where the deployment of the first shard cannot be read. *)
Definition first_shard_unreadable : Env t :=
  env0 (fun _ name =>
          if String.eqb name "enc-0" then inl not_found else counts 3 3 3)
       (fun _ _ => inr ["old"%string]).

(** A cluster whose deployments all show [n] replicas, ready, updated and
    total, and whose pods are [uids]. *)
Definition settled (n : Z) (uids : list string) : Env t :=
  env0 (fun _ _ => counts n n n) (fun _ _ => inr uids).

(** A cluster that shows three replicas, ready, updated and total, from the
    start, and where the pod ["old"] of every deployment is gone, and the pod
    ["new"] is there, one second later. *)
Definition rolling : Env t :=
  env0 (fun _ _ => counts 3 3 3)
       (fun now _ =>
          if now <? 1000000000 then inr ["old"%string] else inr ["new"%string]).

(** What the partitioner returns for [args], when it returns. *)
Definition parsed (args : Namespace.t) : ParsedArgs :=
  match _parse_deployment_args (Namespace.name args)
          (Namespace.k8s_namespace args) args with
  | Ret pa => pa
  | _ => {| head_deployment := None; deployments := [] |}
  end.

(** The arguments of the gateway, with one shard, and the one handle its
    controller has. *)
Definition gateway_args (noblock_on_start : bool) : Namespace.t :=
  pod_args "gateway" (Some 1) true noblock_on_start None 2000.

Definition gateway_handle (noblock_on_start : bool) : D.t :=
  D.__init__ "gateway" 8081 "master" "worker" "gateway" (Some 0)
    (gateway_args noblock_on_start)
    (shard_args (gateway_args noblock_on_start) 0).

(** A cluster where every deployment shows the replicas that were asked
    for: one for the head of ["enc"], three for the others. *)
Definition all_ready : Env t :=
  env0 (fun _ name =>
          if String.eqb name "enc-head" then counts 1 1 1 else counts 3 3 3)
       (fun _ _ => inr []).

(** A cluster where no deployment can be read. *)
Definition unreadable : Env t :=
  env0 (fun _ _ => inl not_found) (fun _ _ => inr []).

(** The worlds that show no replica of any deployment, now and later. *)
Definition shows_nothing (w : t) : Prop :=
  status_of w = fun _ _ => counts 0 0 0.

(** Does the transcript read the deployment [name]? *)
Definition reads_deployment (name : string) (c : Call) : bool :=
  match c with
  | read_namespaced_deployment_call name' _ _ => String.eqb name name'
  | _ => false
  end.

End Scripted.

(** ** The static address table

    [connection_table] is the table whose JSON text lines 526-531 write, and
    [static_address_table] is the table as the specification words it; the
    two are compared below. *)

(** The name of the handle of shard [i] (lines 485-489 and 528). *)
Definition worker_name (self_name : string) (shards i : Z) : string :=
  if 1 <? shards then self_name +:+ "-" +:+ str i else self_name.

(** Lines 528-529: shard index to ["<name>.<namespace>.svc:<head port>"],
    where [name] is the handle's name as line 528 builds it; [to_dns_name] is
    not applied to it. *)
Definition connection_table `{Externals} (self_name k8s_namespace : string)
    (shards : Z) : list (string * string) :=
  map (fun i =>
         (str i,
          worker_name self_name shards i +:+ "." +:+ k8s_namespace +:+ ".svc:"
          +:+ str K8S_PORT_IN))
      (seqZ 0 shards).


(** One ["key": "value"] member, and the JSON object of a table. *)
Definition json_member (kv : string * string) : string :=
  dq +:+ kv.1 +:+ dq +:+ ": " +:+ dq +:+ kv.2 +:+ dq.
Definition json_object (table : list (string * string)) : string :=
  "{" +:+ String.concat "," (map json_member table) +:+ "}".

(** ** Reading a transcript *)

(** The [ApiException] a recorded call raised, if it raised one. *)
Definition raised_by (c : Call) : option ApiException :=
  match c with
  | deploy_service_call _ (inl ex)
  | read_namespaced_deployment_call _ _ (inl ex)
  | list_namespaced_pod_call _ _ (inl ex)
  | delete_namespaced_deployment_call _ _ (inl ex)
  | patch_namespaced_deployment_scale_call _ _ _ (inl ex) => Some ex
  | _ => None
  end.

(** No call of the transcript raised. *)
Definition quiet (cs : list Call) : Prop :=
  Forall (fun c => raised_by c = None) cs.

(** The transcript of a wait whose deadline of [t] nanoseconds elapsed: it
    opens with the reading of [now], no call raised, and its last call is a
    clock reading at least [t] after [now]. *)
Definition deadline_elapsed (timeout_ready : Z) (cs : list Call) : Prop :=
  exists t now mid tnow,
    timeout_ns_of timeout_ready = Some t
    /\ cs = time_ns_call now :: mid ++ [time_ns_call tnow]
    /\ quiet mid
    /\ t <= tnow - now.

(** The transcript of a wait that an API error ended: the call that raised
    [ex] is the last one, and no call before it raised. *)
Definition api_failed (ex : ApiException) (cs : list Call) : Prop :=
  exists pre c, cs = pre ++ [c] /\ quiet pre /\ raised_by c = Some ex.

(** The last status a transcript shows, if it shows one: the counts a wait
    observed last. *)
Definition last_observed (cs : list Call) : option V1DeploymentStatus.t :=
  last (omap (fun c =>
                match c with
                | read_namespaced_deployment_call _ _ (inr st) => Some st
                | _ => None
                end) cs).

(** What the last turn of a successful [wait_start_success] (with [n] the
    handle's [num_replicas]) or [wait_scale_success] (with [n] the target)
    shows: one status, whose ready count is [n]. *)
Definition ready_observed (d : D.t) (n : Z)
    (obs : list Call) : Prop :=
  exists st,
    obs = [read_namespaced_deployment_call (D.dns_name d)
             (D.k8s_namespace d) (inr st)]
    /\ V1DeploymentStatus.ready_replicas st = Some n.

(** What the last turn of a successful [wait_restart_success] shows: a
    status whose updated and total counts are the handle's [num_replicas], then
    a list of live pods that holds no UID of the snapshot. *)
Definition restart_observed (d : D.t)
    (previous_uids : list string) (obs : list Call) : Prop :=
  exists st uids,
    obs = [read_namespaced_deployment_call (D.dns_name d)
             (D.k8s_namespace d) (inr st);
           list_namespaced_pod_call (D.k8s_namespace d)
             ("app=" +:+ D.dns_name d) (inr uids)]
    /\ V1DeploymentStatus.updated_replicas st
       = Some (D.num_replicas d)
    /\ V1DeploymentStatus.replicas st
       = Some (D.num_replicas d)
    /\ forall uid, uid ∈ previous_uids -> uid ∉ uids.

(** What one turn of a polling loop may do, given what a successful
    observation looks like: it leaves [self] alone, and either returns on a
    successful observation, or breaks on the call that raised, or sleeps and
    goes round again. *)
Definition turn_ok {W} (succeeded : list Call -> Prop)
    (d : D.t)
    (body : M (D.t * Env W) control) : Prop :=
  forall e o d' e',
    body (d, e) = (o, (d', e')) ->
    d' = d
    /\ exists new,
         calls e' = calls e ++ new
         /\ match o with
            | Ret Return_ => succeeded new
            | Ret (Break ex) => api_failed ex new
            | Ret Continue => exists pre, new = pre ++ [sleep_call] /\ quiet pre
            | _ => False
            end.

(** What a wait may do, by outcome, with [new] the calls it made. *)
Definition wait_result `{Externals} (fail_msg : string) (timeout_ready : Z)
    (succeeded : list Call -> Prop) (o : outcome unit) (new : list Call)
    : Prop :=
  match o with
  | Ret _ =>
      exists now pre obs,
        new = time_ns_call now :: pre ++ obs /\ quiet pre /\ succeeded obs
  | Raise e =>
      (deadline_elapsed timeout_ready new /\ e = RuntimeFailToStart fail_msg)
      \/ (exists ex,
            api_failed ex new
            /\ e = RuntimeFailToStart (fail_msg +:+ ": " +:+ repr ex))
  | OutOfFuel =>
      quiet new
      /\ exists now rest,
           new = time_ns_call now :: rest
           /\ (rest = [] \/ exists pre, rest = pre ++ [sleep_call])
  end.

(** A wait fails exactly on an elapsed deadline or on an API error: with [o]
    its outcome and [new] the calls it made, it raises if and only if the
    transcript shows one of the two, and what it raises is
    [RuntimeFailToStart] with the bare message on a timeout and with the
    [repr] of the error appended on an API error. *)
Definition fails_exactly_when `{Externals} (fail_msg : string)
    (timeout_ready : Z) (o : outcome unit) (new : list Call) : Prop :=
  ((exists e, o = Raise e)
   <-> deadline_elapsed timeout_ready new \/ exists ex, api_failed ex new)
  /\ (deadline_elapsed timeout_ready new ->
      o = Raise (RuntimeFailToStart fail_msg))
  /\ (forall ex, api_failed ex new ->
      o = Raise (RuntimeFailToStart (fail_msg +:+ ": " +:+ repr ex))).

(** What a turn of [wait_start_success] (with [n] the handle's
    [num_replicas]) or of [wait_scale_success] (with [n] the target) shows
    before it sleeps and goes round again: one status, whose ready count is
    not [n]. *)
Definition ready_pending (d : D.t) (n : Z) (obs : list Call) : Prop :=
  exists st,
    obs = [read_namespaced_deployment_call (D.dns_name d)
             (D.k8s_namespace d) (inr st)]
    /\ V1DeploymentStatus.ready_replicas st <> Some n.

(** What the turn of these two waits shows when it breaks: the reading of
    the deployment, which raised [ex]. *)
Definition read_failed (d : D.t) (ex : ApiException) (obs : list Call) : Prop :=
  obs = [read_namespaced_deployment_call (D.dns_name d)
           (D.k8s_namespace d) (inl ex)].

(** What a turn of [wait_restart_success] shows before it sleeps and goes
    round again: a status and a list of live pods that do not meet the three
    conditions together. *)
Definition restart_pending (d : D.t) (previous_uids : list string)
    (obs : list Call) : Prop :=
  exists st uids,
    obs = [read_namespaced_deployment_call (D.dns_name d)
             (D.k8s_namespace d) (inr st);
           list_namespaced_pod_call (D.k8s_namespace d)
             ("app=" +:+ D.dns_name d) (inr uids)]
    /\ ~ (V1DeploymentStatus.updated_replicas st = Some (D.num_replicas d)
          /\ V1DeploymentStatus.replicas st = Some (D.num_replicas d)
          /\ forall uid, uid ∈ previous_uids -> uid ∉ uids).

(** What the turn of [wait_restart_success] shows when it breaks: the
    reading of the deployment raised [ex], or it answered and the list of the
    pods raised [ex]. *)
Definition restart_failed (d : D.t) (ex : ApiException) (obs : list Call)
    : Prop :=
  obs = [read_namespaced_deployment_call (D.dns_name d)
           (D.k8s_namespace d) (inl ex)]
  \/ exists st,
       obs = [read_namespaced_deployment_call (D.dns_name d)
                (D.k8s_namespace d) (inr st);
              list_namespaced_pod_call (D.k8s_namespace d)
                ("app=" +:+ D.dns_name d) (inl ex)].

(** The check of the loop condition that lets a turn begin: no call when
    there is no deadline, else one reading of the clock, less than the
    deadline after [now]. *)
Definition in_time (timeout_ns : option Z) (now : Z) (check : list Call)
    : Prop :=
  match timeout_ns with
  | None => check = []
  | Some t => exists tnow, check = [time_ns_call tnow] /\ tnow - now < t
  end.

(** The calls of the turns that went round again: each turn is a check in
    time, an observation in which the awaited condition does not hold, and the
    sleep. *)
Inductive turns (timeout_ns : option Z) (now : Z)
    (pending : list Call -> Prop) : list Call -> Prop :=
| turns_none : turns timeout_ns now pending []
| turns_next check obs rest :
    in_time timeout_ns now check ->
    pending obs ->
    turns timeout_ns now pending rest ->
    turns timeout_ns now pending (check ++ obs ++ sleep_call :: rest).

(** The calls [new] of a wait, turn by turn, by outcome [o]: the reading of
    [now], then turns that each began in time, saw the condition not hold and
    slept, and then
    - when it returns, a check in time and the observation that succeeded;
    - when it raises, either one reading of the clock that is not before the
      deadline, which ends the loop with no further call and the bare message,
      or a check in time and the API call that raised, which is not tried
      again and whose [repr] ends the message;
    - nothing more, when the fuel ran out. *)
Definition wait_trace `{Externals} (fail_msg : string) (timeout_ready : Z)
    (succeeded pending : list Call -> Prop)
    (failed : ApiException -> list Call -> Prop)
    (o : outcome unit) (new : list Call) : Prop :=
  exists now before last,
    new = time_ns_call now :: before ++ last
    /\ turns (timeout_ns_of timeout_ready) now pending before
    /\ match o with
       | Ret _ =>
           exists check obs,
             last = check ++ obs
             /\ in_time (timeout_ns_of timeout_ready) now check
             /\ succeeded obs
       | Raise e =>
           (exists t tnow,
              timeout_ns_of timeout_ready = Some t
              /\ last = [time_ns_call tnow]
              /\ t <= tnow - now
              /\ e = RuntimeFailToStart fail_msg)
           \/ (exists check obs ex,
                 last = check ++ obs
                 /\ in_time (timeout_ns_of timeout_ready) now check
                 /\ failed ex obs
                 /\ e = RuntimeFailToStart (fail_msg +:+ ": " +:+ repr ex))
       | OutOfFuel => last = []
       end.

(** What one turn of a polling loop shows, by the control it returns: it
    leaves [self] alone and makes the calls of one observation, followed by
    the sleep when it goes round again. *)
Definition turn_shows {W} (succeeded pending : list Call -> Prop)
    (failed : ApiException -> list Call -> Prop) (d : D.t)
    (body : M (D.t * Env W) control) : Prop :=
  forall e o d' e',
    body (d, e) = (o, (d', e')) ->
    d' = d
    /\ exists obs,
         match o with
         | Ret Return_ => calls e' = calls e ++ obs /\ succeeded obs
         | Ret (Break ex) => calls e' = calls e ++ obs /\ failed ex obs
         | Ret Continue =>
             calls e' = calls e ++ obs ++ [sleep_call] /\ pending obs
         | _ => False
         end.

(** A call a wait on the handle [d] makes: the clock, the sleep, and the
    reads of [d]'s own deployment and pods. *)
Definition poll_call_of (d : D.t) (c : Call) : Prop :=
  match c with
  | time_ns_call _ | sleep_call => True
  | read_namespaced_deployment_call name namespace _ =>
      name = D.dns_name d /\ namespace = D.k8s_namespace d
  | list_namespaced_pod_call namespace label_selector _ =>
      namespace = D.k8s_namespace d
      /\ label_selector = "app=" +:+ D.dns_name d
  | _ => False
  end.

(** ** Reading a loop over the worker handles

    [folds_over body ds b e o ds' e']: running [body] on the handles [ds] in
    order, from the local [b] and the environment [e], stops at the first
    handle on which [body] does not return and ends with outcome [o], the
    handles [ds'] and the environment [e']. *)
Inductive folds_over {W B} (body : B -> M (D.t * Env W) B)
  : list D.t -> B -> Env W -> outcome B -> list D.t -> Env W -> Prop :=
| folds_nil b e : folds_over body [] b e (Ret b) [] e
| folds_raise d ds b e ex d' e' :
    body b (d, e) = (Raise ex, (d', e')) ->
    folds_over body (d :: ds) b e (Raise ex) (d' :: ds) e'
| folds_out_of_fuel d ds b e d' e' :
    body b (d, e) = (OutOfFuel, (d', e')) ->
    folds_over body (d :: ds) b e OutOfFuel (d' :: ds) e'
| folds_step d ds b e b1 d' e1 o ds' e' :
    body b (d, e) = (Ret b1, (d', e1)) ->
    folds_over body ds b1 e1 o ds' e' ->
    folds_over body (d :: ds) b e o (d' :: ds') e'.

(** A piece of controller code that, given a reference to a worker, does
    what the handle-level code [m] does on that worker. *)
Definition acts_on_worker {W A} (pod_m : K8sPod.handle_ref -> M (K8sPod.t * Env W) A)
    (m : M (D.t * Env W) A) : Prop :=
  forall i p e d,
    K8sPod.k8s_deployments p !! i = Some d ->
    pod_m (K8sPod.worker_ref i) (p, e)
    = let '(o, (d', e')) := m (d, e) in
      (o, (K8sPod.set_k8s_deployments (<[i := d']> (K8sPod.k8s_deployments p)) p,
           e')).

(** The call [scale] makes for the handle [d]. *)
Definition patch_call_of (replicas : Z) (d : D.t) (c : Call) : Prop :=
  exists resp,
    c = patch_namespaced_deployment_scale_call (D.dns_name d)
          (D.k8s_namespace d) replicas resp.

(** The handle [d'] is [d] with [replicas] as its recorded count, and
    nothing else changed. *)
Definition records_replicas (replicas : Z) (d d' : D.t) : Prop :=
  D.num_replicas d' = replicas
  /\ D.name d' = D.name d
  /\ D.dns_name d' = D.dns_name d
  /\ D.head_port_in d' = D.head_port_in d
  /\ D.version d' = D.version d
  /\ D.pea_type d' = D.pea_type d
  /\ D.jina_pod_name d' = D.jina_pod_name d
  /\ D.shard_id d' = D.shard_id d
  /\ D.common_args d' = D.common_args d
  /\ D.deployment_args d' = D.deployment_args d
  /\ D.k8s_namespace d' = D.k8s_namespace d
  /\ D.cluster_address d' = D.cluster_address d.

(** A polling call of one of the handles [ds]. *)
Definition worker_poll (ds : list D.t) (c : Call) : Prop :=
  exists d, d ∈ ds /\ poll_call_of d c.

(** The calls of the first loop of [rolling_update] for the handle [d]:
    the list of its live pods, answered with [uids], and right after it the
    re-deployment with [replace_deployment = True]. *)
Definition replaced_after_snapshot (d : D.t) (uids : list string)
    (cs : list Call) : Prop :=
  exists req resp,
    cs = [list_namespaced_pod_call (D.k8s_namespace d)
            ("app=" +:+ D.dns_name d) (inr uids);
          deploy_service_call req resp]
    /\ DeployService.name req = D.dns_name d
    /\ DeployService.namespace req = D.k8s_namespace d
    /\ DeployService.replace_deployment req = true.

(** The calls of that first loop, whether it completes or not: snapshots
    each directly followed by the re-deployment of the same handle, and at the
    end possibly one snapshot that no re-deployment follows (the list of the
    pods raised, or the handle refused the update). *)
Inductive replace_phase : list Call -> Prop :=
| replace_phase_done : replace_phase []
| replace_phase_stopped ns selector resp :
    replace_phase [list_namespaced_pod_call ns selector resp]
| replace_phase_next d uids cs rest :
    replaced_after_snapshot d uids cs ->
    replace_phase rest ->
    replace_phase (cs ++ rest).

(** Two handles for the same deployment of the cluster. *)
Definition same_deployment (d d' : D.t) : Prop :=
  D.dns_name d' = D.dns_name d /\ D.k8s_namespace d' = D.k8s_namespace d.

(** The handles of a controller in the order [start] creates them: the
    head, if there is one, then the workers. *)
Definition handles (p : K8sPod.t) : list D.t :=
  match K8sPod.k8s_head_deployment p with
  | Some d => [d]
  | None => []
  end ++ K8sPod.k8s_deployments p.

(** The handle a reference points to. *)
Definition lookup_handle (p : K8sPod.t) (r : K8sPod.handle_ref) : option D.t :=
  match r with
  | K8sPod.head_ref => K8sPod.k8s_head_deployment p
  | K8sPod.worker_ref i => K8sPod.k8s_deployments p !! i
  end.

(** The exit stack after a [start] that entered every handle: the workers,
    newest first, above the head. *)
Definition all_registered (p : K8sPod.t) : list K8sPod.handle_ref :=
  reverse (K8sPod.deployment_refs p)
  ++ match K8sPod.k8s_head_deployment p with
     | Some _ => [K8sPod.head_ref]
     | None => []
     end.

(** The deletion of the deployment of the handle [d]. *)
Definition delete_call_of (d : D.t) (c : Call) : Prop :=
  exists resp,
    c = delete_namespaced_deployment_call (D.dns_name d) (D.k8s_namespace d)
          resp.

(** A polling call of one of the controller's handles. *)
Definition handle_poll (p : K8sPod.t) (c : Call) : Prop :=
  exists d, d ∈ handles p /\ poll_call_of d c.

(** The deletions a transcript holds. *)
Definition is_deletion (c : Call) : bool :=
  match c with
  | delete_namespaced_deployment_call _ _ _ => true
  | _ => false
  end.
Definition deletions (cs : list Call) : list Call := List.filter is_deletion cs.

(** A successful observation ends with an API call that answered. *)
Definition ends_answered (succeeded : list Call -> Prop) : Prop :=
  forall obs, succeeded obs ->
    exists obs' c, obs = obs' ++ [c] /\ raised_by c = None
                   /\ forall t, c ≠ time_ns_call t.

Section LoopBodies.
Context {W : Type} `{Platform W} `{Externals}.

(** What a turn does to the transcript, for a property [Q] of calls. *)
Definition turn_calls (Q : Call -> Prop) (d : D.t)
    (body : M (D.t * Env W) control) : Prop :=
  forall e o d' e',
    body (d, e) = (o, (d', e')) ->
    d' = d /\ exists new, calls e' = calls e ++ new /\ Forall Q new.

(** The body of the first loop of [rolling_update] (lines 586-588), as it
    acts on one handle. *)
Definition snapshot_and_replace (dump_path : option string)
    (uses_with : option (gmap string string))
    (old_uids : gmap string (list string))
    : M (D.t * Env W) (gmap string (list string)) :=
  uids <- D.get_pod_uids ;;
  key <- (d <- self ;; ret (D.dns_name d)) ;;
  let old_uids := <[key := uids]> old_uids in
  D.rolling_update dump_path uses_with ;;;
  ret old_uids.

(** The body of its second loop (lines 590-591), as it acts on one handle. *)
Definition wait_restarted (fuel : nat) (old_uids : gmap string (list string))
    : M (D.t * Env W) unit :=
  key <- (d <- self ;; ret (D.dns_name d)) ;;
  match old_uids !! key with
  | Some uids => D.wait_restart_success fuel (Some uids)
  | None => raise (KeyError key)
  end.

(** The waits of that second loop on the handles [ds], from the
    environment [e]: a handle waits, with the snapshot stored under its DNS
    name, when the wait of the handle before it has returned; the first wait
    that does not return ends the loop with its outcome [o], and the waits of
    the handles after it are not started. *)
Inductive waits_in_turn (fuel : nat) (old_uids : gmap string (list string))
  : list D.t -> Env W -> outcome unit -> Env W -> Prop :=
| waits_in_turn_done e : waits_in_turn fuel old_uids [] e (Ret tt) e
| waits_in_turn_next d ds uids e e1 o e' :
    old_uids !! D.dns_name d = Some uids ->
    D.wait_restart_success fuel (Some uids) (d, e) = (Ret tt, (d, e1)) ->
    waits_in_turn fuel old_uids ds e1 o e' ->
    waits_in_turn fuel old_uids (d :: ds) e o e'
| waits_in_turn_stop d ds uids e o e' :
    old_uids !! D.dns_name d = Some uids ->
    D.wait_restart_success fuel (Some uids) (d, e) = (o, (d, e')) ->
    o <> Ret tt ->
    waits_in_turn fuel old_uids (d :: ds) e o e'.

(** A turn of a polling loop on a ticking platform: it returns a control,
    never moves the clock back, and moves it a second on when it goes round
    again. *)
Definition turn_ticks `{!Ticking W} (d : D.t)
    (body : M (D.t * Env W) control) : Prop :=
  forall e o d' e',
    body (d, e) = (o, (d', e')) ->
    d' = d
    /\ clock_of (world e) <= clock_of (world e')
    /\ match o with
       | Ret Continue => clock_of (world e) + 1000000000 <= clock_of (world e')
       | Ret _ => True
       | _ => False
       end.

End LoopBodies.

(** What no method of a handle changes in the controller: the arguments,
    the number of workers and whether there is a head. *)
Definition shape (p : K8sPod.t) : Namespace.t * nat * bool :=
  (K8sPod.args p, length (K8sPod.k8s_deployments p),
   bool_decide (is_Some (K8sPod.k8s_head_deployment p))).

(** ** Reading what [__init__] built *)

(** What every handle that [__init__] creates for [args] has. *)
Definition created_for `{Externals} (args : Namespace.t) (version : string)
    (d : D.t) : Prop :=
  D.dns_name d = to_dns_name (D.name d)
  /\ D.common_args d = args
  /\ D.k8s_namespace d = Namespace.k8s_namespace args
  /\ D.jina_pod_name d = Namespace.name args
  /\ D.head_port_in d = K8S_PORT_IN
  /\ D.version d = version
  /\ D.cluster_address d = None.

(** ** Reading what [start] did *)

(** The request [start] sends for the handle [d]: the one of
    [_deploy_gateway] (lines 52-65) for the handle named ["gateway"], which
    passes no shard index and does not ask for a replacement, else the one of
    [_deploy_runtime] (lines 156-183) with [replace=False]. *)
Definition start_request (d : D.t) : DeployService.t :=
  if String.eqb (D.name d) "gateway" then
    {| DeployService.name := D.dns_name d;
       DeployService.namespace := D.k8s_namespace d;
       DeployService.replicas := 1;
       DeployService.jina_pod_name := "gateway";
       DeployService.pea_type := "gateway";
       DeployService.shard_id := None;
       DeployService.replace_deployment := false |}
  else
    {| DeployService.name := D.dns_name d;
       DeployService.namespace := D.k8s_namespace d;
       DeployService.replicas := D.num_replicas d;
       DeployService.jina_pod_name := D.jina_pod_name d;
       DeployService.pea_type := D.pea_type d;
       DeployService.shard_id := D.shard_id d;
       DeployService.replace_deployment := false |}.

(** The handle [d'] is [d] with [address] as its cluster address, and
    nothing else changed. *)
Definition records_address (address : string) (d d' : D.t) : Prop :=
  D.cluster_address d' = Some address
  /\ D.name d' = D.name d
  /\ D.dns_name d' = D.dns_name d
  /\ D.head_port_in d' = D.head_port_in d
  /\ D.version d' = D.version d
  /\ D.pea_type d' = D.pea_type d
  /\ D.jina_pod_name d' = D.jina_pod_name d
  /\ D.shard_id d' = D.shard_id d
  /\ D.common_args d' = D.common_args d
  /\ D.deployment_args d' = D.deployment_args d
  /\ D.k8s_namespace d' = D.k8s_namespace d
  /\ D.num_replicas d' = D.num_replicas d.

(** The calls of [start] on the handle [d]: the deployment, which is not a
    replacement, then the polls of its own wait, none when the start does not
    block. *)
Definition start_calls_of (d : D.t) (cs : list Call) : Prop :=
  exists resp polls,
    cs = deploy_service_call (start_request d) resp :: polls
    /\ Forall (poll_call_of d) polls
    /\ (Namespace.noblock_on_start (D.common_args d) = true -> polls = []).

(** The references [start] enters, in order: the head, if there is one,
    then the workers. *)
Definition start_refs (p : K8sPod.t) : list K8sPod.handle_ref :=
  match K8sPod.k8s_head_deployment p with
  | Some _ => [K8sPod.head_ref]
  | None => []
  end ++ K8sPod.deployment_refs p.

(** References are compared by what they point to. *)
#[export] Instance handle_ref_eq_dec : EqDecision K8sPod.handle_ref.
Proof. solve_decision. Defined.

(** The deployments a transcript asks for. *)
Definition is_deployment (c : Call) : bool :=
  match c with
  | deploy_service_call _ _ => true
  | _ => false
  end.

(** ** Reading what [rolling_update] stored *)

(** The [uses_with] a rolling update stores: the one it was given, with
    [dump_path] put in it under the key ["dump_path"] when there is one. *)
Definition stored_uses_with (dump_path : option string)
    (uses_with : option (gmap string string)) : option (gmap string string) :=
  match dump_path with
  | Some path => Some (<["dump_path"%string := path]> (default ∅ uses_with))
  | None => uses_with
  end.

(** The handle [d'] is [d] after a rolling update with these arguments: its
    arguments hold them, and it records the same replicas for the same
    deployment. *)
Definition holds_update (dump_path : option string)
    (uses_with : option (gmap string string)) (d d' : D.t) : Prop :=
  Namespace.dump_path (D.deployment_args d') = dump_path
  /\ Namespace.uses_with (D.deployment_args d')
     = stored_uses_with dump_path uses_with
  /\ D.num_replicas d' = D.num_replicas d
  /\ D.name d' = D.name d
  /\ same_deployment d d'.

(** ** Reading a wait without deadline *)

(** A polling call of [d] other than a reading of the clock. *)
Definition clockless_poll_of (d : D.t) (c : Call) : Prop :=
  poll_call_of d c /\ forall t, c <> time_ns_call t.

(** A turn that, on the worlds of [Inv], goes round again and stays in
    [Inv]. *)
Definition turn_goes_on {W} (Inv : W -> Prop) (d : D.t)
    (body : M (D.t * Env W) control) : Prop :=
  forall e, Inv (world e) ->
    exists e', body (d, e) = (Ret Continue, (d, e')) /\ Inv (world e').

(** ** Reading what the controller's wait saw *)

(** The transcript shows the deployment of [d] with as many ready replicas
    as [d] records. *)
Definition seen_ready (d : D.t) (cs : list Call) : Prop :=
  exists st,
    read_namespaced_deployment_call (D.dns_name d) (D.k8s_namespace d) (inr st)
    ∈ cs
    /\ V1DeploymentStatus.ready_replicas st = Some (D.num_replicas d).

(** What [num_peas] counts for the head. *)
Definition head_peas (p : K8sPod.t) : Z :=
  match K8sPod.k8s_head_deployment p with
  | Some h => D.num_replicas h
  | None => 0
  end.

(** * Properties *)

(** ** The deadline *)

Lemma scaled_le (n d e : Z) :
  0 < n -> 0 < d -> e <= Z.log2 n - Z.log2 d - 1 ->
  d * 2 ^ Z.max 0 e <= n * 2 ^ Z.max 0 (- e).
Proof.
  intros Hn Hd He.
  pose proof (Z.log2_spec n Hn) as [Hn1 Hn2].
  pose proof (Z.log2_spec d Hd) as [Hd1 Hd2].
  pose proof (Z.log2_nonneg n). pose proof (Z.log2_nonneg d).
  destruct (Z.le_gt_cases 0 e) as [Hpos|Hneg].
  - rewrite Z.max_r, Z.max_l, Z.pow_0_r, Z.mul_1_r by lia.
    transitivity (2 ^ Z.log2 n); [| done].
    transitivity (2 ^ Z.succ (Z.log2 d) * 2 ^ e).
    + apply Z.mul_le_mono_nonneg_r; [apply Z.pow_nonneg; lia | lia].
    + rewrite <- Z.pow_add_r by lia. apply Z.pow_le_mono_r; lia.
  - rewrite Z.max_l, Z.max_r, Z.pow_0_r, Z.mul_1_r by lia.
    transitivity (2 ^ Z.succ (Z.log2 d)); [lia |].
    transitivity (2 ^ Z.log2 n * 2 ^ (- e)).
    + rewrite <- Z.pow_add_r by lia. apply Z.pow_le_mono_r; lia.
    + apply Z.mul_le_mono_nonneg_r; [apply Z.pow_nonneg; lia | done].
Qed.

(** Rounding a positive fraction gives a positive float. *)
Lemma round_binary64_pos (n d : Z) :
  0 < n -> 0 < d ->
  0 < (round_binary64 n d).1 /\ 0 < (round_binary64 n d).2.
Proof.
  intros Hn Hd. unfold round_binary64. cbv zeta. cbn [fst snd].
  match goal with
  | |- context [if ?c then Z.log2 n - Z.log2 d - 52 else _] =>
      set (e := if c then Z.log2 n - Z.log2 d - 52
                else Z.log2 n - Z.log2 d - 53)
  end.
  assert (e <= Z.log2 n - Z.log2 d - 1) as He.
  { subst e.
    match goal with |- context [if ?c then _ else _] => destruct c end; lia. }
  pose proof (scaled_le n d e Hn Hd He) as Hle.
  set (num := n * 2 ^ Z.max 0 (- e)) in *.
  set (den := d * 2 ^ Z.max 0 e) in *.
  assert (0 < 2 ^ Z.max 0 e) by (apply Z.pow_pos_nonneg; lia).
  assert (0 < 2 ^ Z.max 0 (- e)) by (apply Z.pow_pos_nonneg; lia).
  assert (0 < den) as Hden by (subst den; lia).
  assert (0 < num / den) as Hquo by (apply Z.div_str_pos; lia).
  pose proof (Z.mod_pos_bound (num / den) 2 ltac:(lia)).
  split; [| done].
  apply Z.mul_pos_pos; [| done].
  destruct (2 * (num mod den) <? den); [done |].
  destruct (den <? 2 * (num mod den)); lia.
Qed.

(** A deadline, when there is one, is at least one nanosecond. *)
Lemma timeout_ns_of_pos (timeout_ready t : Z) :
  timeout_ns_of timeout_ready = Some t -> 0 < t.
Proof.
  unfold timeout_ns_of. destruct (timeout_ready <=? 0) eqn:Hle; [done |].
  apply Z.leb_gt in Hle. intros [= <-]. unfold ceiling.
  assert (forall a b, 0 < a.1 /\ 0 < a.2 -> 0 < b.1 /\ 0 < b.2 ->
                      0 < (float_mul a b).1 /\ 0 < (float_mul a b).2) as Hmul.
  { intros a b [? ?] [? ?]. apply round_binary64_pos; lia. }
  assert (forall a b, 0 < a.1 /\ 0 < a.2 -> 0 < b.1 /\ 0 < b.2 ->
                      0 < (float_div a b).1 /\ 0 < (float_div a b).2) as Hdiv.
  { intros a b [? ?] [? ?]. apply round_binary64_pos; lia. }
  assert (forall x, 0 < x -> 0 < (float_of_int x).1 /\ 0 < (float_of_int x).2)
    as Hint.
  { intros x Hx. apply round_binary64_pos; lia. }
  match goal with
  | |- 0 < - (- ?q.1 / _) =>
      assert (0 < q.1 /\ 0 < q.2) as [Hnum Hden]
  end.
  { apply Hmul; [apply Hint; lia |]. apply Hdiv; apply Hint; lia. }
  match goal with
  | |- 0 < - (?a / ?b) => assert (a / b < 0); [| lia]
  end.
  apply Z.div_lt_upper_bound; lia.
Qed.

(** ** Strings *)

#[local] Arguments String.append !_ _ / : simpl nomatch.

Lemma append_assoc (a b c : string) : (a +:+ b) +:+ c = a +:+ b +:+ c.
Proof. induction a as [|x a IH]; simpl; [done | by rewrite IH]. Qed.

Lemma append_empty_r (a : string) : a +:+ "" = a.
Proof. induction a as [|x a IH]; simpl; [done | by rewrite IH]. Qed.

Lemma length_append (a b : string) :
  String.length (a +:+ b) = (String.length a + String.length b)%nat.
Proof. induction a as [|x a IH]; simpl; [done | by rewrite IH]. Qed.

Lemma substring_prefix (a b : string) :
  String.substring 0 (String.length a) (a +:+ b) = a.
Proof.
  induction a as [|x a IH]; simpl.
  - by destruct b.
  - by rewrite IH.
Qed.

Lemma drop_last_comma (a : string) : drop_last (a +:+ ",") = a.
Proof.
  unfold drop_last. rewrite length_append. simpl.
  replace (String.length a + 1 - 1)%nat with (String.length a) by lia.
  apply substring_prefix.
Qed.

(** ** The partitioner *)

Section PartitionerFacts.
Context `{Externals}.

Lemma connection_entry_member self_name ns shards i :
  connection_entry self_name ns shards i =
  json_member (str i,
               worker_name self_name shards i +:+ "." +:+ ns +:+ ".svc:"
               +:+ str K8S_PORT_IN) +:+ ",".
Proof.
  unfold connection_entry, json_member, worker_name. cbn [fst snd].
  by rewrite !append_assoc.
Qed.

(** The accumulated text is the opening brace followed by the members, each
    with its comma. *)
Lemma fold_entries (entry member : Z -> string) (l : list Z) (acc : string) :
  (forall i, entry i = member i +:+ ",") ->
  fold_left (fun acc i => acc +:+ entry i) l acc =
  acc +:+ String.concat "" (map (fun i => member i +:+ ",") l).
Proof.
  intros Hentry. revert acc. induction l as [|i l IH]; intros acc; simpl.
  - by rewrite append_empty_r.
  - rewrite IH, Hentry. destruct l as [|j l]; simpl.
    + by rewrite append_empty_r.
    + by rewrite !append_assoc.
Qed.

Lemma concat_commas (ms : list string) :
  ms ≠ [] ->
  String.concat "" (map (fun m => m +:+ ",") ms) = String.concat "," ms +:+ ",".
Proof.
  induction ms as [|m ms IH]; [done | intros _].
  destruct ms as [|m' ms]; [done |].
  change (String.concat "" (map (fun m => m +:+ ",") (m :: m' :: ms)))
    with ((m +:+ ",") +:+ "" +:+
          String.concat "" (map (fun m => m +:+ ",") (m' :: ms))).
  change (String.concat "," (m :: m' :: ms))
    with (m +:+ "," +:+ String.concat "," (m' :: ms)).
  rewrite IH by done. simpl. by rewrite !append_assoc.
Qed.

Lemma build_connection_list_table self_name ns shards :
  1 <= shards ->
  build_connection_list self_name ns shards =
  json_object (connection_table self_name ns shards).
Proof.
  intros Hs. unfold build_connection_list, json_object, connection_table.
  rewrite (fold_entries _
    (fun i => json_member (str i, worker_name self_name shards i +:+ "." +:+ ns
                                  +:+ ".svc:" +:+ str K8S_PORT_IN)))
    by apply connection_entry_member.
  rewrite <- (map_map _ (fun m => m +:+ ",")), <- (map_map _ json_member).
  rewrite concat_commas.
  - by rewrite <- append_assoc, drop_last_comma.
  - intros Hnil. apply (f_equal length) in Hnil.
    rewrite !length_map, length_seqZ in Hnil. simpl in Hnil. lia.
Qed.

(** Without shards the slice removes the opening brace: the partitioner
    does not reject a shard count below 1, and the text is then no object. *)
Lemma build_connection_list_no_shards self_name ns :
  build_connection_list self_name ns 0 = "}"%string.
Proof. reflexivity. Qed.

End PartitionerFacts.

Section PartitionerClaims.
Context `{Externals}.

Lemma shard_args_shard_id args i :
  Namespace.shard_id (shard_args args i) = Some i.
Proof. unfold shard_args. by destruct (String.eqb _ _). Qed.

Lemma shard_ids_of_workers args s :
  map Namespace.shard_id (map (shard_args args) (seqZ 0 s)) = map Some (seqZ 0 s).
Proof.
  rewrite map_map. apply map_ext. intros i. apply shard_args_shard_id.
Qed.

Lemma length_workers args s :
  length (map (shard_args args) (seqZ 0 s)) = Z.to_nat s.
Proof. by rewrite length_map, length_seqZ. Qed.

(** [C5] For every shard count [s >= 1], partitioning a PodSpec that is not
    the gateway returns a head spec, with [replicas = 1] and role [HEAD], and
    exactly [s] worker specs whose shard indices are [0, ..., s-1] in order. *)
Theorem partition_non_gateway self_name ns args s :
  Namespace.name args ≠ "gateway"%string ->
  default 1 (Namespace.shards args) = s ->
  1 <= s ->
  exists head workers,
    _parse_deployment_args self_name ns args
    = Ret {| head_deployment := Some head; deployments := workers |}
    /\ Namespace.replicas head = Some 1
    /\ Namespace.pea_role head = Some HEAD
    /\ length workers = Z.to_nat s
    /\ map Namespace.shard_id workers = map Some (seqZ 0 s).
Proof.
  intros Hname Hs _. unfold _parse_deployment_args. rewrite Hs.
  apply String.eqb_neq in Hname. rewrite Hname. simpl.
  destruct (Namespace.k8s_connection_pool args),
    (truthy (Namespace.uses_before args)),
    (truthy (Namespace.uses_after args)); simpl;
    eexists _, _; (split; [reflexivity |]);
    auto using length_workers, shard_ids_of_workers.
Qed.



(** [C4], as the code has it: a gateway PodSpec without uses-before and
    uses-after is partitioned into no head spec and one spec per configured
    shard, each with role [GATEWAY]: exactly one when the shard count is 1. *)
Theorem partition_gateway self_name ns args s :
  Namespace.name args = "gateway"%string ->
  truthy (Namespace.uses_before args) = false ->
  truthy (Namespace.uses_after args) = false ->
  default 1 (Namespace.shards args) = s ->
  exists workers,
    _parse_deployment_args self_name ns args
    = Ret {| head_deployment := None; deployments := workers |}
    /\ length workers = Z.to_nat s
    /\ map Namespace.shard_id workers = map Some (seqZ 0 s)
    /\ Forall (fun w => Namespace.pea_role w = Some GATEWAY) workers
    /\ (s = 1 -> exists w, workers = [w]).
Proof.
  intros Hname Hub Hua Hs. unfold _parse_deployment_args.
  rewrite Hs, Hname, Hub, Hua. simpl.
  eexists. split; [reflexivity |].
  split; [apply length_workers |]. split; [apply shard_ids_of_workers |].
  split.
  - apply Forall_forall. intros w Hw.
    apply list_elem_of_fmap in Hw as (i & -> & _).
    unfold shard_args. by rewrite Hname.
  - intros ->. by eexists.
Qed.

(** [C9] A gateway PodSpec that configures a uses-before or a uses-after
    executor makes the partitioner raise [AttributeError]: the head slot is
    [None] when the sidecar address is assigned to it. *)
Theorem partition_gateway_sidecar_raises self_name ns args :
  Namespace.name args = "gateway"%string ->
  truthy (Namespace.uses_before args) = true
  \/ truthy (Namespace.uses_after args) = true ->
  exists attr,
    _parse_deployment_args self_name ns args
    = Raise (AttributeError
               ("'NoneType' object has no attribute '" +:+ attr +:+ "'")).
Proof.
  intros Hname Hside. unfold _parse_deployment_args. rewrite Hname. simpl.
  destruct (truthy (Namespace.uses_before args)) eqn:Hub; simpl.
  - by exists "uses_before_address"%string.
  - destruct Hside as [? | ->]; [done |]. by exists "uses_after_address"%string.
Qed.

(** The names [__init__] gives the worker handles are the names of the
    connection table. *)
Lemma init_worker_names args needs version p s :
  default 1 (Namespace.shards args) = s ->
  1 <= s ->
  K8sPod.__init__ args needs version = Ret p ->
  D.name <$> K8sPod.k8s_deployments p
  = worker_name (Namespace.name args) s <$> seqZ 0 s.
Proof.
  intros Hs Hs1 Hinit. unfold K8sPod.__init__, K8sPod.name_of in Hinit.
  destruct (_parse_deployment_args _ _ args) as [pa|ex|] eqn:Hparse;
    [| done | done].
  injection Hinit as <-. cbn [K8sPod.k8s_deployments].
  assert (deployments pa = shard_args args <$> seqZ 0 s) as ->.
  { unfold _parse_deployment_args in Hparse. rewrite Hs in Hparse.
    repeat match type of Hparse with
           | context [match ?x with _ => _ end] => destruct x; simplify_eq
           end; done. }
  apply list_eq. intros i.
  rewrite !list_lookup_fmap, list_lookup_imap, list_lookup_fmap.
  rewrite length_fmap, length_seqZ.
  destruct (decide (Z.of_nat i < s)) as [Hi|Hi].
  - rewrite lookup_seqZ_lt by done. simpl. f_equal. unfold worker_name.
    replace (1 <? Z.to_nat s)%nat with (1 <? s); [done |].
    destruct (1 <? s) eqn:Hlt; symmetry.
    + apply Z.ltb_lt in Hlt. apply Nat.ltb_lt. lia.
    + apply Z.ltb_ge in Hlt. apply Nat.ltb_ge. lia.
  - by rewrite lookup_seqZ_ge by lia.
Qed.

End PartitionerClaims.

(** ** Transcripts *)

Lemma quiet_app (a b : list Call) : quiet a -> quiet b -> quiet (a ++ b).
Proof. unfold quiet. intros. by apply Forall_app. Qed.

Lemma quiet_time (t : Z) (cs : list Call) : quiet cs -> quiet (time_ns_call t :: cs).
Proof. unfold quiet. intros. by apply Forall_cons. Qed.

Lemma quiet_snoc_sleep (cs : list Call) : quiet cs -> quiet (cs ++ [sleep_call]).
Proof. intros. apply quiet_app; [done |]. by repeat constructor. Qed.

Lemma quiet_nil : quiet [].
Proof. constructor. Qed.

#[local] Hint Resolve quiet_app quiet_time quiet_snoc_sleep quiet_nil : core.

Lemma api_failed_cons (ex : ApiException) (c : Call) (cs : list Call) :
  raised_by c = None -> api_failed ex cs -> api_failed ex (c :: cs).
Proof.
  intros Hc (pre & c' & -> & Hpre & Hex).
  exists (c :: pre), c'. split; [done |]. split; [| done].
  by apply Forall_cons.
Qed.

Lemma api_failed_app (ex : ApiException) (a cs : list Call) :
  quiet a -> api_failed ex cs -> api_failed ex (a ++ cs).
Proof.
  intros Ha (pre & c' & -> & Hpre & Hex).
  exists (a ++ pre), c'. rewrite app_assoc. auto.
Qed.

(** A transcript ends in at most one way. *)
Lemma api_failed_last (ex : ApiException) (cs : list Call) :
  api_failed ex cs -> exists c, last cs = Some c /\ raised_by c = Some ex.
Proof. intros (pre & c & -> & _ & Hc). exists c. by rewrite last_snoc. Qed.

Lemma deadline_elapsed_last (timeout_ready : Z) (cs : list Call) :
  deadline_elapsed timeout_ready cs ->
  exists t, last cs = Some (time_ns_call t) /\ (2 <= length cs)%nat.
Proof.
  intros (t & now & mid & tnow & _ & -> & _ & _). exists tnow.
  rewrite app_comm_cons, last_snoc, length_app. simpl. split; [done | lia].
Qed.

Lemma api_failed_not_quiet (ex : ApiException) (cs : list Call) :
  api_failed ex cs -> quiet cs -> False.
Proof.
  intros (pre & c & -> & _ & Hc) Hq. apply Forall_app in Hq as [_ Hq].
  apply Forall_cons in Hq as [Hq _]. congruence.
Qed.

(** ** The polling loop *)

Section WaitFacts.
Context {W : Type} `{Platform W} `{Externals}.

(** Unfolding the monad on a state. *)
Ltac run :=
  unfold bind, ret, raise, lift, self, set_self, clock, sleep_1s, api_call,
    try_except_ApiException in *; simpl in *.

Lemma while_polls (succeeded : list Call -> Prop) (d : D.t)
    (body : M (D.t * Env W) control) (timeout_ns : option Z) (now : Z) :
  turn_ok succeeded d body ->
  forall fuel e o d' e',
    while_ fuel (D.before_deadline timeout_ns now) body (d, e) = (o, (d', e')) ->
    d' = d
    /\ exists new,
         calls e' = calls e ++ new
         /\ match o with
            | Ret Returned =>
                exists pre obs, new = pre ++ obs /\ quiet pre /\ succeeded obs
            | Ret (Broken ex) => api_failed ex new
            | Ret Expired =>
                exists t mid tnow,
                  timeout_ns = Some t /\ new = mid ++ [time_ns_call tnow]
                  /\ quiet mid /\ t <= tnow - now
            | OutOfFuel =>
                quiet new /\ (new = [] \/ exists pre, new = pre ++ [sleep_call])
            | Raise _ => False
            end.
Proof.
  intros Hbody. induction fuel as [|fuel IH]; intros e o d' e' Hrun.
  - simpl in Hrun. injection Hrun as <- <- <-. split; [done |].
    exists []. rewrite app_nil_r. auto.
  - simpl in Hrun. unfold bind at 1 in Hrun.
    (* the loop condition *)
    assert (exists go_on e1 pre1,
               D.before_deadline timeout_ns now (d, e) = (Ret go_on, (d, e1))
               /\ calls e1 = calls e ++ pre1 /\ quiet pre1
               /\ (go_on = false ->
                   exists t tnow, timeout_ns = Some t
                                  /\ pre1 = [time_ns_call tnow]
                                  /\ t <= tnow - now))
      as (go_on & e1 & pre1 & Hcond & Hcalls1 & Hq1 & Hstop).
    { unfold D.before_deadline. destruct timeout_ns as [t|].
      - run. destruct (time_ns (world e)) as [tnow w] eqn:Hclock.
        eexists _, _, [time_ns_call tnow]. split; [reflexivity |].
        split; [done |]. split; [auto |].
        intros Hlt. apply Z.ltb_ge in Hlt. eauto.
      - exists true, e, []. run. rewrite app_nil_r. by auto. }
    rewrite Hcond in Hrun. destruct go_on.
    + unfold bind at 1 in Hrun.
      destruct (body (d, e1)) as [ob [d1 e2]] eqn:Hturn.
      destruct (Hbody _ _ _ _ Hturn) as (-> & new2 & Hcalls2 & Hob).
      destruct ob as [[|ex|]| |]; try done.
      * injection Hrun as <- <- <-. split; [done |].
        exists (pre1 ++ new2). rewrite Hcalls2, Hcalls1, app_assoc.
        split; [done |]. eauto.
      * injection Hrun as <- <- <-. split; [done |].
        exists (pre1 ++ new2). rewrite Hcalls2, Hcalls1, app_assoc.
        split; [done |]. by apply api_failed_app.
      * destruct Hob as (pre2 & -> & Hq2).
        destruct (IH _ _ _ _ Hrun) as (-> & new3 & Hcalls3 & Ho).
        split; [done |].
        exists (pre1 ++ (pre2 ++ [sleep_call]) ++ new3).
        rewrite Hcalls3, Hcalls2, Hcalls1, !app_assoc. split; [done |].
        assert (quiet ((pre1 ++ pre2) ++ [sleep_call])) as Hq by auto.
        destruct o as [[|ex|]| |]; try done.
        -- destruct Ho as (pre & obs & -> & Hpre & Hobs).
           exists (((pre1 ++ pre2) ++ [sleep_call]) ++ pre), obs.
           rewrite !app_assoc. split_and!; auto.
        -- by apply api_failed_app.
        -- destruct Ho as (t & mid & tnow & -> & -> & Hmid & Ht).
           exists t, (((pre1 ++ pre2) ++ [sleep_call]) ++ mid), tnow.
           rewrite !app_assoc. split_and!; auto.
        -- destruct Ho as (Hq3 & Hnew3). split; [auto |].
           right. destruct Hnew3 as [-> | (pre & ->)].
           ++ exists (pre1 ++ pre2). by rewrite app_nil_r.
           ++ exists (((pre1 ++ pre2) ++ [sleep_call]) ++ pre).
              by rewrite !app_assoc.
    + run. injection Hrun as <- <- <-. split; [done |].
      destruct (Hstop eq_refl) as (t & tnow & -> & -> & Ht).
      exists [time_ns_call tnow]. split; [done |].
      exists t, [], tnow. auto.
Qed.

Lemma is_count_true (o : option Z) (n : Z) : is_count o n = true <-> o = Some n.
Proof.
  destruct o as [r|]; simpl; [| done].
  rewrite Z.eqb_eq. split; congruence.
Qed.

Lemma wait_scale_turn_ok (d : D.t) (n : Z) :
  turn_ok (W := W) (ready_observed d n) d (D.wait_scale_turn n).
Proof.
  intros e o d' e' Hrun.
  unfold D.wait_scale_turn, D._read_namespaced_deployment in Hrun. run.
  destruct (read_namespaced_deployment _ _ (world e)) as [[ex|st] w].
  - injection Hrun as <- <- <-. split; [done |]. simpl.
    eexists. split; [done |]. eexists [], _. split_and!; by auto.
  - destruct (is_count _ n) eqn:Hn; injection Hrun as <- <- <-;
      (split; [done |]); simpl.
    + eexists. split; [done |]. apply is_count_true in Hn. by exists st.
    + eexists. rewrite <- app_assoc. split; [done |].
      eexists [_]. split; [done |]. by repeat constructor.
Qed.

Lemma any_uid_in_false (current uids : list string) :
  D.any_uid_in current uids = false <-> forall uid, uid ∈ uids -> uid ∉ current.
Proof.
  unfold D.any_uid_in. rewrite <- not_true_iff_false, existsb_exists. split.
  - intros Hno uid Hin Hcur. apply Hno. exists uid.
    split; [by apply list_elem_of_In | by apply bool_decide_eq_true].
  - intros Hno (uid & Hin & Hcur). apply bool_decide_eq_true in Hcur.
    apply list_elem_of_In in Hin. by apply (Hno uid).
Qed.

Lemma wait_start_turn_ok (d : D.t) :
  turn_ok (W := W) (ready_observed d (D.num_replicas d)) d D.wait_start_turn.
Proof.
  intros e o d' e' Hrun.
  apply (wait_scale_turn_ok d (D.num_replicas d) e). exact Hrun.
Qed.

Lemma wait_restart_turn_ok (d : D.t) (previous_uids : list string) :
  turn_ok (W := W) (restart_observed d previous_uids) d
    (D.wait_restart_turn previous_uids).
Proof.
  intros e o d' e' Hrun.
  unfold D.wait_restart_turn, D._read_namespaced_deployment,
    D._has_pod_with_uid, D.get_pod_uids in Hrun.
  run.
  destruct (read_namespaced_deployment _ _ (world e)) as [[ex|st] w].
  { injection Hrun as <- <- <-. split; [done |]. simpl.
    eexists. split; [done |]. eexists [], _. split_and!; by auto. }
  simpl in Hrun.
  destruct (list_namespaced_pod _ _ w) as [[ex|uids] w'].
  { injection Hrun as <- <- <-. split; [done |]. simpl.
    eexists. rewrite <- app_assoc. split; [done |].
    eexists [_], _. split; [done |]. split; [by repeat constructor | done]. }
  simpl in Hrun.
  destruct (is_count _ _ && bool_decide _ && negb _) eqn:Hok;
    injection Hrun as <- <- <-; (split; [done |]); simpl.
  - eexists. rewrite <- app_assoc. split; [done |].
    apply andb_true_iff in Hok as [Hok Huids].
    apply andb_true_iff in Hok as [Hupd Htot].
    apply is_count_true in Hupd. apply bool_decide_eq_true in Htot.
    apply negb_true_iff in Huids.
    pose proof (proj1 (any_uid_in_false _ _) Huids) as Hfresh.
    by exists st, uids.
  - eexists. rewrite <- !app_assoc. split; [done |].
    eexists [_; _]. split; [done |]. by repeat constructor.
Qed.

(** The frame shared by the three waits: read [now], poll, then return or
    raise. *)
Lemma wait_runs (succeeded : list Call -> Prop) (d : D.t)
    (body : M (D.t * Env W) control) (fail_msg : string) (timeout_ready : Z)
    (fuel : nat) (e : Env W) (o : outcome unit) (d' : D.t) (e' : Env W) :
  turn_ok succeeded d body ->
  (now <- lift clock ;;
   exit <- while_ fuel (D.before_deadline (timeout_ns_of timeout_ready) now) body ;;
   match exit with
   | Returned => ret tt
   | _ => D.raise_fail fail_msg exit
   end) (d, e) = (o, (d', e')) ->
  d' = d
  /\ exists new,
       calls e' = calls e ++ new
       /\ wait_result fail_msg timeout_ready succeeded o new.
Proof.
  intros Hbody Hrun. unfold bind at 1 in Hrun. unfold lift, clock in Hrun.
  simpl in Hrun. destruct (time_ns (world e)) as [now w]. simpl in Hrun.
  unfold bind at 1 in Hrun.
  destruct (while_ fuel _ body _) as [oexit [d1 e1]] eqn:Hloop.
  destruct (while_polls _ _ _ _ _ Hbody _ _ _ _ _ Hloop)
    as (-> & new & Hcalls & Hexit).
  simpl in Hcalls.
  destruct oexit as [[|ex|]| |]; try done; simpl in Hrun;
    injection Hrun as <- <- <-; (split; [done |]);
    exists (time_ns_call now :: new);
    (split; [by rewrite Hcalls, <- app_assoc |]); simpl.
  - destruct Hexit as (pre & obs & -> & Hpre & Hobs). by exists now, pre, obs.
  - right. exists ex. split; [| done]. by apply api_failed_cons.
  - left. destruct Hexit as (t & mid & tnow & Ht & -> & Hmid & Hle).
    split; [| done]. by exists t, now, mid, tnow.
  - destruct Hexit as [Hq Hnew]. split; [auto |]. by exists now, new.
Qed.

(** Entering a wait: [self] is read and the frame runs on it. *)
Ltac enter_wait Hrun :=
  unfold bind at 1 in Hrun; unfold self at 1 in Hrun;
  cbv beta iota zeta in Hrun; cbn [fst] in Hrun.

Lemma wait_start_success_runs fuel d e o d' e' :
  D.wait_start_success fuel (d, e) = (o, (d', e')) ->
  d' = d
  /\ exists new,
       calls e' = calls e ++ new
       /\ wait_result (D.fail_msg "start" d)
            (Namespace.timeout_ready (D.common_args d))
            (ready_observed d (D.num_replicas d)) o new.
Proof.
  intros Hrun. unfold D.wait_start_success in Hrun. enter_wait Hrun.
  eapply wait_runs in Hrun; [done | apply wait_start_turn_ok].
Qed.

Lemma wait_restart_success_runs fuel previous_uids d e o d' e' :
  D.wait_restart_success fuel previous_uids (d, e) = (o, (d', e')) ->
  d' = d
  /\ exists new,
       calls e' = calls e ++ new
       /\ wait_result (D.fail_msg "restart" d)
            (Namespace.timeout_ready (D.common_args d))
            (restart_observed d (default [] previous_uids)) o new.
Proof.
  intros Hrun. unfold D.wait_restart_success in Hrun. enter_wait Hrun.
  eapply wait_runs in Hrun; [done | apply wait_restart_turn_ok].
Qed.

Lemma wait_scale_success_runs fuel replicas d e o d' e' :
  D.wait_scale_success fuel replicas (d, e) = (o, (d', e')) ->
  d' = d
  /\ exists new,
       calls e' = calls e ++ new
       /\ wait_result (D.fail_msg "restart" d)
            (Namespace.timeout_ready (D.common_args d))
            (ready_observed d replicas) o new.
Proof.
  intros Hrun. unfold D.wait_scale_success in Hrun. enter_wait Hrun.
  eapply wait_runs in Hrun; [done | apply wait_scale_turn_ok].
Qed.

(** The loop, turn by turn. *)
Lemma while_turns (succeeded pending : list Call -> Prop)
    (failed : ApiException -> list Call -> Prop) (d : D.t)
    (body : M (D.t * Env W) control) (timeout_ns : option Z) (now : Z) :
  turn_shows succeeded pending failed d body ->
  forall fuel e o d' e',
    while_ fuel (D.before_deadline timeout_ns now) body (d, e) = (o, (d', e')) ->
    exists before last,
      calls e' = calls e ++ before ++ last
      /\ turns timeout_ns now pending before
      /\ match o with
         | Ret Returned =>
             exists check obs,
               last = check ++ obs /\ in_time timeout_ns now check
               /\ succeeded obs
         | Ret (Broken ex) =>
             exists check obs,
               last = check ++ obs /\ in_time timeout_ns now check
               /\ failed ex obs
         | Ret Expired =>
             exists t tnow,
               timeout_ns = Some t /\ last = [time_ns_call tnow]
               /\ t <= tnow - now
         | OutOfFuel => last = []
         | Raise _ => False
         end.
Proof.
  intros Hbody. induction fuel as [|fuel IH]; intros e o d' e' Hrun.
  - simpl in Hrun. injection Hrun as <- <- <-.
    exists [], []. rewrite app_nil_r. split_and!; [done | constructor | done].
  - simpl in Hrun. unfold bind at 1 in Hrun.
    (* the loop condition *)
    assert (exists go_on e1 check,
               D.before_deadline timeout_ns now (d, e) = (Ret go_on, (d, e1))
               /\ calls e1 = calls e ++ check
               /\ (go_on = true -> in_time timeout_ns now check)
               /\ (go_on = false ->
                   exists t tnow, timeout_ns = Some t
                                  /\ check = [time_ns_call tnow]
                                  /\ t <= tnow - now))
      as (go_on & e1 & check & Hcond & Hcalls1 & Hgo & Hstop).
    { unfold D.before_deadline. destruct timeout_ns as [t|].
      - run. destruct (time_ns (world e)) as [tnow w] eqn:Hclock.
        eexists _, _, [time_ns_call tnow]. split; [reflexivity |].
        split; [done |]. split.
        + intros Hlt. apply Z.ltb_lt in Hlt. by exists tnow.
        + intros Hlt. apply Z.ltb_ge in Hlt. eauto.
      - exists true, e, []. run. rewrite app_nil_r. by auto. }
    rewrite Hcond in Hrun. destruct go_on.
    + specialize (Hgo eq_refl). unfold bind at 1 in Hrun.
      destruct (body (d, e1)) as [ob [d1 e2]] eqn:Hturn.
      destruct (Hbody _ _ _ _ Hturn) as (-> & obs & Hob).
      destruct ob as [[|ex|]| |]; try done.
      * destruct Hob as [Hcalls2 Hobs]. injection Hrun as <- <- <-.
        exists [], (check ++ obs).
        split; [simpl; by rewrite Hcalls2, Hcalls1, <- app_assoc |].
        split; [constructor |]. by exists check, obs.
      * destruct Hob as [Hcalls2 Hobs]. injection Hrun as <- <- <-.
        exists [], (check ++ obs).
        split; [simpl; by rewrite Hcalls2, Hcalls1, <- app_assoc |].
        split; [constructor |]. by exists check, obs.
      * destruct Hob as [Hcalls2 Hobs].
        destruct (IH _ _ _ _ Hrun) as (before & last & Hcalls3 & Hturns & Ho).
        exists (check ++ obs ++ sleep_call :: before), last.
        split; [| split; [by constructor | done]].
        rewrite Hcalls3, Hcalls2, Hcalls1, <- !app_assoc. done.
    + run. injection Hrun as <- <- <-.
      destruct (Hstop eq_refl) as (t & tnow & -> & -> & Ht).
      exists [], [time_ns_call tnow]. split; [done |].
      split; [constructor |]. by exists t, tnow.
Qed.

Lemma wait_scale_turn_shows (d : D.t) (n : Z) :
  turn_shows (W := W) (ready_observed d n) (ready_pending d n) (read_failed d)
    d (D.wait_scale_turn n).
Proof.
  intros e o d' e' Hrun.
  unfold D.wait_scale_turn, D._read_namespaced_deployment in Hrun. run.
  destruct (read_namespaced_deployment _ _ (world e)) as [[ex|st] w].
  - injection Hrun as <- <- <-. split; [done |]. by eexists.
  - destruct (is_count _ n) eqn:Hn; injection Hrun as <- <- <-;
      (split; [done |]); simpl.
    + eexists. split; [done |]. apply is_count_true in Hn. by exists st.
    + eexists [_]. rewrite <- app_assoc. split; [reflexivity |]. exists st.
      split; [done |]. intros Hst. apply is_count_true in Hst. congruence.
Qed.

Lemma wait_start_turn_shows (d : D.t) :
  turn_shows (W := W) (ready_observed d (D.num_replicas d))
    (ready_pending d (D.num_replicas d)) (read_failed d) d D.wait_start_turn.
Proof.
  intros e o d' e' Hrun.
  apply (wait_scale_turn_shows d (D.num_replicas d) e). exact Hrun.
Qed.

Lemma wait_restart_turn_shows (d : D.t) (previous_uids : list string) :
  turn_shows (W := W) (restart_observed d previous_uids)
    (restart_pending d previous_uids) (restart_failed d) d
    (D.wait_restart_turn previous_uids).
Proof.
  intros e o d' e' Hrun.
  unfold D.wait_restart_turn, D._read_namespaced_deployment,
    D._has_pod_with_uid, D.get_pod_uids in Hrun.
  run.
  destruct (read_namespaced_deployment _ _ (world e)) as [[ex|st] w].
  { injection Hrun as <- <- <-. split; [done |]. simpl.
    eexists. split; [done |]. by left. }
  simpl in Hrun.
  destruct (list_namespaced_pod _ _ w) as [[ex|uids] w'].
  { injection Hrun as <- <- <-. split; [done |]. simpl.
    eexists. rewrite <- app_assoc. split; [done |]. right. by exists st. }
  simpl in Hrun.
  destruct (is_count _ _ && bool_decide _ && negb _) eqn:Hok;
    injection Hrun as <- <- <-; (split; [done |]); simpl.
  - eexists. rewrite <- app_assoc. split; [done |].
    apply andb_true_iff in Hok as [Hok Huids].
    apply andb_true_iff in Hok as [Hupd Htot].
    apply is_count_true in Hupd. apply bool_decide_eq_true in Htot.
    apply negb_true_iff in Huids.
    pose proof (proj1 (any_uid_in_false _ _) Huids) as Hfresh.
    by exists st, uids.
  - eexists [_; _]. rewrite <- !app_assoc. split; [reflexivity |].
    exists st, uids.
    split; [done |]. intros (Hupd & Htot & Hfresh).
    apply is_count_true in Hupd. apply (bool_decide_eq_true_2 _) in Htot.
    apply any_uid_in_false in Hfresh.
    rewrite Hupd, Htot, Hfresh in Hok. done.
Qed.

(** The frame shared by the three waits, turn by turn. *)
Lemma wait_traces (succeeded pending : list Call -> Prop)
    (failed : ApiException -> list Call -> Prop) (d : D.t)
    (body : M (D.t * Env W) control) (fail_msg : string) (timeout_ready : Z)
    (fuel : nat) (e : Env W) (o : outcome unit) (d' : D.t) (e' : Env W) :
  turn_shows succeeded pending failed d body ->
  (now <- lift clock ;;
   exit <- while_ fuel (D.before_deadline (timeout_ns_of timeout_ready) now) body ;;
   match exit with
   | Returned => ret tt
   | _ => D.raise_fail fail_msg exit
   end) (d, e) = (o, (d', e')) ->
  exists new,
    calls e' = calls e ++ new
    /\ wait_trace fail_msg timeout_ready succeeded pending failed o new.
Proof.
  intros Hbody Hrun. unfold bind at 1 in Hrun. unfold lift, clock in Hrun.
  simpl in Hrun. destruct (time_ns (world e)) as [now w]. simpl in Hrun.
  unfold bind at 1 in Hrun.
  destruct (while_ fuel _ body _) as [oexit [d1 e1]] eqn:Hloop.
  destruct (while_turns _ _ _ _ _ _ _ Hbody _ _ _ _ _ Hloop)
    as (before & last & Hcalls & Hturns & Hexit).
  simpl in Hcalls.
  destruct oexit as [[|ex|]| |]; try done; simpl in Hrun;
    injection Hrun as <- <- <-;
    exists (time_ns_call now :: before ++ last);
    (split; [by rewrite Hcalls, <- app_assoc |]);
    exists now, before, last; (split; [done |]); (split; [done |]).
  - done.
  - right. destruct Hexit as (check & obs & -> & Hcheck & Hobs).
    by exists check, obs, ex.
  - left. destruct Hexit as (t & tnow & Ht & -> & Hle). by exists t, tnow.
  - done.
Qed.

Lemma wait_start_success_trace fuel d e o d' e' :
  D.wait_start_success fuel (d, e) = (o, (d', e')) ->
  exists new,
    calls e' = calls e ++ new
    /\ wait_trace (D.fail_msg "start" d)
         (Namespace.timeout_ready (D.common_args d))
         (ready_observed d (D.num_replicas d))
         (ready_pending d (D.num_replicas d)) (read_failed d) o new.
Proof.
  intros Hrun. unfold D.wait_start_success in Hrun. enter_wait Hrun.
  eapply wait_traces in Hrun; [done | apply wait_start_turn_shows].
Qed.

Lemma wait_restart_success_trace fuel previous_uids d e o d' e' :
  D.wait_restart_success fuel previous_uids (d, e) = (o, (d', e')) ->
  exists new,
    calls e' = calls e ++ new
    /\ wait_trace (D.fail_msg "restart" d)
         (Namespace.timeout_ready (D.common_args d))
         (restart_observed d (default [] previous_uids))
         (restart_pending d (default [] previous_uids)) (restart_failed d)
         o new.
Proof.
  intros Hrun. unfold D.wait_restart_success in Hrun. enter_wait Hrun.
  eapply wait_traces in Hrun; [done | apply wait_restart_turn_shows].
Qed.

Lemma wait_scale_success_trace fuel replicas d e o d' e' :
  D.wait_scale_success fuel replicas (d, e) = (o, (d', e')) ->
  exists new,
    calls e' = calls e ++ new
    /\ wait_trace (D.fail_msg "restart" d)
         (Namespace.timeout_ready (D.common_args d))
         (ready_observed d replicas) (ready_pending d replicas)
         (read_failed d) o new.
Proof.
  intros Hrun. unfold D.wait_scale_success in Hrun. enter_wait Hrun.
  eapply wait_traces in Hrun; [done | apply wait_scale_turn_shows].
Qed.

End WaitFacts.

(** ** The waits of a handle *)

Section WaitClaims.
Context {W : Type} `{Platform W} `{Externals}.

Lemma ready_observed_answered d n : ends_answered (ready_observed d n).
Proof. intros obs (st & -> & _). by eexists [], _. Qed.

Lemma restart_observed_answered d uids : ends_answered (restart_observed d uids).
Proof. intros obs (st & current & -> & _). by eexists [_], _. Qed.

Lemma wait_result_fails_exactly fail_msg timeout_ready succeeded o new :
  ends_answered succeeded ->
  wait_result fail_msg timeout_ready succeeded o new ->
  fails_exactly_when fail_msg timeout_ready o new.
Proof.
  intros Hans Hres.
  assert (forall ex, deadline_elapsed timeout_ready new -> api_failed ex new -> False)
    as Hexcl.
  { intros ex Hd Ha. apply deadline_elapsed_last in Hd as (t & Hd & _).
    apply api_failed_last in Ha as (c & Hc & Hex). by simplify_eq. }
  destruct o as [[]|e|]; simpl in Hres.
  - destruct Hres as (now & pre & obs & -> & Hpre & Hobs).
    destruct (Hans _ Hobs) as (obs' & c & -> & Hc & Htime).
    assert (last (time_ns_call now :: pre ++ obs' ++ [c]) = Some c) as Hlast.
    { by rewrite app_assoc, app_comm_cons, last_snoc. }
    assert (~ deadline_elapsed timeout_ready (time_ns_call now :: pre ++ obs' ++ [c]))
      as Hnd.
    { intros Hd. apply deadline_elapsed_last in Hd as (t & Hd & _).
      rewrite Hlast in Hd. injection Hd as ->. by apply (Htime t). }
    assert (forall ex, ~ api_failed ex (time_ns_call now :: pre ++ obs' ++ [c]))
      as Hna.
    { intros ex Ha. apply api_failed_last in Ha as (c' & Hc' & Hex).
      rewrite Hlast in Hc'. by simplify_eq. }
    split_and!.
    + split; [by intros [? ?] | intros [? | [ex ?]]; [done | by destruct (Hna ex)]].
    + done.
    + intros ex ?. by destruct (Hna ex).
  - split_and!.
    + split; [| by eauto]. intros _.
      destruct Hres as [[? _] | (ex & ? & _)]; eauto.
    + intros Hd. destruct Hres as [[_ ->] | (ex & Ha & _)]; [done |].
      by destruct (Hexcl ex).
    + intros ex Ha. destruct Hres as [[Hd _] | (ex' & Ha' & ->)].
      * by destruct (Hexcl ex).
      * apply api_failed_last in Ha as (c & Hc & Hex).
        apply api_failed_last in Ha' as (c' & Hc' & Hex'). by simplify_eq.
  - destruct Hres as (Hq & now & rest & -> & Hrest).
    assert (~ deadline_elapsed timeout_ready (time_ns_call now :: rest)) as Hnd.
    { intros Hd. apply deadline_elapsed_last in Hd as (t & Hd & Hlen).
      destruct Hrest as [-> | (pre & ->)].
      - simpl in Hlen. lia.
      - rewrite app_comm_cons, last_snoc in Hd. done. }
    split_and!.
    + split; [by intros [? ?] |].
      intros [? | [ex Ha]]; [done | by destruct (api_failed_not_quiet _ _ Ha)].
    + done.
    + intros ex Ha. by destruct (api_failed_not_quiet _ _ Ha).
Qed.

(** [C1] [wait_restart_success] returns only after an observation in which
    the updated count is not [None] and equals the desired count, the total
    count equals the desired count, and no live pod UID is in the snapshot;
    and a turn that sees a snapshot UID still live, whatever the counts (so
    also desired = updated = total = 3), sleeps and goes round again. *)
Theorem wait_restart_success_only_when_restarted
    (fuel : nat) (previous_uids : list string) (d : D.t) (e : Env W) :
  (forall d' e',
     D.wait_restart_success fuel (Some previous_uids) (d, e) = (Ret tt, (d', e')) ->
     exists now pre st uids,
       calls e' = calls e ++ time_ns_call now :: pre ++
         [read_namespaced_deployment_call (D.dns_name d) (D.k8s_namespace d)
            (inr st);
          list_namespaced_pod_call (D.k8s_namespace d)
            ("app=" +:+ D.dns_name d) (inr uids)]
       /\ V1DeploymentStatus.updated_replicas st = Some (D.num_replicas d)
       /\ V1DeploymentStatus.replicas st = Some (D.num_replicas d)
       /\ forall uid, uid ∈ previous_uids -> uid ∉ uids)
  /\ (forall st w uids w' uid,
        read_namespaced_deployment (D.dns_name d) (D.k8s_namespace d) (world e)
        = (inr st, w) ->
        list_namespaced_pod (D.k8s_namespace d) ("app=" +:+ D.dns_name d) w
        = (inr uids, w') ->
        uid ∈ previous_uids -> uid ∈ uids ->
        D.wait_restart_turn previous_uids (d, e)
        = (Ret Continue,
           (d, {| world := sleep w';
                  calls := calls e ++
                    [read_namespaced_deployment_call (D.dns_name d)
                       (D.k8s_namespace d) (inr st);
                     list_namespaced_pod_call (D.k8s_namespace d)
                       ("app=" +:+ D.dns_name d) (inr uids);
                     sleep_call] |}))).
Proof.
  split.
  - intros d' e' Hrun.
    apply wait_restart_success_runs in Hrun as (_ & new & Hcalls & Hres).
    simpl in Hres.
    destruct Hres as (now & pre & obs & -> & _ & st & uids & -> & Hupd & Htot & Hno).
    by exists now, pre, st, uids.
  - intros st w uids w' uid Hread Hlist Hprev Hlive.
    unfold D.wait_restart_turn, D._read_namespaced_deployment,
      D._has_pod_with_uid, D.get_pod_uids.
    unfold bind, ret, raise, lift, self, set_self, sleep_1s, api_call,
      try_except_ApiException. cbn -[String.append].
    rewrite Hread. cbn -[String.append]. rewrite Hlist. cbn -[String.append].
    assert (D.any_uid_in uids previous_uids = true) as ->.
    { apply not_false_iff_true. intros Hno.
      by apply (proj1 (any_uid_in_false _ _) Hno uid). }
    rewrite andb_false_r. cbn -[String.append]. by rewrite <- !app_assoc.
Qed.

(** [C8], as the code has it: each of the three waits raises exactly when
    its deadline elapses or an API call raises, and its calls are, turn by
    turn: the reading of [now]; then turns that each began with a reading of
    the clock before the deadline (no reading when there is no deadline), saw
    the awaited condition not hold, and slept; and then, when the wait raises,
    either one reading of the clock that is not before the deadline, which
    ends the loop at once, or a check in time and the API call that raised,
    which is the last call of the wait. On a timeout the failure is
    [RuntimeFailToStart] with a message made of the handle's name and the
    configured timeout only; on an API error the message ends with the [repr]
    of the error. When the wait returns, its last calls are a check in time
    and the observation that met the condition. *)
Theorem waits_fail_exactly_on_deadline_or_api_error
    (fuel : nat) (previous_uids : option (list string)) (replicas : Z)
    (d : D.t) (e : Env W) :
  (exists new,
     calls (D.wait_start_success fuel (d, e)).2.2 = calls e ++ new
     /\ fails_exactly_when (D.fail_msg "start" d)
          (Namespace.timeout_ready (D.common_args d))
          (D.wait_start_success fuel (d, e)).1 new
     /\ wait_trace (D.fail_msg "start" d)
          (Namespace.timeout_ready (D.common_args d))
          (ready_observed d (D.num_replicas d))
          (ready_pending d (D.num_replicas d)) (read_failed d)
          (D.wait_start_success fuel (d, e)).1 new)
  /\ (exists new,
        calls (D.wait_restart_success fuel previous_uids (d, e)).2.2
        = calls e ++ new
        /\ fails_exactly_when (D.fail_msg "restart" d)
             (Namespace.timeout_ready (D.common_args d))
             (D.wait_restart_success fuel previous_uids (d, e)).1 new
        /\ wait_trace (D.fail_msg "restart" d)
             (Namespace.timeout_ready (D.common_args d))
             (restart_observed d (default [] previous_uids))
             (restart_pending d (default [] previous_uids)) (restart_failed d)
             (D.wait_restart_success fuel previous_uids (d, e)).1 new)
  /\ (exists new,
        calls (D.wait_scale_success fuel replicas (d, e)).2.2 = calls e ++ new
        /\ fails_exactly_when (D.fail_msg "restart" d)
             (Namespace.timeout_ready (D.common_args d))
             (D.wait_scale_success fuel replicas (d, e)).1 new
        /\ wait_trace (D.fail_msg "restart" d)
             (Namespace.timeout_ready (D.common_args d))
             (ready_observed d replicas) (ready_pending d replicas)
             (read_failed d)
             (D.wait_scale_success fuel replicas (d, e)).1 new).
Proof.
  split_and!.
  - destruct (D.wait_start_success fuel (d, e)) as [o [d' e']] eqn:Hrun.
    pose proof (wait_start_success_trace _ _ _ _ _ _ Hrun)
      as (new' & Hcalls' & Htrace).
    apply wait_start_success_runs in Hrun as (_ & new & Hcalls & Hres).
    rewrite Hcalls in Hcalls'. apply app_inv_head in Hcalls' as <-.
    exists new. split; [done |]. split; [| done].
    eapply wait_result_fails_exactly; [apply ready_observed_answered | done].
  - destruct (D.wait_restart_success fuel previous_uids (d, e))
      as [o [d' e']] eqn:Hrun.
    pose proof (wait_restart_success_trace _ _ _ _ _ _ _ Hrun)
      as (new' & Hcalls' & Htrace).
    apply wait_restart_success_runs in Hrun as (_ & new & Hcalls & Hres).
    rewrite Hcalls in Hcalls'. apply app_inv_head in Hcalls' as <-.
    exists new. split; [done |]. split; [| done].
    eapply wait_result_fails_exactly; [apply restart_observed_answered | done].
  - destruct (D.wait_scale_success fuel replicas (d, e)) as [o [d' e']] eqn:Hrun.
    pose proof (wait_scale_success_trace _ _ _ _ _ _ _ Hrun)
      as (new' & Hcalls' & Htrace).
    apply wait_scale_success_runs in Hrun as (_ & new & Hcalls & Hres).
    rewrite Hcalls in Hcalls'. apply app_inv_head in Hcalls' as <-.
    exists new. split; [done |]. split; [| done].
    eapply wait_result_fails_exactly; [apply ready_observed_answered | done].
Qed.

End WaitClaims.

(** ** Loops of the controller over its worker handles *)

Section WorkerLoops.
Context {W : Type} `{Platform W} `{Externals}.

Lemma set_k8s_deployments_id (p : K8sPod.t) :
  K8sPod.set_k8s_deployments (K8sPod.k8s_deployments p) p = p.
Proof. by destruct p. Qed.

Lemma acts_on {A} (m : M (D.t * Env W) A) :
  acts_on_worker (fun r => K8sPod.on r m) m.
Proof. intros i p e d Hd. unfold K8sPod.on. by rewrite Hd. Qed.

Lemma acts_ret {A} (a : A) : acts_on_worker (W := W) (fun _ => ret a) (ret a).
Proof.
  intros i p e d Hd. unfold ret.
  by rewrite list_insert_id, set_k8s_deployments_id.
Qed.

Lemma acts_raise {A} (ex : exn) :
  acts_on_worker (W := W) (A := A) (fun _ => raise ex) (raise ex).
Proof.
  intros i p e d Hd. unfold raise.
  by rewrite list_insert_id, set_k8s_deployments_id.
Qed.

Lemma acts_bind {A B} (pod_m : K8sPod.handle_ref -> M (K8sPod.t * Env W) A)
    (m : M (D.t * Env W) A)
    (pod_k : A -> K8sPod.handle_ref -> M (K8sPod.t * Env W) B)
    (k : A -> M (D.t * Env W) B) :
  acts_on_worker pod_m m ->
  (forall a, acts_on_worker (pod_k a) (k a)) ->
  acts_on_worker (fun r => bind (pod_m r) (fun a => pod_k a r)) (bind m k).
Proof.
  intros Hm Hk i p e d Hd. unfold bind. rewrite (Hm i p e d Hd).
  destruct (m (d, e)) as [[a|ex|] [d1 e1]]; [| done | done].
  rewrite (Hk a i _ e1 d1).
  - simpl. destruct (k a (d1, e1)) as [o [d2 e2]].
    by rewrite list_insert_insert_eq.
  - simpl. apply list_lookup_insert_eq. by eapply lookup_lt_Some.
Qed.

Lemma insert_middle {A} (pre ds : list A) (d d1 : A) :
  <[length pre := d1]> (pre ++ d :: ds) = pre ++ d1 :: ds.
Proof.
  rewrite insert_app_r_alt by lia. by rewrite Nat.sub_diag.
Qed.

(** A [for] loop over the worker references is a fold over the worker
    handles. *)
Lemma for_fold_workers {B}
    (pod_body : K8sPod.handle_ref -> B -> M (K8sPod.t * Env W) B)
    (body : B -> M (D.t * Env W) B) :
  (forall b, acts_on_worker (fun r => pod_body r b) (body b)) ->
  forall ds pre b p e o p' e',
    K8sPod.k8s_deployments p = pre ++ ds ->
    for_fold (map K8sPod.worker_ref (seq (length pre) (length ds))) b pod_body
      (p, e) = (o, (p', e')) ->
    exists ds',
      p' = K8sPod.set_k8s_deployments (pre ++ ds') p
      /\ folds_over body ds b e o ds' e'.
Proof.
  intros Hbody. induction ds as [|d ds IH]; intros pre b p e o p' e' Hds Hrun.
  - simpl in Hrun. injection Hrun as <- <- <-. exists [].
    split; [| constructor]. by rewrite <- Hds, set_k8s_deployments_id.
  - simpl in Hrun. unfold bind at 1 in Hrun.
    assert (K8sPod.k8s_deployments p !! length pre = Some d) as Hd.
    { rewrite Hds. by apply list_lookup_middle. }
    rewrite (Hbody b _ p e d Hd) in Hrun.
    destruct (body b (d, e)) as [[b1|ex|] [d1 e1]] eqn:Hstep.
    + assert (<[length pre := d1]> (K8sPod.k8s_deployments p)
              = (pre ++ [d1]) ++ ds) as Hins.
      { by rewrite Hds, <- app_assoc, insert_middle. }
      rewrite Hins in Hrun.
      replace (S (length pre)) with (length (pre ++ [d1])) in Hrun
        by (rewrite length_app; simpl; lia).
      apply IH in Hrun as (ds' & -> & Hfold); [| done].
      exists (d1 :: ds'). split; [by rewrite <- app_assoc |].
      by eapply folds_step.
    + injection Hrun as <- <- <-. exists (d1 :: ds).
      split; [| by constructor].
      by rewrite Hds, insert_middle.
    + injection Hrun as <- <- <-. exists (d1 :: ds).
      split; [| by constructor].
      by rewrite Hds, insert_middle.
Qed.

Lemma for_each_workers (pod_body : K8sPod.handle_ref -> M (K8sPod.t * Env W) unit)
    (body : M (D.t * Env W) unit) (p0 p : K8sPod.t) e o p' e' :
  acts_on_worker pod_body body ->
  length (K8sPod.k8s_deployments p0) = length (K8sPod.k8s_deployments p) ->
  for_each (K8sPod.deployment_refs p0) pod_body (p, e) = (o, (p', e')) ->
  exists ds',
    p' = K8sPod.set_k8s_deployments ds' p
    /\ folds_over (fun _ => body) (K8sPod.k8s_deployments p) tt e o ds' e'.
Proof.
  intros Hbody Hlen Hrun. unfold for_each, K8sPod.deployment_refs in Hrun.
  rewrite Hlen in Hrun.
  by apply (for_fold_workers (fun r _ => pod_body r) (fun _ => body)
              (fun _ => Hbody) _ [] tt p e o p' e' eq_refl) in Hrun.
Qed.

Lemma folds_over_length {B} (body : B -> M (D.t * Env W) B) ds b e o ds' e' :
  folds_over body ds b e o ds' e' -> length ds' = length ds.
Proof. induction 1; simpl; auto. Qed.

End WorkerLoops.

(** ** The calls a wait makes *)

Section WaitCalls.
Context {W : Type} `{Platform W} `{Externals}.

Ltac run :=
  unfold bind, ret, raise, lift, self, set_self, clock, sleep_1s, api_call,
    try_except_ApiException in *; cbn -[String.append] in *.

Lemma while_calls (Q : Call -> Prop) (d : D.t) (body : M (D.t * Env W) control)
    (timeout_ns : option Z) (now : Z) :
  (forall t, Q (time_ns_call t)) ->
  turn_calls Q d body ->
  forall fuel e o d' e',
    while_ fuel (D.before_deadline timeout_ns now) body (d, e) = (o, (d', e')) ->
    exists new, calls e' = calls e ++ new /\ Forall Q new.
Proof.
  intros Htime Hbody. induction fuel as [|fuel IH]; intros e o d' e' Hrun.
  - simpl in Hrun. injection Hrun as <- <- <-. exists []. by rewrite app_nil_r.
  - simpl in Hrun. unfold bind at 1 in Hrun.
    assert (exists go_on e1 pre1,
               D.before_deadline timeout_ns now (d, e) = (Ret go_on, (d, e1))
               /\ calls e1 = calls e ++ pre1 /\ Forall Q pre1)
      as (go_on & e1 & pre1 & Hcond & Hcalls1 & Hq1).
    { unfold D.before_deadline. destruct timeout_ns as [t|].
      - run. destruct (time_ns (world e)) as [tnow w].
        eexists _, _, [time_ns_call tnow]. split; [reflexivity |]. auto.
      - exists true, e, []. run. by rewrite app_nil_r. }
    rewrite Hcond in Hrun. destruct go_on.
    + unfold bind at 1 in Hrun.
      destruct (body (d, e1)) as [ob [d1 e2]] eqn:Hturn.
      destruct (Hbody _ _ _ _ Hturn) as (-> & new2 & Hcalls2 & Hq2).
      assert (calls e2 = calls e ++ pre1 ++ new2 /\ Forall Q (pre1 ++ new2))
        as [Hcalls Hq].
      { rewrite Hcalls2, Hcalls1, <- app_assoc. split; [done |].
        by apply Forall_app. }
      destruct ob as [[|ex|]| |];
        try (injection Hrun as <- <- <-; by eexists).
      destruct (IH _ _ _ _ Hrun) as (new3 & Hcalls3 & Hq3).
      exists ((pre1 ++ new2) ++ new3).
      rewrite Hcalls3, Hcalls, <- !app_assoc. split; [done |].
      rewrite app_assoc. by apply Forall_app.
    + run. injection Hrun as <- <- <-. by eexists.
Qed.

Lemma wait_scale_turn_calls (d : D.t) (n : Z) :
  turn_calls (poll_call_of d) d (D.wait_scale_turn n).
Proof.
  intros e o d' e' Hrun.
  unfold D.wait_scale_turn, D._read_namespaced_deployment in Hrun. run.
  destruct (read_namespaced_deployment _ _ (world e)) as [[ex|st] w].
  - injection Hrun as <- <- <-. split; [done |].
    eexists. split; [done |]. by repeat constructor.
  - destruct (is_count _ n); injection Hrun as <- <- <-; (split; [done |]).
    + eexists. split; [done |]. by repeat constructor.
    + eexists. rewrite <- app_assoc. split; [done |]. by repeat constructor.
Qed.

Lemma wait_start_turn_calls (d : D.t) :
  turn_calls (poll_call_of d) d D.wait_start_turn.
Proof.
  intros e o d' e' Hrun.
  exact (wait_scale_turn_calls d (D.num_replicas d) e o d' e' Hrun).
Qed.

Lemma wait_restart_turn_calls (d : D.t) (previous_uids : list string) :
  turn_calls (poll_call_of d) d (D.wait_restart_turn previous_uids).
Proof.
  intros e o d' e' Hrun.
  unfold D.wait_restart_turn, D._read_namespaced_deployment,
    D._has_pod_with_uid, D.get_pod_uids in Hrun.
  run.
  destruct (read_namespaced_deployment _ _ (world e)) as [[ex|st] w].
  { injection Hrun as <- <- <-. split; [done |].
    eexists. split; [done |]. by repeat constructor. }
  cbn -[String.append] in Hrun.
  destruct (list_namespaced_pod _ _ w) as [[ex|uids] w'].
  { injection Hrun as <- <- <-. split; [done |].
    eexists. rewrite <- app_assoc. split; [done |]. by repeat constructor. }
  cbn -[String.append] in Hrun.
  destruct (is_count _ _ && bool_decide _ && negb _);
    injection Hrun as <- <- <-; (split; [done |]).
  - eexists. rewrite <- app_assoc. split; [done |]. by repeat constructor.
  - eexists. rewrite <- !app_assoc. split; [done |]. by repeat constructor.
Qed.

(** The frame of a wait only adds the reading of [now] and the calls of its
    turns. *)
Lemma wait_calls (d : D.t) (body : M (D.t * Env W) control) (fail_msg : string)
    (timeout_ns : option Z) (fuel : nat) (e : Env W) (o : outcome unit)
    (d' : D.t) (e' : Env W) :
  turn_calls (poll_call_of d) d body ->
  (now <- lift clock ;;
   exit <- while_ fuel (D.before_deadline timeout_ns now) body ;;
   match exit with
   | Returned => ret tt
   | _ => D.raise_fail fail_msg exit
   end) (d, e) = (o, (d', e')) ->
  exists new, calls e' = calls e ++ new /\ Forall (poll_call_of d) new.
Proof.
  intros Hbody Hrun. unfold bind at 1 in Hrun. unfold lift, clock in Hrun.
  simpl in Hrun. destruct (time_ns (world e)) as [now w]. simpl in Hrun.
  unfold bind at 1 in Hrun.
  destruct (while_ fuel _ body _) as [oexit [d1 e1]] eqn:Hloop.
  eapply (while_calls (poll_call_of d)) in Hloop as (new & Hcalls & Hq);
    [| done | done].
  simpl in Hcalls.
  assert (calls e1 = calls e ++ time_ns_call now :: new /\
          Forall (poll_call_of d) (time_ns_call now :: new)) as [Hc Hall].
  { rewrite Hcalls, <- app_assoc. split; [done |]. by constructor. }
  destruct oexit as [[|ex|]| |]; simpl in Hrun;
    injection Hrun as <- <- <-; by eexists.
Qed.

Ltac enter_wait Hrun :=
  unfold bind at 1 in Hrun; unfold self at 1 in Hrun;
  cbv beta iota zeta in Hrun; cbn [fst] in Hrun.

Lemma wait_start_success_calls fuel d e o d' e' :
  D.wait_start_success fuel (d, e) = (o, (d', e')) ->
  exists new, calls e' = calls e ++ new /\ Forall (poll_call_of d) new.
Proof.
  intros Hrun. unfold D.wait_start_success in Hrun. enter_wait Hrun.
  eapply wait_calls in Hrun; [done | apply wait_start_turn_calls].
Qed.

Lemma wait_restart_success_calls fuel previous_uids d e o d' e' :
  D.wait_restart_success fuel previous_uids (d, e) = (o, (d', e')) ->
  exists new, calls e' = calls e ++ new /\ Forall (poll_call_of d) new.
Proof.
  intros Hrun. unfold D.wait_restart_success in Hrun. enter_wait Hrun.
  eapply wait_calls in Hrun; [done | apply wait_restart_turn_calls].
Qed.

Lemma wait_scale_success_calls fuel replicas d e o d' e' :
  D.wait_scale_success fuel replicas (d, e) = (o, (d', e')) ->
  exists new, calls e' = calls e ++ new /\ Forall (poll_call_of d) new.
Proof.
  intros Hrun. unfold D.wait_scale_success in Hrun. enter_wait Hrun.
  eapply wait_calls in Hrun; [done | apply wait_scale_turn_calls].
Qed.

End WaitCalls.

(** ** Scaling *)

Section Scale.
Context {W : Type} `{Platform W} `{Externals}.

Lemma folds_over_functional {B} (body : B -> M (D.t * Env W) B) ds b e
    o1 ds1 e1 o2 ds2 e2 :
  folds_over body ds b e o1 ds1 e1 ->
  folds_over body ds b e o2 ds2 e2 ->
  o1 = o2 /\ ds1 = ds2 /\ e1 = e2.
Proof.
  intros H1. revert o2 ds2 e2.
  induction H1 as [b e | d ds b e ex d' e' Hb | d ds b e d' e' Hb
                   | d ds b e b1 d' e1 o ds' e' Hb Hrest IH];
    intros o2 ds2 e2 H2.
  - by inversion H2.
  - inversion H2 as [| ? ? ? ? ? ? ? Hb2 | ? ? ? ? ? ? Hb2
                     | ? ? ? ? ? ? ? ? ? ? Hb2 Hrest2]; subst;
      rewrite Hb in Hb2; by simplify_eq.
  - inversion H2 as [| ? ? ? ? ? ? ? Hb2 | ? ? ? ? ? ? Hb2
                     | ? ? ? ? ? ? ? ? ? ? Hb2 Hrest2]; subst;
      rewrite Hb in Hb2; by simplify_eq.
  - inversion H2 as [| ? ? ? ? ? ? ? Hb2 | ? ? ? ? ? ? Hb2
                     | ? ? ? ? ? ? ? ? ? ? Hb2 Hrest2]; subst;
      rewrite Hb in Hb2; simplify_eq.
    by destruct (IH _ _ _ Hrest2) as (-> & -> & ->).
Qed.

(** The first loop of [scale]: one patch per worker, in order, stopping at
    a patch that raises. *)
Lemma scale_fan_out replicas ds e o ds' e' :
  folds_over (fun _ : unit => D.scale replicas) ds tt e o ds' e' ->
  ds' = ds
  /\ exists patches,
       calls e' = calls e ++ patches
       /\ Forall2 (patch_call_of replicas) (take (length patches) ds) patches
       /\ (length patches <= length ds)%nat
       /\ (o = Ret tt -> length patches = length ds).
Proof.
  assert (forall d e o d' e',
             D.scale replicas (d, e) = (o, (d', e')) ->
             d' = d /\ exists c, calls e' = calls e ++ [c]
                                 /\ patch_call_of replicas d c) as Hstep.
  { intros d0 e0 o0 d0' e0' Hrun.
    unfold D.scale, D._patch_namespaced_deployment_scale, bind, self, lift,
      api_call in Hrun. simpl in Hrun.
    destruct (patch_namespaced_deployment_scale _ _ _ (world e0)) as [resp w].
    destruct resp; injection Hrun as <- <- <-; (split; [done |]);
      eexists; (split; [done |]); by eexists. }
  induction 1 as [b e | d ds b e ex d' e' Hb | d ds b e d' e' Hb
                  | d ds b e b1 d' e1 o ds' e' Hb Hrest IH];
    repeat match goal with u : unit |- _ => destruct u end.
  - split; [done |]. exists []. rewrite app_nil_r. split_and!; auto.
  - apply Hstep in Hb as (-> & c & Hc & Hpatch). split; [done |].
    exists [c]. simpl. split_and!; [done | by repeat constructor | lia | done].
  - apply Hstep in Hb as (-> & c & Hc & Hpatch). split; [done |].
    exists [c]. simpl. split_and!; [done | by repeat constructor | lia | done].
  - apply Hstep in Hb as (-> & c & Hc & Hpatch).
    destruct IH as (-> & patches & Hcalls & Hall & Hlen & Hret).
    split; [done |]. exists (c :: patches). simpl.
    split_and!.
    + by rewrite Hcalls, Hc, <- app_assoc.
    + by constructor.
    + lia.
    + intros Ho. by rewrite Hret.
Qed.

(** The second loop of [scale]: the waits run in order; a worker's count is
    set when, and only when, its own wait has returned. *)
Lemma scale_wait_all fuel replicas ds e o ds' e' :
  folds_over
    (fun _ : unit =>
       D.wait_scale_success fuel replicas ;;;
       set_self (D.set_num_replicas replicas)) ds tt e o ds' e' ->
  exists waits k,
    calls e' = calls e ++ waits
    /\ Forall (worker_poll ds) waits
    /\ (k <= length ds)%nat
    /\ ds' = (D.set_num_replicas replicas <$> take k ds) ++ drop k ds
    /\ (o = Ret tt -> k = length ds)
    /\ (forall i d,
          ds !! i = Some d -> (i < k)%nat ->
          exists ea eb pre post,
            D.wait_scale_success fuel replicas (d, ea) = (Ret tt, (d, eb))
            /\ calls ea = calls e ++ pre
            /\ calls e' = calls eb ++ post)
    /\ (o <> Ret tt ->
        exists d ea pre,
          ds !! k = Some d
          /\ D.wait_scale_success fuel replicas (d, ea) = (o, (d, e'))
          /\ calls ea = calls e ++ pre).
Proof.
  assert (forall d e o d' e',
             (D.wait_scale_success fuel replicas ;;;
              set_self (D.set_num_replicas replicas)) (d, e) = (o, (d', e')) ->
             (exists new, calls e' = calls e ++ new
                          /\ Forall (poll_call_of d) new)
             /\ match o with
                | Ret _ =>
                    d' = D.set_num_replicas replicas d
                    /\ D.wait_scale_success fuel replicas (d, e)
                       = (Ret tt, (d, e'))
                | _ =>
                    d' = d
                    /\ D.wait_scale_success fuel replicas (d, e) = (o, (d, e'))
                end) as Hstep.
  { intros d0 e0 o0 d0' e0' Hrun. unfold bind in Hrun.
    destruct (D.wait_scale_success fuel replicas (d0, e0))
      as [ow [dw ew]] eqn:Hwait.
    pose proof (wait_scale_success_calls _ _ _ _ _ _ _ Hwait) as Hcalls.
    apply wait_scale_success_runs in Hwait as Hsame. destruct Hsame as [-> _].
    destruct ow as [[]|ex|]; injection Hrun as <- <- <-; by split. }
  assert (forall (ds : list D.t) d cs,
             Forall (poll_call_of d) cs -> d ∈ ds -> Forall (worker_poll ds) cs)
    as Hpoll.
  { intros ds0 d0 cs Hcs Hin. eapply Forall_impl; [exact Hcs |].
    intros c Hc. by exists d0. }
  assert (forall (d : D.t) ds cs,
             Forall (worker_poll ds) cs -> Forall (worker_poll (d :: ds)) cs)
    as Hweaken.
  { intros d0 ds0 cs Hcs. eapply Forall_impl; [exact Hcs |].
    intros c (d1 & Hin & Hc). exists d1. split; [by right | done]. }
  induction 1 as [b e | d ds b e ex d' e' Hb | d ds b e d' e' Hb
                  | d ds b e b1 d' e1 o ds' e' Hb Hrest IH];
    repeat match goal with u : unit |- _ => destruct u end.
  - exists [], 0%nat. rewrite app_nil_r. split_and!; auto; try done.
  - apply Hstep in Hb as ((new & Hc & Hnew) & -> & Hwait).
    exists new, 0%nat. simpl.
    split_and!; [done | | lia | done | done | intros; lia |].
    + apply (Hpoll _ d); [done | by left].
    + intros _. exists d, e, []. by rewrite app_nil_r.
  - apply Hstep in Hb as ((new & Hc & Hnew) & -> & Hwait).
    exists new, 0%nat. simpl.
    split_and!; [done | | lia | done | done | intros; lia |].
    + apply (Hpoll _ d); [done | by left].
    + intros _. exists d, e, []. by rewrite app_nil_r.
  - apply Hstep in Hb as ((new & Hc & Hnew) & -> & Hwait).
    destruct (IH Hstep)
      as (waits & k & Hcalls & Hall & Hk & -> & Hret & Hset & Hstop).
    exists (new ++ waits), (S k). simpl. split_and!.
    + by rewrite Hcalls, Hc, <- app_assoc.
    + apply Forall_app. split; [| by apply Hweaken].
      apply (Hpoll _ d); [done | by left].
    + lia.
    + done.
    + intros Ho. by rewrite Hret.
    + intros [|i] d0 Hd0 Hi; simpl in Hd0.
      * injection Hd0 as <-. exists e, e1, [], waits.
        rewrite app_nil_r. by split_and!.
      * destruct (Hset i d0 Hd0 ltac:(lia)) as (ea & eb & pre & post & ? & Hea & ?).
        exists ea, eb, (new ++ pre), post.
        split_and!; [done | | done]. by rewrite Hea, Hc, <- app_assoc.
    + intros Ho. destruct (Hstop Ho) as (d0 & ea & pre & ? & ? & Hea).
      exists d0, ea, (new ++ pre).
      split_and!; [done | done |]. by rewrite Hea, Hc, <- app_assoc.
Qed.

(** What [set_num_replicas] records. *)
Lemma set_num_replicas_records replicas d :
  records_replicas replicas d (D.set_num_replicas replicas d).
Proof. by repeat split. Qed.

(** [scale] is its two loops, one after the other. *)
Lemma scale_runs fuel replicas p e o p' e' :
  K8sPod.scale fuel replicas (p, e) = (o, (p', e')) ->
  exists ds' o1 e1,
    p' = K8sPod.set_k8s_deployments ds' p
    /\ folds_over (fun _ : unit => D.scale replicas)
         (K8sPod.k8s_deployments p) tt e o1 (K8sPod.k8s_deployments p) e1
    /\ match o1 with
       | Ret _ =>
           folds_over
             (fun _ : unit =>
                D.wait_scale_success fuel replicas ;;;
                set_self (D.set_num_replicas replicas))
             (K8sPod.k8s_deployments p) tt e1 o ds' e'
       | _ => o = o1 /\ ds' = K8sPod.k8s_deployments p /\ e' = e1
       end.
Proof.
  intros Hrun. unfold K8sPod.scale in Hrun.
  unfold bind at 1 in Hrun. unfold self at 1 in Hrun.
  cbv beta iota zeta in Hrun. cbn [fst] in Hrun.
  unfold bind at 1 in Hrun.
  destruct (for_each (K8sPod.deployment_refs p)
              (fun r => K8sPod.on r (D.scale replicas)) (p, e))
    as [o1 [p1 e1]] eqn:Hfan.
  apply (for_each_workers _ (D.scale replicas)) in Hfan
    as (ds1 & -> & Hfan); [| apply acts_on | done].
  pose proof (scale_fan_out _ _ _ _ _ _ Hfan) as [-> _].
  rewrite set_k8s_deployments_id in Hrun.
  destruct o1 as [[]|ex|].
  - apply (for_each_workers _
             (D.wait_scale_success fuel replicas ;;;
              set_self (D.set_num_replicas replicas))) in Hrun
      as (ds' & -> & Hwaits); [| | done].
    + by exists ds', (Ret tt), e1.
    + apply acts_bind; [apply acts_on | intros _; apply acts_on].
  - injection Hrun as <- <- <-.
    exists (K8sPod.k8s_deployments p), (Raise ex), e1.
    by rewrite set_k8s_deployments_id.
  - injection Hrun as <- <- <-.
    exists (K8sPod.k8s_deployments p), OutOfFuel, e1.
    by rewrite set_k8s_deployments_id.
Qed.

(** [C7] Pod-level [scale] patches the scale of every worker, in order,
    before any wait begins; the waits only poll worker handles; the recorded
    count of a worker is the target, with nothing else of the handle changed,
    exactly for the workers whose own wait has returned, all of them when
    [scale] returns; the handle whose wait did not return, and those after it,
    are as they were; and the head handle is neither changed nor looked at:
    with another head the run is the same. *)
Theorem pod_scale_fans_out_then_waits fuel replicas p e o p' e' :
  K8sPod.scale fuel replicas (p, e) = (o, (p', e')) ->
  K8sPod.k8s_head_deployment p' = K8sPod.k8s_head_deployment p
  /\ (forall head,
        K8sPod.scale fuel replicas (K8sPod.set_k8s_head_deployment head p, e)
        = (o, (K8sPod.set_k8s_head_deployment head p', e')))
  /\ exists patches waits k,
       calls e' = calls e ++ patches ++ waits
       /\ Forall2 (patch_call_of replicas)
            (take (length patches) (K8sPod.k8s_deployments p)) patches
       /\ Forall (worker_poll (K8sPod.k8s_deployments p)) waits
       /\ (waits ≠ [] -> length patches = length (K8sPod.k8s_deployments p))
       /\ K8sPod.k8s_deployments p'
          = (D.set_num_replicas replicas <$> take k (K8sPod.k8s_deployments p))
            ++ drop k (K8sPod.k8s_deployments p)
       /\ (o = Ret tt -> k = length (K8sPod.k8s_deployments p))
       /\ (forall i d,
             K8sPod.k8s_deployments p !! i = Some d -> (i < k)%nat ->
             exists ea eb pre post,
               D.wait_scale_success fuel replicas (d, ea) = (Ret tt, (d, eb))
               /\ calls ea = calls e ++ patches ++ pre
               /\ calls e' = calls eb ++ post)
       /\ (k <= length (K8sPod.k8s_deployments p))%nat
       /\ (forall i d d',
             K8sPod.k8s_deployments p !! i = Some d ->
             K8sPod.k8s_deployments p' !! i = Some d' ->
             if decide (i < k)%nat then records_replicas replicas d d'
             else d' = d)
       /\ (o <> Ret tt ->
           waits <> [] ->
           exists d ea pre,
             K8sPod.k8s_deployments p !! k = Some d
             /\ D.wait_scale_success fuel replicas (d, ea) = (o, (d, e'))
             /\ calls ea = calls e ++ patches ++ pre).
Proof.
  assert (forall (ds : list D.t) k i d d',
             (k <= length ds)%nat ->
             ds !! i = Some d ->
             ((D.set_num_replicas replicas <$> take k ds) ++ drop k ds) !! i
             = Some d' ->
             if decide (i < k)%nat then records_replicas replicas d d'
             else d' = d) as Hrecords.
  { intros ds k i d d' Hk Hd Hd'. destruct (decide (i < k)%nat) as [Hi|Hi].
    - rewrite lookup_app_l in Hd'
        by (rewrite length_fmap, length_take; lia).
      rewrite list_lookup_fmap, lookup_take_lt, Hd in Hd' by done.
      injection Hd' as <-. apply set_num_replicas_records.
    - rewrite lookup_app_r in Hd'
        by (rewrite length_fmap, length_take; lia).
      rewrite length_fmap, length_take, lookup_drop in Hd'.
      replace (k + (i - k `min` length ds))%nat with i in Hd' by lia.
      congruence. }
  intros Hrun.
  pose proof (scale_runs _ _ _ _ _ _ _ Hrun) as (ds' & o1 & e1 & -> & Hfan & Hrest).
  split; [done |]. split.
  { intros head.
    destruct (K8sPod.scale fuel replicas
                (K8sPod.set_k8s_head_deployment head p, e))
      as [o2 [p2 e2]] eqn:Hrun2.
    apply scale_runs in Hrun2 as (ds2 & o3 & e3 & -> & Hfan2 & Hrest2).
    simpl in Hfan2, Hrest2.
    destruct (folds_over_functional _ _ _ _ _ _ _ _ _ _ Hfan Hfan2)
      as (<- & _ & <-).
    destruct o1 as [[]|ex|].
    - by destruct (folds_over_functional _ _ _ _ _ _ _ _ _ _ Hrest Hrest2)
        as (<- & <- & <-).
    - destruct Hrest as (-> & -> & ->), Hrest2 as (-> & -> & ->). done.
    - destruct Hrest as (-> & -> & ->), Hrest2 as (-> & -> & ->). done. }
  apply scale_fan_out in Hfan as (_ & patches & Hcalls1 & Hall & Hlen & Hret).
  destruct o1 as [[]|ex|].
  - apply scale_wait_all in Hrest
      as (waits & k & Hcalls2 & Hpolls & Hk & -> & Hall_set & Hset & Hstop).
    exists patches, waits, k. simpl.
    split_and!; try done.
    + by rewrite Hcalls2, Hcalls1, <- app_assoc.
    + intros _. by apply Hret.
    + intros i d Hd Hi.
      destruct (Hset i d Hd Hi) as (ea & eb & pre & post & ? & Hea & ?).
      exists ea, eb, pre, post. split_and!; [done | | done].
      by rewrite Hea, Hcalls1, <- app_assoc.
    + intros i d d' Hd Hd'. exact (Hrecords _ k i d d' Hk Hd Hd').
    + intros Ho _. destruct (Hstop Ho) as (d & ea & pre & ? & ? & Hea).
      exists d, ea, pre. split_and!; [done | done |].
      by rewrite Hea, Hcalls1, <- app_assoc.
  - destruct Hrest as (-> & -> & ->). exists patches, [], 0%nat. simpl.
    rewrite app_nil_r.
    split_and!;
      first [ done | lia | by (intros; lia)
            | by (intros i d d' Hd Hd'; simpl in *; congruence) ].
  - destruct Hrest as (-> & -> & ->). exists patches, [], 0%nat. simpl.
    rewrite app_nil_r.
    split_and!;
      first [ done | lia | by (intros; lia)
            | by (intros i d d' Hd Hd'; simpl in *; congruence) ].
Qed.

End Scale.

(** ** Rolling update *)

Section RollingUpdate.
Context {W : Type} `{Platform W} `{Externals}.

Lemma snapshot_and_replace_step dump_path uses_with acc d e o d' e' :
  snapshot_and_replace dump_path uses_with acc (d, e) = (o, (d', e')) ->
  same_deployment d d'
  /\ exists new,
       calls e' = calls e ++ new
       /\ replace_phase new
       /\ match o with
          | Ret acc' =>
              exists uids,
                acc' = <[D.dns_name d := uids]> acc
                /\ replaced_after_snapshot d uids new
          | Raise _ => True
          | OutOfFuel => False
          end.
Proof.
  intros Hrun.
  unfold snapshot_and_replace, D.get_pod_uids, D.rolling_update,
    D._restart_runtime, D._deploy_runtime in Hrun.
  unfold bind, ret, raise, lift, self, set_self, api_call in Hrun.
  cbn -[String.append] in Hrun.
  destruct (list_namespaced_pod _ _ (world e)) as [[ex|uids] w].
  { injection Hrun as <- <- <-. split; [done |].
    eexists. split; [done |]. split; [constructor | done]. }
  cbn -[String.append] in Hrun.
  destruct (String.eqb (D.name d) "gateway").
  { injection Hrun as <- <- <-. split; [done |].
    eexists. split; [done |]. split; [constructor | done]. }
  cbn -[String.append] in Hrun.
  destruct (deploy_service _ w) as [[ex|address] w'];
    cbn -[String.append] in Hrun; injection Hrun as <- <- <-;
    (split; [done |]); eexists; rewrite <- app_assoc;
    (split; [done |]);
    (split;
     [ refine (replace_phase_next d uids [_; _] [] _ _);
       [by eexists _, _ | constructor] |]);
    [done |].
  exists uids. split; [done |]. by eexists _, _.
Qed.

Lemma snapshot_and_replace_all dump_path uses_with ds acc e o ds' e' :
  folds_over (snapshot_and_replace dump_path uses_with) ds acc e o ds' e' ->
  Forall2 same_deployment ds ds'
  /\ exists new,
       calls e' = calls e ++ new
       /\ replace_phase new
       /\ match o with
          | Ret old_uids =>
              exists uidss css,
                new = concat css
                /\ Forall3 replaced_after_snapshot ds uidss css
                /\ (forall key, key ∉ D.dns_name <$> ds ->
                                old_uids !! key = acc !! key)
                /\ (forall d, d ∈ ds -> is_Some (old_uids !! D.dns_name d))
                /\ (forall i d uids,
                      ds !! i = Some d -> uidss !! i = Some uids ->
                      (forall j d',
                         (i < j)%nat -> ds !! j = Some d' ->
                         D.dns_name d' <> D.dns_name d) ->
                      old_uids !! D.dns_name d = Some uids)
          | Raise _ => True
          | OutOfFuel => False
          end.
Proof.
  assert (forall l : list D.t, Forall2 same_deployment l l) as Hrefl.
  { induction l; by constructor. }
  induction 1 as [b e | d ds b e ex d' e' Hb | d ds b e d' e' Hb
                  | d ds b e b1 d' e1 o ds' e' Hb Hrest IH].
  - split; [constructor |]. exists []. rewrite app_nil_r.
    split; [done |]. split; [constructor |].
    exists [], []. split_and!; [done | constructor | done | |].
    + by intros d ?%elem_of_nil.
    + intros i d uids Hd. by rewrite lookup_nil in Hd.
  - apply snapshot_and_replace_step in Hb as (Hsame & new & Hc & Hnew & _).
    split; [by constructor |]. by exists new.
  - by apply snapshot_and_replace_step in Hb as (_ & new & _ & _ & []).
  - apply snapshot_and_replace_step in Hb
      as (Hsame & new & Hc & Hnew & uids & -> & Hshape).
    destruct IH as (Hsames & new' & Hc' & Hnew' & Ho).
    split; [by constructor |].
    exists (new ++ new'). split; [by rewrite Hc', Hc, <- app_assoc |].
    split; [by eapply replace_phase_next |].
    destruct o as [old_uids| |]; [| done | done].
    destruct Ho as (uidss & css & -> & Hall & Hkeep & Hkeys & Hfind).
    exists (uids :: uidss), (new :: css). split_and!.
    + done.
    + by constructor.
    + intros key Hkey. rewrite fmap_cons, not_elem_of_cons in Hkey.
      destruct Hkey as [Hne Hkey].
      rewrite Hkeep by done. by rewrite lookup_insert_ne.
    + intros d0 [-> | Hd0]%elem_of_cons; [| by apply Hkeys].
      destruct (decide (D.dns_name d ∈ D.dns_name <$> ds)) as [Hin|Hout].
      * apply list_elem_of_fmap in Hin as (d1 & -> & Hd1). by apply Hkeys.
      * rewrite Hkeep by done. rewrite lookup_insert_eq. by eexists.
    + intros [|i] d0 uids0 Hd0 Huids0 Hlast; simpl in *.
      * injection Hd0 as <-. injection Huids0 as <-.
        rewrite Hkeep; [by rewrite lookup_insert_eq |].
        intros Hin. apply list_elem_of_fmap in Hin as (d1 & Heq & Hd1).
        apply list_elem_of_lookup in Hd1 as [j Hj].
        by apply (Hlast (S j) d1 ltac:(lia) Hj).
      * apply (Hfind i d0 uids0 Hd0 Huids0). intros j d1 Hij Hj.
        apply (Hlast (S j) d1 ltac:(lia) Hj).
Qed.

(** One wait of the second loop: the wait of the handle, with the snapshot
    stored under its DNS name. *)
Lemma wait_restarted_step fuel (old_uids : gmap string (list string))
    d e o d' e' :
  wait_restarted fuel old_uids (d, e) = (o, (d', e')) ->
  is_Some (old_uids !! D.dns_name d) ->
  exists uids,
    old_uids !! D.dns_name d = Some uids
    /\ D.wait_restart_success fuel (Some uids) (d, e) = (o, (d, e'))
    /\ d' = d.
Proof.
  intros Hrun [uids Huids]. exists uids.
  unfold wait_restarted in Hrun. unfold bind at 1 2 in Hrun.
  unfold self, ret in Hrun. cbn [fst] in Hrun. rewrite Huids in Hrun.
  apply wait_restart_success_runs in Hrun as Hsame.
  destruct Hsame as (-> & _). done.
Qed.

Lemma wait_restarted_in_turn fuel (old_uids : gmap string (list string))
    ds e o ds' e' :
  folds_over (fun _ : unit => wait_restarted fuel old_uids) ds tt e o ds' e' ->
  (forall d, d ∈ ds -> is_Some (old_uids !! D.dns_name d)) ->
  waits_in_turn fuel old_uids ds e o e'.
Proof.
  intros Hfold Hkeys. revert Hkeys.
  induction Hfold as [b e | d ds b e ex d' e' Hb | d ds b e d' e' Hb
                      | d ds b e b1 d' e1 o ds' e' Hb Hrest IH];
    repeat match goal with u : unit |- _ => destruct u end; intros Hkeys.
  - constructor.
  - apply wait_restarted_step in Hb as (uids & Hu & Hwait & ->);
      [| apply Hkeys; by left].
    by eapply waits_in_turn_stop.
  - apply wait_restarted_step in Hb as (uids & Hu & Hwait & ->);
      [| apply Hkeys; by left].
    by eapply waits_in_turn_stop.
  - apply wait_restarted_step in Hb as (uids & Hu & Hwait & ->);
      [| apply Hkeys; by left].
    eapply waits_in_turn_next; [done | done |].
    apply IH. intros d0 Hd0. apply Hkeys. by right.
Qed.

(** The second loop of [rolling_update]: the waits run one after the other,
    each with the snapshot stored under its handle's name, and the first wait
    that does not return ends the loop. *)
Lemma wait_restarted_all fuel (old_uids : gmap string (list string))
    ds e o ds' e' :
  folds_over (fun _ : unit => wait_restarted fuel old_uids) ds tt e o ds' e' ->
  (forall d, d ∈ ds -> is_Some (old_uids !! D.dns_name d)) ->
  ds' = ds
  /\ exists waits k,
       calls e' = calls e ++ waits
       /\ Forall (worker_poll ds) waits
       /\ (k <= length ds)%nat
       /\ (o = Ret tt -> k = length ds)
       /\ (ds ≠ [] -> waits ≠ [])
       /\ (forall i d,
             ds !! i = Some d -> (i < k)%nat ->
             exists uids ea eb pre post,
               old_uids !! D.dns_name d = Some uids
               /\ D.wait_restart_success fuel (Some uids) (d, ea)
                  = (Ret tt, (d, eb))
               /\ calls ea = calls e ++ pre
               /\ calls e' = calls eb ++ post)
       /\ (o ≠ Ret tt ->
           exists d uids ea pre,
             ds !! k = Some d
             /\ old_uids !! D.dns_name d = Some uids
             /\ D.wait_restart_success fuel (Some uids) (d, ea) = (o, (d, e'))
             /\ calls ea = calls e ++ pre).
Proof.
  assert (forall d e o d' e',
             wait_restarted fuel old_uids (d, e) = (o, (d', e')) ->
             is_Some (old_uids !! D.dns_name d) ->
             exists uids,
               old_uids !! D.dns_name d = Some uids
               /\ D.wait_restart_success fuel (Some uids) (d, e) = (o, (d, e'))
               /\ d' = d
               /\ exists new, calls e' = calls e ++ new
                              /\ Forall (poll_call_of d) new /\ new ≠ []) as Hstep.
  { intros d0 e0 o0 d0' e0' Hrun [uids Huids]. exists uids.
    unfold wait_restarted in Hrun. unfold bind at 1 2 in Hrun.
    unfold self, ret in Hrun. cbn [fst] in Hrun. rewrite Huids in Hrun.
    pose proof (wait_restart_success_calls _ _ _ _ _ _ _ Hrun)
      as (new & Hcalls & Hnew).
    apply wait_restart_success_runs in Hrun as Hsame.
    destruct Hsame as (-> & new' & Hcalls' & Hres).
    split_and!; try done. exists new. split_and!; try done.
    rewrite Hcalls in Hcalls'. apply app_inv_head in Hcalls' as <-.
    destruct o0 as [[]|ex|]; simpl in Hres.
    - by destruct Hres as (now & pre & obs & -> & _).
    - destruct Hres as [[Hd _] | (ex' & Ha & _)].
      + by destruct Hd as (t & now & mid & tnow & _ & -> & _).
      + destruct Ha as (pre & c & -> & _). by destruct pre.
    - by destruct Hres as (_ & now & rest & -> & _). }
  intros Hfold Hkeys. revert Hkeys.
  induction Hfold as [b e | d ds b e ex d' e' Hb | d ds b e d' e' Hb
                      | d ds b e b1 d' e1 o ds' e' Hb Hrest IH];
    repeat match goal with u : unit |- _ => destruct u end; intros Hkeys.
  - split; [done |]. exists [], 0%nat. rewrite app_nil_r.
    split_and!; auto; try done.
  - destruct (Hstep _ _ _ _ _ Hb) as (uids & Hu & Hwait & -> & new & Hc & Hnew & Hne);
      [apply Hkeys; by left |].
    split; [done |]. exists new, 0%nat. simpl.
    split_and!; [done | | lia | done | done | intros; lia |].
    + eapply Forall_impl; [exact Hnew |]. intros c Hcall. exists d.
      split; [by left | done].
    + intros _. exists d, uids, e, []. rewrite app_nil_r. by split_and!.
  - destruct (Hstep _ _ _ _ _ Hb) as (uids & Hu & Hwait & -> & new & Hc & Hnew & Hne);
      [apply Hkeys; by left |].
    split; [done |]. exists new, 0%nat. simpl.
    split_and!; [done | | lia | done | done | intros; lia |].
    + eapply Forall_impl; [exact Hnew |]. intros c Hcall. exists d.
      split; [by left | done].
    + intros _. exists d, uids, e, []. rewrite app_nil_r. by split_and!.
  - destruct (Hstep _ _ _ _ _ Hb) as (uids & Hu & Hwait & -> & new & Hc & Hnew & Hne);
      [apply Hkeys; by left |].
    destruct IH as (-> & waits & k & Hcalls & Hall & Hk & Hret & _ & Hdone & Hstop).
    { intros d0 Hd0. apply Hkeys. by right. }
    split; [done |]. exists (new ++ waits), (S k). simpl. split_and!.
    + by rewrite Hcalls, Hc, <- app_assoc.
    + apply Forall_app. split.
      * eapply Forall_impl; [exact Hnew |]. intros c Hcall. exists d.
        split; [by left | done].
      * eapply Forall_impl; [exact Hall |]. intros c (d1 & Hin & Hcall).
        exists d1. split; [by right | done].
    + lia.
    + intros Ho. by rewrite Hret.
    + intros _ Hnil. by apply app_eq_nil in Hnil as [-> _].
    + intros [|i] d0 Hd0 Hi; simpl in Hd0.
      * injection Hd0 as <-. exists uids, e, e1, [], waits.
        rewrite app_nil_r. by split_and!.
      * destruct (Hdone i d0 Hd0 ltac:(lia))
          as (uids0 & ea & eb & pre & post & ? & ? & Hea & ?).
        exists uids0, ea, eb, (new ++ pre), post.
        split_and!; [done | done | | done]. by rewrite Hea, Hc, <- app_assoc.
    + intros Ho. destruct (Hstop Ho) as (d0 & uids0 & ea & pre & ? & ? & ? & Hea).
      exists d0, uids0, ea, (new ++ pre).
      split_and!; [done | done | done |]. by rewrite Hea, Hc, <- app_assoc.
Qed.

(** [rolling_update] is its two loops, one after the other. *)
Lemma rolling_update_runs fuel dump_path uses_with p e o p' e' :
  K8sPod.rolling_update fuel dump_path uses_with (p, e) = (o, (p', e')) ->
  exists o1 ds1 e1,
    folds_over (snapshot_and_replace dump_path uses_with)
      (K8sPod.k8s_deployments p) ∅ e o1 ds1 e1
    /\ match o1 with
       | Ret old_uids =>
           exists ds2,
             p' = K8sPod.set_k8s_deployments ds2 p
             /\ folds_over (fun _ : unit => wait_restarted fuel old_uids)
                  ds1 tt e1 o ds2 e'
       | Raise ex =>
           o = Raise ex /\ p' = K8sPod.set_k8s_deployments ds1 p /\ e' = e1
       | OutOfFuel =>
           o = OutOfFuel /\ p' = K8sPod.set_k8s_deployments ds1 p /\ e' = e1
       end.
Proof.
  intros Hrun. unfold K8sPod.rolling_update in Hrun.
  unfold bind at 1 in Hrun. unfold self at 1 in Hrun.
  cbv beta iota zeta in Hrun. cbn [fst] in Hrun.
  unfold bind at 1 in Hrun.
  match type of Hrun with
  | match ?loop with _ => _ end = _ =>
      destruct loop as [o1 [p1 e1]] eqn:Hfirst
  end.
  unfold K8sPod.deployment_refs in Hfirst.
  apply (for_fold_workers _ (snapshot_and_replace dump_path uses_with))
    with (pre := []) in Hfirst as (ds1 & -> & Hfirst); [| | done].
  2:{ intros b. unfold snapshot_and_replace.
      apply acts_bind; [apply acts_on | intros uids].
      apply acts_bind; [apply acts_on | intros key].
      apply acts_bind; [apply acts_on | intros _]. apply acts_ret. }
  exists o1, ds1, e1. split; [done |].
  destruct o1 as [old_uids|ex|]; [| by injection Hrun as <- <- <- ..].
  apply (for_each_workers _ (wait_restarted fuel old_uids)) in Hrun
    as (ds2 & -> & Hsecond).
  - by exists ds2.
  - unfold wait_restarted.
    apply acts_bind; [apply acts_on | intros key].
    destruct (old_uids !! key); [apply acts_on | apply acts_raise].
  - simpl. symmetry. by eapply folds_over_length.
Qed.

(** [C3], as the code has it: the first loop lists a worker's live pods and,
    right after, re-deploys that worker, for every worker in order, and stores
    the list under the worker's DNS name; when it raises, the rolling update
    ends there and no wait is made. Otherwise every worker was re-deployed
    before any wait begins, and the waits run one after the other in worker
    order, each with the list stored under its worker's DNS name, which is the
    one taken before its own replace when no later worker has the same DNS
    name; the first wait that does not return ends the rolling update with its
    outcome, and the waits of the workers after it are not started. *)
Theorem pod_rolling_update_replaces_then_waits_in_turn
    fuel dump_path uses_with p e o p' e' :
  K8sPod.rolling_update fuel dump_path uses_with (p, e) = (o, (p', e')) ->
  Forall2 same_deployment (K8sPod.k8s_deployments p) (K8sPod.k8s_deployments p')
  /\ exists o1 e1 replaces waits,
       folds_over (snapshot_and_replace dump_path uses_with)
         (K8sPod.k8s_deployments p) ∅ e o1 (K8sPod.k8s_deployments p') e1
       /\ calls e1 = calls e ++ replaces
       /\ replace_phase replaces
       /\ calls e' = calls e1 ++ waits
       /\ Forall (worker_poll (K8sPod.k8s_deployments p')) waits
       /\ match o1 with
          | Ret old_uids =>
              (exists uidss css,
                 replaces = concat css
                 /\ Forall3 replaced_after_snapshot (K8sPod.k8s_deployments p)
                      uidss css
                 /\ forall i d uids,
                      K8sPod.k8s_deployments p !! i = Some d ->
                      uidss !! i = Some uids ->
                      (forall j d',
                         (i < j)%nat ->
                         K8sPod.k8s_deployments p !! j = Some d' ->
                         D.dns_name d' <> D.dns_name d) ->
                      old_uids !! D.dns_name d = Some uids)
              /\ waits_in_turn fuel old_uids (K8sPod.k8s_deployments p') e1 o e'
              /\ (K8sPod.k8s_deployments p <> [] -> waits <> [])
          | Raise ex => o = Raise ex /\ waits = []
          | OutOfFuel => False
          end.
Proof.
  intros Hrun.
  apply rolling_update_runs in Hrun as (o1 & ds1 & e1 & Hfirst & Hrest).
  pose proof (snapshot_and_replace_all _ _ _ _ _ _ _ _ Hfirst)
    as (Hsame & replaces & Hcalls1 & Hphase & Ho1).
  destruct o1 as [old_uids|ex|]; [| | done].
  2:{ destruct Hrest as (-> & -> & ->). split; [done |].
      exists (Raise ex), e1, replaces, []. rewrite app_nil_r. by split_and!. }
  destruct Hrest as (ds2 & -> & Hsecond).
  destruct Ho1 as (uidss & css & -> & Hall & _ & Hkeys & Hfind).
  assert (forall d, d ∈ ds1 -> is_Some (old_uids !! D.dns_name d)) as Hkeys1.
  { intros d Hd. apply list_elem_of_lookup in Hd as [i Hd].
    destruct (Forall2_lookup_r _ _ _ _ _ Hsame Hd) as (d0 & Hd0 & Hdns & _).
    rewrite Hdns. apply Hkeys. by eapply list_elem_of_lookup_2. }
  pose proof (wait_restarted_in_turn _ _ _ _ _ _ _ Hsecond Hkeys1) as Hturn.
  apply wait_restarted_all in Hsecond
    as (-> & waits & k & Hcalls2 & Hpolls & _ & _ & Hsome & _); [| done].
  simpl. split; [done |]. exists (Ret old_uids), e1, (concat css), waits.
  split_and!; try done.
  - by exists uidss, css.
  - intros Hne. apply Hsome. intros ->.
    apply Forall2_nil_inv_r in Hsame. done.
Qed.

End RollingUpdate.

(** ** Start, wait and close *)

Section StartAndClose.
Context {W : Type} `{Platform W} `{Externals}.

Lemma all_registered_shape p p' :
  shape p' = shape p -> all_registered p' = all_registered p.
Proof.
  unfold shape, all_registered, K8sPod.deployment_refs. intros Hshape.
  injection Hshape as _ -> Hhead.
  destruct (K8sPod.k8s_head_deployment p), (K8sPod.k8s_head_deployment p');
    done.
Qed.

Lemma on_frame {A} r (m : M (D.t * Env W) A) p e o p' e' :
  K8sPod.on r m (p, e) = (o, (p', e')) ->
  K8sPod.exit_callbacks p' = K8sPod.exit_callbacks p /\ shape p' = shape p.
Proof.
  unfold K8sPod.on, shape. intros Hrun. destruct r as [|i].
  - destruct (K8sPod.k8s_head_deployment p) as [d|] eqn:Hhead.
    + destruct (m (d, e)) as [o1 [d1 e1]]. injection Hrun as <- <- <-.
      done.
    + injection Hrun as <- <- <-. by rewrite Hhead.
  - destruct (K8sPod.k8s_deployments p !! i) as [d|].
    + destruct (m (d, e)) as [o1 [d1 e1]]. injection Hrun as <- <- <-.
      simpl. by rewrite length_insert.
    + by injection Hrun as <- <- <-.
Qed.

Lemma enter_context_frame fuel r p e p' e' :
  K8sPod.enter_context fuel r (p, e) = (Ret tt, (p', e')) ->
  K8sPod.exit_callbacks p' = r :: K8sPod.exit_callbacks p
  /\ shape p' = shape p.
Proof.
  unfold K8sPod.enter_context. unfold bind at 1. intros Hrun.
  destruct (K8sPod.on r (D.__enter__ fuel) (p, e)) as [o1 [p1 e1]] eqn:Hon.
  apply on_frame in Hon as [Hstack Hshape].
  destruct o1 as [[]| |]; [| done | done].
  unfold set_self in Hrun. injection Hrun as <- <-. simpl.
  by rewrite Hstack.
Qed.

Lemma enter_all_frame fuel rs p e p' e' :
  for_each rs (K8sPod.enter_context fuel) (p, e) = (Ret tt, (p', e')) ->
  K8sPod.exit_callbacks p' = reverse rs ++ K8sPod.exit_callbacks p
  /\ shape p' = shape p.
Proof.
  unfold for_each. revert p e.
  induction rs as [|r rs IH]; intros p e Hrun; simpl in Hrun.
  - by injection Hrun as <- <-.
  - unfold bind at 1 in Hrun.
    destruct (K8sPod.enter_context fuel r (p, e)) as [o1 [p1 e1]] eqn:Henter.
    destruct o1 as [[]| |]; [| done | done].
    apply enter_context_frame in Henter as [Hstack Hshape].
    apply IH in Hrun as [-> ->].
    by rewrite Hstack, reverse_cons, <- app_assoc.
Qed.

(** After a [start] that returned, every handle is on the exit stack. *)
Lemma start_registers_all fuel p e p' e' :
  K8sPod.exit_callbacks p = [] ->
  K8sPod.start fuel (p, e) = (Ret tt, (p', e')) ->
  K8sPod.exit_callbacks p' = all_registered p' /\ shape p' = shape p.
Proof.
  intros Hfresh Hrun. unfold K8sPod.start in Hrun.
  unfold bind at 1 in Hrun. unfold self at 1 in Hrun.
  cbv beta iota zeta in Hrun. cbn [fst] in Hrun.
  unfold bind at 1 in Hrun.
  assert (exists o1 p1 e1,
             match K8sPod.k8s_head_deployment p with
             | Some _ => K8sPod.enter_context fuel K8sPod.head_ref
             | None => ret tt
             end (p, e) = (o1, (p1, e1))) as (o1 & p1 & e1 & Hhead).
  { destruct (_ (p, e)) as [o1 [p1 e1]]. by eexists _, _, _. }
  rewrite Hhead in Hrun. destruct o1 as [[]| |]; [| done | done].
  apply enter_all_frame in Hrun as [Hstack Hshape].
  assert (K8sPod.exit_callbacks p1
          = match K8sPod.k8s_head_deployment p with
            | Some _ => [K8sPod.head_ref]
            | None => []
            end /\ shape p1 = shape p) as [Hstack1 Hshape1].
  { destruct (K8sPod.k8s_head_deployment p).
    - apply enter_context_frame in Hhead as [-> ?]. by rewrite Hfresh.
    - by injection Hhead as <- <-. }
  split; [| congruence].
  rewrite Hstack, Hstack1.
  rewrite (all_registered_shape p p') by congruence.
  done.
Qed.

(** [close] on a handle makes one call, the deletion, and returns. *)
Lemma handle_close_deletes d (e : Env W) :
  exists c e',
    D.__exit__ (d, e) = (Ret tt, (d, e'))
    /\ calls e' = calls e ++ [c] /\ delete_call_of d c.
Proof.
  unfold D.__exit__, D.close, D._delete_namespaced_deployment.
  unfold try_except_ApiException, bind, ret, lift, self, api_call. simpl.
  destruct (delete_namespaced_deployment _ _ (world e)) as [[ex|resp] w];
    eexists _, _; (split; [done |]); simpl; (split; [done |]); by eexists.
Qed.

Lemma on_same r (m : M (D.t * Env W) unit) p e d o e' :
  lookup_handle p r = Some d ->
  m (d, e) = (o, (d, e')) ->
  K8sPod.on r m (p, e) = (o, (p, e')).
Proof.
  intros Hd Hm. unfold K8sPod.on. destruct r as [|i]; simpl in Hd.
  - rewrite Hd, Hm. do 2 f_equal. destruct p. simpl in *. by subst.
  - rewrite Hd, Hm. by rewrite list_insert_id, set_k8s_deployments_id.
Qed.

(** Unwinding the exit stack deletes the handle of every callback, newest
    first, and leaves the stack empty. *)
Lemma unwind_deletes callbacks p e :
  Forall (fun r => is_Some (lookup_handle p r)) callbacks ->
  exists e' deletes,
    K8sPod.unwind callbacks (p, e)
    = (Ret tt, (match callbacks with
                | [] => p
                | _ => K8sPod.set_exit_callbacks [] p
                end, e'))
    /\ calls e' = calls e ++ deletes
    /\ Forall2 (fun r c => exists d, lookup_handle p r = Some d
                                     /\ delete_call_of d c)
         callbacks deletes.
Proof.
  revert p e. induction callbacks as [|r rest IH]; intros p e Hvalid.
  - exists e, []. rewrite app_nil_r. by split_and!; [| | constructor].
  - apply Forall_cons in Hvalid as [[d Hd] Hvalid]. simpl.
    destruct (handle_close_deletes d e) as (c & e1 & Hclose & Hc & Hdel).
    destruct (IH (K8sPod.set_exit_callbacks rest p) e1)
      as (e' & deletes & Hunwind & Hcalls & Hall).
    { eapply Forall_impl; [exact Hvalid |]. intros r0 Hr0. by destruct r0. }
    exists e', (c :: deletes). split_and!.
    + unfold bind at 1. unfold set_self at 1. simpl. unfold bind at 1.
      rewrite (on_same r _ _ e d (Ret tt) e1); [| by destruct r | done].
      rewrite Hunwind. by destruct rest.
    + by rewrite Hcalls, Hc, <- app_assoc.
    + constructor; [by exists d |].
      eapply Forall2_impl; [exact Hall |]. intros r0 c0 (d0 & ? & ?).
      exists d0. split; [by destruct r0 | done].
Qed.

(** The exit stack of a started controller refers to its handles, newest
    first. *)
Lemma registered_handles p :
  Forall2 (fun r d => lookup_handle p r = Some d)
    (all_registered p) (reverse (handles p)).
Proof.
  unfold all_registered, handles, K8sPod.deployment_refs.
  rewrite reverse_app. apply Forall2_app.
  - apply Forall2_reverse.
    assert (forall l pre,
               K8sPod.k8s_deployments p = pre ++ l ->
               Forall2 (fun r d => lookup_handle p r = Some d)
                 (map K8sPod.worker_ref (seq (length pre) (length l))) l)
      as Hworkers.
    { induction l as [|d l IH]; intros pre Hds; simpl; constructor.
      - simpl. rewrite Hds. by apply list_lookup_middle.
      - replace (S (length pre)) with (length (pre ++ [d]))
          by (rewrite length_app; simpl; lia).
        apply IH. by rewrite Hds, <- app_assoc. }
    by apply (Hworkers _ []).
  - destruct (K8sPod.k8s_head_deployment p) eqn:Hhead; repeat constructor.
    done.
Qed.

(** The waits of the workers, in order, up to the first that does not
    return. *)
Lemma wait_all_workers fuel ds e o ds' e' :
  folds_over (fun _ : unit => D.wait_start_success fuel) ds tt e o ds' e' ->
  ds' = ds
  /\ exists waits,
       calls e' = calls e ++ waits
       /\ Forall (worker_poll ds) waits
       /\ forall ex,
            o = Raise ex ->
            exists d ea,
              d ∈ ds
              /\ D.wait_start_success fuel (d, ea) = (Raise ex, (d, e')).
Proof.
  assert (forall d e o d' e',
             D.wait_start_success fuel (d, e) = (o, (d', e')) ->
             d' = d /\ exists new, calls e' = calls e ++ new
                                   /\ Forall (worker_poll [d]) new) as Hstep.
  { intros d0 e0 o0 d0' e0' Hrun.
    pose proof (wait_start_success_calls _ _ _ _ _ _ Hrun) as (new & Hc & Hnew).
    apply wait_start_success_runs in Hrun as [-> _]. split; [done |].
    exists new. split; [done |]. eapply Forall_impl; [exact Hnew |].
    intros c Hc'. exists d0. split; [by left | done]. }
  assert (forall (d : D.t) ds cs,
             Forall (worker_poll [d]) cs -> Forall (worker_poll (d :: ds)) cs)
    as Hhere.
  { intros d0 ds0 cs Hcs. eapply Forall_impl; [exact Hcs |].
    intros c (d1 & Hin & Hc). exists d1. split; [| done].
    apply list_elem_of_singleton in Hin as ->. by left. }
  induction 1 as [b e | d ds b e ex d' e' Hb | d ds b e d' e' Hb
                  | d ds b e b1 d' e1 o ds' e' Hb Hrest IH];
    repeat match goal with u : unit |- _ => destruct u end.
  - split; [done |]. exists []. rewrite app_nil_r. by split_and!.
  - pose proof (Hstep _ _ _ _ _ Hb) as (-> & new & Hc & Hnew).
    split; [done |]. exists new. split_and!; [done | by apply Hhere |].
    intros ex' [= <-]. exists d, e. split; [by left | done].
  - pose proof (Hstep _ _ _ _ _ Hb) as (-> & new & Hc & Hnew).
    split; [done |]. exists new. by split_and!; [| apply Hhere |].
  - pose proof (Hstep _ _ _ _ _ Hb) as (-> & new & Hc & Hnew).
    destruct IH as (-> & waits & Hcalls & Hall & Hfail).
    split; [done |]. exists (new ++ waits). split_and!.
    + by rewrite Hcalls, Hc, <- app_assoc.
    + apply Forall_app. split; [by apply Hhere |].
      eapply Forall_impl; [exact Hall |]. intros c (d1 & Hin & Hc').
      exists d1. split; [by right | done].
    + intros ex Ho. destruct (Hfail ex Ho) as (d0 & ea & Hin & Hwait).
      exists d0, ea. split; [by right | done].
Qed.

(** The waits of [wait_start_success]: the head first, then the workers;
    they change nothing in the controller. *)
Lemma wait_all_handles fuel p e o p1 e1 :
  (match K8sPod.k8s_head_deployment p with
   | Some _ => K8sPod.on K8sPod.head_ref (D.wait_start_success fuel)
   | None => ret tt
   end ;;;
   for_each (K8sPod.deployment_refs p)
     (fun r => K8sPod.on r (D.wait_start_success fuel))) (p, e)
  = (o, (p1, e1)) ->
  p1 = p
  /\ exists waits,
       calls e1 = calls e ++ waits
       /\ Forall (handle_poll p) waits
       /\ forall ex,
            o = Raise ex ->
            exists d ea,
              d ∈ handles p
              /\ D.wait_start_success fuel (d, ea) = (Raise ex, (d, e1)).
Proof.
  intros Hrun. unfold bind at 1 in Hrun.
  assert (exists oh eh newh,
             match K8sPod.k8s_head_deployment p with
             | Some _ => K8sPod.on K8sPod.head_ref (D.wait_start_success fuel)
             | None => ret tt
             end (p, e) = (oh, (p, eh))
             /\ calls eh = calls e ++ newh
             /\ Forall (handle_poll p) newh
             /\ forall ex,
                  oh = Raise ex ->
                  exists d ea,
                    d ∈ handles p
                    /\ D.wait_start_success fuel (d, ea) = (Raise ex, (d, eh)))
    as (oh & eh & newh & Hhead & Hcallsh & Hpollh & Hfailh).
  { unfold handle_poll, handles.
    destruct (K8sPod.k8s_head_deployment p) as [d|] eqn:Hd.
    - destruct (D.wait_start_success fuel (d, e)) as [oh [dh eh]] eqn:Hwait.
      pose proof (wait_start_success_calls _ _ _ _ _ _ Hwait)
        as (new & Hc & Hnew).
      pose proof (wait_start_success_runs _ _ _ _ _ _ Hwait) as [-> _].
      exists oh, eh, new. split_and!; [| done | |].
      + by apply (on_same _ _ _ _ d).
      + eapply Forall_impl; [exact Hnew |]. intros c Hc'. exists d.
        split; [by left | done].
      + intros ex ->. exists d, e. split; [by left | done].
    - exists (Ret tt), e, []. rewrite app_nil_r. by split_and!. }
  rewrite Hhead in Hrun. destruct oh as [[]|ex|].
  - apply (for_each_workers _ (D.wait_start_success fuel)) in Hrun
      as (ds' & -> & Hfold); [| apply acts_on | done].
    apply wait_all_workers in Hfold as (-> & waits & Hcalls & Hpolls & Hfail).
    split; [apply set_k8s_deployments_id |].
    exists (newh ++ waits). split_and!.
    + by rewrite Hcalls, Hcallsh, <- app_assoc.
    + apply Forall_app. split; [done |].
      eapply Forall_impl; [exact Hpolls |]. intros c (d & Hin & Hc).
      exists d. split; [| done]. unfold handles. apply elem_of_app. by right.
    + intros ex Ho. destruct (Hfail ex Ho) as (d & ea & Hin & Hwait).
      exists d, ea. split; [| done]. unfold handles. apply elem_of_app.
      by right.
  - injection Hrun as <- <- <-. split; [done |]. by exists newh.
  - injection Hrun as <- <- <-. split; [done |]. exists newh.
    by split_and!.
Qed.

(** The try block of [wait_start_success] is the waits of the handles, the
    head first, one after the other up to the first that does not return; it
    changes nothing in the controller. *)
Lemma wait_all_handles_fold fuel p e o p1 e1 :
  (match K8sPod.k8s_head_deployment p with
   | Some _ => K8sPod.on K8sPod.head_ref (D.wait_start_success fuel)
   | None => ret tt
   end ;;;
   for_each (K8sPod.deployment_refs p)
     (fun r => K8sPod.on r (D.wait_start_success fuel))) (p, e)
  = (o, (p1, e1)) ->
  p1 = p
  /\ folds_over (fun _ : unit => D.wait_start_success fuel)
       (handles p) tt e o (handles p) e1.
Proof.
  intros Hrun. unfold bind at 1 in Hrun. unfold handles.
  assert (forall e0 o0 p0 e0',
             for_each (K8sPod.deployment_refs p)
               (fun r => K8sPod.on r (D.wait_start_success fuel)) (p, e0)
             = (o0, (p0, e0')) ->
             p0 = p
             /\ folds_over (fun _ : unit => D.wait_start_success fuel)
                  (K8sPod.k8s_deployments p) tt e0 o0
                  (K8sPod.k8s_deployments p) e0') as Hworkers.
  { intros e0 o0 p0 e0' Hloop.
    apply (for_each_workers _ (D.wait_start_success fuel)) in Hloop
      as (ds' & -> & Hfold); [| apply acts_on | done].
    pose proof (wait_all_workers _ _ _ _ _ _ Hfold) as [-> _].
    split; [apply set_k8s_deployments_id | done]. }
  destruct (K8sPod.k8s_head_deployment p) as [d|] eqn:Hd.
  - destruct (D.wait_start_success fuel (d, e)) as [oh [dh eh]] eqn:Hwait.
    pose proof (wait_start_success_runs _ _ _ _ _ _ Hwait) as [-> _].
    rewrite (on_same K8sPod.head_ref _ p e d oh eh Hd Hwait) in Hrun.
    destruct oh as [[]|ex|].
    + apply Hworkers in Hrun as [-> Hfold]. split; [done |].
      simpl. by eapply folds_step.
    + injection Hrun as <- <- <-. split; [done |]. simpl. by constructor.
    + injection Hrun as <- <- <-. split; [done |]. simpl. by constructor.
  - unfold ret in Hrun. by apply Hworkers in Hrun.
Qed.

(** [C2], as the code has it: after a [start] that has returned,
    [wait_start_success] (which asks for [noblock_on_start]) waits for the
    handles one after the other, the head first, up to the first wait that
    does not return, and ends as these waits end: it returns only when the
    wait of every handle has returned, and then deletes nothing; when the wait
    of a handle raises, it deletes the deployment of every handle, the workers
    newest first and then the head, empties the exit stack, and raises what
    that wait raised. *)
Theorem pod_wait_start_success_closes_on_failure
    fuel0 fuel p0 e0 p e o p' e' :
  K8sPod.exit_callbacks p0 = [] ->
  K8sPod.start fuel0 (p0, e0) = (Ret tt, (p, e)) ->
  Namespace.noblock_on_start (K8sPod.args p) = true ->
  K8sPod.wait_start_success fuel (p, e) = (o, (p', e')) ->
  exists e1 waits deletes,
    folds_over (fun _ : unit => D.wait_start_success fuel)
      (handles p) tt e o (handles p) e1
    /\ calls e1 = calls e ++ waits
    /\ Forall (handle_poll p) waits
    /\ calls e' = calls e1 ++ deletes
    /\ handles p' = handles p
    /\ match o with
       | Raise ex =>
           Forall2 delete_call_of (reverse (handles p)) deletes
           /\ K8sPod.exit_callbacks p' = []
           /\ exists d ea,
                d ∈ handles p
                /\ D.wait_start_success fuel (d, ea) = (Raise ex, (d, e1))
       | _ => deletes = [] /\ p' = p
       end.
Proof.
  intros Hfresh Hstart Hnoblock Hrun.
  apply start_registers_all in Hstart as [Hstack _]; [| done].
  unfold K8sPod.wait_start_success in Hrun.
  unfold bind at 1 in Hrun. unfold self at 1 in Hrun.
  cbv beta iota zeta in Hrun. cbn [fst] in Hrun.
  rewrite Hnoblock in Hrun. cbn [negb] in Hrun. cbv beta iota in Hrun.
  unfold try_except in Hrun.
  match type of Hrun with
  | match ?waits with _ => _ end = _ =>
      destruct waits as [o1 [p1 e1]] eqn:Hwaits
  end.
  pose proof (wait_all_handles_fold _ _ _ _ _ _ Hwaits) as [_ Hfold].
  apply wait_all_handles in Hwaits as (-> & waits & Hcalls & Hpolls & Hfail).
  destruct o1 as [[]|ex1|].
  - injection Hrun as <- <- <-. exists e1, waits, [].
    rewrite app_nil_r. by split_and!.
  - destruct (Hfail ex1 eq_refl) as (d & ea & Hin & Hwait).
    unfold K8sPod.close in Hrun. unfold bind at 1 2 in Hrun.
    unfold self at 1 in Hrun. cbn [fst] in Hrun. rewrite Hstack in Hrun.
    pose proof (registered_handles p) as Hrefs.
    destruct (unwind_deletes (all_registered p) p e1)
      as (e2 & deletes & Hunwind & Hcalls2 & Hdeletes).
    { eapply Forall2_Forall_l; [exact Hrefs |].
      apply Forall_forall. intros d0 _ r Hr. by eexists. }
    rewrite Hunwind in Hrun. unfold raise in Hrun. injection Hrun as <- <- <-.
    exists e1, waits, deletes. split_and!; try done.
    + by destruct (all_registered p).
    + apply Forall2_same_length_lookup. split.
      * rewrite <- (Forall2_length _ _ _ Hrefs). by eapply Forall2_length.
      * intros i d0 c Hd0 Hc.
        destruct (Forall2_lookup_r _ _ _ _ _ Hrefs Hd0) as (r & Hr & Hlook).
        destruct (Forall2_lookup_l _ _ _ _ _ Hdeletes Hr)
          as (c' & Hc' & d1 & ? & ?).
        by simplify_eq.
    + destruct (all_registered p) eqn:Hreg; [by rewrite Hstack | done].
    + by exists d, ea.
  - injection Hrun as <- <- <-. exists e1, waits, [].
    rewrite app_nil_r. by split_and!.
Qed.

(** [C10] [wait_start_success] of the controller, called while
    [noblock_on_start] is false, raises [ValueError] at once: no call is made,
    no handle is waited on, and the controller is unchanged. *)
Theorem pod_wait_start_success_requires_noblock fuel p (e : Env W) :
  Namespace.noblock_on_start (K8sPod.args p) = false ->
  exists msg,
    K8sPod.wait_start_success fuel (p, e) = (Raise (ValueError msg), (p, e)).
Proof.
  intros Hblock. unfold K8sPod.wait_start_success.
  unfold bind, self. cbn [fst]. rewrite Hblock. by eexists.
Qed.

End StartAndClose.

(** ** Waits with a finite deadline end *)

Section Termination.
Context {W : Type} `{Ticking W} `{Externals}.

Ltac run :=
  unfold bind, ret, raise, lift, self, set_self, clock, sleep_1s, api_call,
    try_except_ApiException in *; cbn -[String.append] in *.

Lemma wait_scale_turn_ticks (d : D.t) (n : Z) :
  turn_ticks d (D.wait_scale_turn n).
Proof.
  intros e o d' e' Hrun.
  unfold D.wait_scale_turn, D._read_namespaced_deployment in Hrun. run.
  pose proof (read_mono (D.dns_name d) (D.k8s_namespace d) (world e)) as Hread.
  destruct (read_namespaced_deployment _ _ (world e)) as [[ex|st] w].
  - by injection Hrun as <- <- <-.
  - destruct (is_count _ n); injection Hrun as <- <- <-; [done |].
    split; [done |]. pose proof (sleep_ticks w). simpl in *. lia.
Qed.

Lemma wait_start_turn_ticks (d : D.t) : turn_ticks d D.wait_start_turn.
Proof.
  intros e o d' e' Hrun.
  exact (wait_scale_turn_ticks d (D.num_replicas d) e o d' e' Hrun).
Qed.

Lemma wait_restart_turn_ticks (d : D.t) (previous_uids : list string) :
  turn_ticks d (D.wait_restart_turn previous_uids).
Proof.
  intros e o d' e' Hrun.
  unfold D.wait_restart_turn, D._read_namespaced_deployment,
    D._has_pod_with_uid, D.get_pod_uids in Hrun.
  run.
  pose proof (read_mono (D.dns_name d) (D.k8s_namespace d) (world e)) as Hread.
  destruct (read_namespaced_deployment _ _ (world e)) as [[ex|st] w].
  { by injection Hrun as <- <- <-. }
  cbn -[String.append] in Hrun.
  pose proof (list_mono (D.k8s_namespace d) ("app=" +:+ D.dns_name d) w) as Hlist.
  destruct (list_namespaced_pod _ _ w) as [[ex|uids] w'].
  { injection Hrun as <- <- <-. simpl in *. split_and!; [done | lia | done]. }
  cbn -[String.append] in Hrun.
  destruct (is_count _ _ && bool_decide _ && negb _);
    injection Hrun as <- <- <-; simpl in *.
  - split_and!; [done | lia | done].
  - pose proof (sleep_ticks w'). split_and!; [done | lia | lia].
Qed.

(** With [fuel] turns left and at most [fuel - 1] seconds to the deadline,
    the loop ends. *)
Lemma while_ends (d : D.t) (body : M (D.t * Env W) control) (t now : Z) :
  turn_ticks d body ->
  forall fuel e,
    (1 <= fuel)%nat ->
    t - (clock_of (world e) - now) <= (Z.of_nat fuel - 1) * 1000000000 ->
    (while_ fuel (D.before_deadline (Some t) now) body (d, e)).1 ≠ OutOfFuel.
Proof.
  intros Hbody. induction fuel as [|fuel IH]; intros e Hfuel Hleft; [lia |].
  simpl. unfold bind at 1. unfold D.before_deadline. run.
  pose proof (time_ns_reads (world e)) as Hreads.
  pose proof (time_ns_mono (world e)) as Hmono.
  destruct (time_ns (world e)) as [c w]. simpl in *. subst c.
  destruct (clock_of (world e) - now <? t) eqn:Hgo; [| done].
  apply Z.ltb_lt in Hgo.
  match goal with
  | |- context [body ?s] => destruct (body s) as [ob [d1 e1]] eqn:Hturn
  end.
  destruct (Hbody _ _ _ _ Hturn) as (-> & Hclock & Hob). simpl in *.
  destruct ob as [[|ex|]| |]; try done.
  destruct fuel as [|fuel]; [lia |].
  apply IH; lia.
Qed.

(** [wait_start_success], [wait_restart_success] and [wait_scale_success]
    with a deadline of [t] nanoseconds do not poll for ever: more fuel than
    the seconds of the deadline plus two is enough for them to return or
    raise. *)
Lemma finite_deadline_waits_end fuel previous_uids replicas d (e : Env W) t :
  timeout_ns_of (Namespace.timeout_ready (D.common_args d)) = Some t ->
  (Z.to_nat (t / 1000000000) + 2 <= fuel)%nat ->
  (D.wait_start_success fuel (d, e)).1 ≠ OutOfFuel
  /\ (D.wait_restart_success fuel previous_uids (d, e)).1 ≠ OutOfFuel
  /\ (D.wait_scale_success fuel replicas (d, e)).1 ≠ OutOfFuel.
Proof.
  intros Ht Hfuel.
  pose proof (timeout_ns_of_pos _ _ Ht) as Hpos.
  assert (forall body msg,
             turn_ticks d body ->
             ((now <- lift clock ;;
               exit <- while_ fuel (D.before_deadline (Some t) now) body ;;
               match exit with
               | Returned => ret tt
               | _ => D.raise_fail (A := unit) msg exit
               end) (d, e)).1 ≠ OutOfFuel) as Hframe.
  { intros body msg Hbody. unfold bind at 1. unfold lift, clock. simpl.
    pose proof (time_ns_reads (world e)) as Hreads.
    pose proof (time_ns_mono (world e)) as Hmono.
    destruct (time_ns (world e)) as [now w]. simpl in *. subst now.
    unfold bind at 1.
    pose proof (while_ends d body t (clock_of (world e)) Hbody fuel
                  {| world := w;
                     calls := calls e ++ [time_ns_call (clock_of (world e))] |})
      as Hends.
    destruct (while_ fuel _ body _) as [oexit [d1 e1]].
    simpl in Hends.
    assert (oexit ≠ OutOfFuel) as Hexit.
    { apply Hends; [lia |].
      pose proof (Z.mod_pos_bound t 1000000000 ltac:(lia)).
      pose proof (Z.div_mod t 1000000000 ltac:(lia)).
      assert (0 <= t / 1000000000) by (apply Z.div_pos; lia).
      rewrite Nat2Z.inj_le in Hfuel.
      rewrite Nat2Z.inj_add, Z2Nat.id in Hfuel by lia. lia. }
    by destruct oexit as [[|ex|]| |]. }
  unfold D.wait_start_success, D.wait_restart_success, D.wait_scale_success.
  unfold bind at 1 4 7. unfold self at 1 2 3. cbv beta iota zeta. cbn [fst].
  rewrite Ht.
  split_and!.
  - apply Hframe, wait_start_turn_ticks.
  - apply Hframe, wait_restart_turn_ticks.
  - apply Hframe, wait_scale_turn_ticks.
Qed.

End Termination.

(** ** The partitioner, case by case *)

Section PartitionerCases.
Context `{Externals}.

Lemma seqZ_nonpos (s : Z) : s <= 0 -> seqZ 0 s = [].
Proof.
  intros Hs. apply length_zero_iff_nil. rewrite length_seqZ. lia.
Qed.

(** What [_parse_deployment_args] returns when it returns. *)
Lemma parse_returns self_name ns args pa :
  _parse_deployment_args self_name ns args = Ret pa ->
  deployments pa = shard_args args <$> seqZ 0 (default 1 (Namespace.shards args)).
Proof.
  unfold _parse_deployment_args. intros Hparse.
  repeat match type of Hparse with
         | context [match ?x with _ => _ end] => destruct x; simplify_eq
         end; done.
Qed.

(** The head slot is empty exactly for the gateway, and a head spec asks
    for one replica. *)
Lemma parse_head self_name ns args pa :
  _parse_deployment_args self_name ns args = Ret pa ->
  (head_deployment pa = None <-> Namespace.name args = "gateway"%string)
  /\ forall h, head_deployment pa = Some h -> Namespace.replicas h = Some 1.
Proof.
  unfold _parse_deployment_args. intros Hparse.
  destruct (String.eqb (Namespace.name args) "gateway") eqn:Hname;
    [apply String.eqb_eq in Hname | apply String.eqb_neq in Hname];
    destruct (Namespace.k8s_connection_pool args),
      (truthy (Namespace.uses_before args)),
      (truthy (Namespace.uses_after args));
    simpl in Hparse; simplify_eq; simpl;
    (split; [done | intros h Hh; by simplify_eq]).
Qed.

(** The partitioner raises exactly for a gateway that configures a
    uses-before or a uses-after executor; it is never cut off. *)
Theorem partition_raises_iff_gateway_sidecar self_name ns args :
  ((exists e, _parse_deployment_args self_name ns args = Raise e)
   <-> Namespace.name args = "gateway"%string
       /\ (truthy (Namespace.uses_before args) = true
           \/ truthy (Namespace.uses_after args) = true))
  /\ _parse_deployment_args self_name ns args <> OutOfFuel.
Proof.
  unfold _parse_deployment_args.
  destruct (String.eqb (Namespace.name args) "gateway") eqn:Hname.
  - apply String.eqb_eq in Hname.
    destruct (truthy (Namespace.uses_before args)),
      (truthy (Namespace.uses_after args)); simpl; (split; [| done]); split;
      try (intros [e He]; done); try (intros [_ [? | ?]]; done);
      try (intros _; by eexists); intros _; split; auto.
  - apply String.eqb_neq in Hname.
    destruct (Namespace.k8s_connection_pool args),
      (truthy (Namespace.uses_before args)),
      (truthy (Namespace.uses_after args)); simpl; (split; [| done]); split;
      try (intros [e He]; done); intros [? _]; done.
Qed.

(** A worker spec is [args] with its shard index, the head port and no
    uses-before and uses-after executor (and the gateway role for the
    gateway): every other attribute is the one of [args]. *)
Theorem partition_worker_specs self_name ns args pa :
  _parse_deployment_args self_name ns args = Ret pa ->
  length (deployments pa) = Z.to_nat (default 1 (Namespace.shards args))
  /\ forall i w,
       deployments pa !! i = Some w ->
       Namespace.shard_id w = Some (Z.of_nat i)
       /\ Namespace.port_in w = Some K8S_PORT_IN
       /\ Namespace.uses_before w = None
       /\ Namespace.uses_after w = None
       /\ Namespace.pea_role w
          = (if String.eqb (Namespace.name args) "gateway" then Some GATEWAY
             else Namespace.pea_role args)
       /\ Namespace.name w = Namespace.name args
       /\ Namespace.k8s_namespace w = Namespace.k8s_namespace args
       /\ Namespace.shards w = Namespace.shards args
       /\ Namespace.replicas w = Namespace.replicas args
       /\ Namespace.uses_with w = Namespace.uses_with args
       /\ Namespace.dump_path w = Namespace.dump_path args
       /\ Namespace.k8s_connection_pool w = Namespace.k8s_connection_pool args
       /\ Namespace.noblock_on_start w = Namespace.noblock_on_start args
       /\ Namespace.timeout_ready w = Namespace.timeout_ready args
       /\ Namespace.runtime_cls w = Namespace.runtime_cls args
       /\ Namespace.connection_list w = Namespace.connection_list args
       /\ Namespace.uses_before_address w = Namespace.uses_before_address args
       /\ Namespace.uses_after_address w = Namespace.uses_after_address args.
Proof.
  intros Hparse. apply parse_returns in Hparse as ->.
  split; [by rewrite length_fmap, length_seqZ |].
  intros i w Hw. rewrite list_lookup_fmap in Hw.
  destruct (seqZ 0 _ !! i) as [j|] eqn:Hj; [| done].
  apply lookup_seqZ in Hj as [-> _]. injection Hw as <-.
  unfold shard_args. rewrite Z.add_0_l.
  by destruct (String.eqb (Namespace.name args) "gateway").
Qed.

(** The head spec of a PodSpec that is not the gateway: it runs
    [HeadRuntime] on the head port, keeps the uses-before and uses-after
    executors of [args], and gets the local address of each one that is
    configured; with the managed connection pool it gets no connection list. *)
Theorem partition_head_spec self_name ns args :
  Namespace.name args <> "gateway"%string ->
  exists head workers,
    _parse_deployment_args self_name ns args
    = Ret {| head_deployment := Some head; deployments := workers |}
    /\ Namespace.runtime_cls head = Some "HeadRuntime"%string
    /\ Namespace.port_in head = Some K8S_PORT_IN
    /\ Namespace.shard_id head = Namespace.shard_id args
    /\ Namespace.uses_before head = Namespace.uses_before args
    /\ Namespace.uses_after head = Namespace.uses_after args
    /\ Namespace.uses_before_address head
       = (if truthy (Namespace.uses_before args)
          then Some ("127.0.0.1:" +:+ str K8S_PORT_USES_BEFORE)
          else Namespace.uses_before_address args)
    /\ Namespace.uses_after_address head
       = (if truthy (Namespace.uses_after args)
          then Some ("127.0.0.1:" +:+ str K8S_PORT_USES_AFTER)
          else Namespace.uses_after_address args)
    /\ (Namespace.k8s_connection_pool args = true ->
        Namespace.connection_list head = Namespace.connection_list args).
Proof.
  intros Hname. unfold _parse_deployment_args.
  apply String.eqb_neq in Hname. rewrite Hname. simpl.
  destruct (Namespace.k8s_connection_pool args),
    (truthy (Namespace.uses_before args)),
    (truthy (Namespace.uses_after args)); simpl;
    eexists _, _; (split; [reflexivity |]); by split_and!.
Qed.

(** A shard count of 0 or less is not rejected: the partition then has no
    worker spec, and with the managed connection pool disabled the head's
    connection list is the text of a lone closing brace. *)
Theorem partition_without_shards self_name ns args :
  Namespace.name args <> "gateway"%string ->
  default 1 (Namespace.shards args) <= 0 ->
  exists head,
    _parse_deployment_args self_name ns args
    = Ret {| head_deployment := Some head; deployments := [] |}
    /\ (Namespace.k8s_connection_pool args = false ->
        Namespace.connection_list head = Some "}"%string).
Proof.
  intros Hname Hs. unfold _parse_deployment_args, build_connection_list.
  apply String.eqb_neq in Hname. rewrite Hname, (seqZ_nonpos _ Hs). simpl.
  destruct (Namespace.k8s_connection_pool args),
    (truthy (Namespace.uses_before args)),
    (truthy (Namespace.uses_after args)); simpl;
    eexists; (split; [reflexivity |]); done.
Qed.

End PartitionerCases.

(** ** The handles [__init__] creates *)

Section InitFacts.
Context `{Externals}.

(** [__init__] returns the controller built from the partition. *)
Lemma init_returns args needs version p :
  K8sPod.__init__ args needs version = Ret p ->
  exists pa,
    _parse_deployment_args (Namespace.name args) (Namespace.k8s_namespace args)
      args = Ret pa
    /\ K8sPod.args p = args
    /\ K8sPod.exit_callbacks p = []
    /\ K8sPod.k8s_head_deployment p
       = (fun h => D.__init__ (Namespace.name args +:+ "-head") K8S_PORT_IN
                     version "head" (Namespace.name args) None args h)
         <$> head_deployment pa
    /\ K8sPod.k8s_deployments p
       = imap (fun i dargs =>
                 D.__init__
                   (if (1 <? length (deployments pa))%nat
                    then Namespace.name args +:+ "-" +:+ str (Z.of_nat i)
                    else Namespace.name args)
                   K8S_PORT_IN version "worker" (Namespace.name args)
                   (Some (Z.of_nat i)) args dargs)
              (deployments pa).
Proof.
  unfold K8sPod.__init__, K8sPod.name_of. intros Hinit.
  destruct (_parse_deployment_args _ _ args) as [pa|ex|]; [| done | done].
  injection Hinit as <-. exists pa. cbn [K8sPod.args K8sPod.exit_callbacks
    K8sPod.k8s_head_deployment K8sPod.k8s_deployments].
  split_and!; try done; by destruct (head_deployment pa).
Qed.

(** What [__init__] builds: the head handle and the worker handles. *)
Lemma init_builds args needs version p :
  K8sPod.__init__ args needs version = Ret p ->
  K8sPod.args p = args
  /\ K8sPod.exit_callbacks p = []
  /\ (K8sPod.k8s_head_deployment p = None
      <-> Namespace.name args = "gateway"%string)
  /\ (forall h,
        K8sPod.k8s_head_deployment p = Some h ->
        D.name h = Namespace.name args +:+ "-head"
        /\ D.pea_type h = "head"%string
        /\ D.shard_id h = None
        /\ D.num_replicas h = 1
        /\ created_for args version h)
  /\ length (K8sPod.k8s_deployments p)
     = Z.to_nat (default 1 (Namespace.shards args))
  /\ (forall i d,
        K8sPod.k8s_deployments p !! i = Some d ->
        D.pea_type d = "worker"%string
        /\ D.shard_id d = Some (Z.of_nat i)
        /\ D.num_replicas d = default 1 (Namespace.replicas args)
        /\ created_for args version d).
Proof.
  intros Hinit.
  apply init_returns in Hinit as (pa & Hparse & Hargs & Hstack & Hhead & Hds).
  split; [done |]. split; [done |].
  pose proof (parse_returns _ _ _ _ Hparse) as Hworkers.
  split_and!.
  - rewrite Hhead. destruct (parse_head _ _ _ _ Hparse) as [<- _].
    by destruct (head_deployment pa).
  - intros h Hh. rewrite Hhead in Hh.
    destruct (head_deployment pa) as [hargs|] eqn:Hpa; [| done].
    injection Hh as <-. unfold created_for. cbn. split_and!; try done.
    destruct (parse_head _ _ _ _ Hparse) as [_ Hone].
    by rewrite (Hone hargs).
  - by rewrite Hds, length_imap, Hworkers, length_fmap, length_seqZ.
  - intros i d Hd. rewrite Hds, list_lookup_imap in Hd.
    destruct (deployments pa !! i) as [w|] eqn:Hw; [| done].
    injection Hd as <-. unfold created_for. cbn. split_and!; try done.
    rewrite Hworkers, list_lookup_fmap in Hw.
    destruct (seqZ 0 _ !! i) as [j|]; [| done]. injection Hw as <-.
    unfold shard_args. by destruct (String.eqb (Namespace.name args) "gateway").
Qed.


(** The head handle, which exists unless the Pod is the gateway, is named
    ["<name>-head"] and records one replica whatever [args.replicas] says;
    there is one worker handle per shard, with the shard's index, and each
    records [args.replicas] (1 when absent); no handle is registered for
    cleanup yet. *)
Theorem init_handles args needs version p :
  K8sPod.__init__ args needs version = Ret p ->
  K8sPod.args p = args
  /\ K8sPod.exit_callbacks p = []
  /\ (K8sPod.k8s_head_deployment p = None
      <-> Namespace.name args = "gateway"%string)
  /\ (forall h,
        K8sPod.k8s_head_deployment p = Some h ->
        D.name h = Namespace.name args +:+ "-head"
        /\ D.pea_type h = "head"%string
        /\ D.shard_id h = None
        /\ D.num_replicas h = 1
        /\ created_for args version h)
  /\ length (K8sPod.k8s_deployments p)
     = Z.to_nat (default 1 (Namespace.shards args))
  /\ (forall i d,
        K8sPod.k8s_deployments p !! i = Some d ->
        D.pea_type d = "worker"%string
        /\ D.shard_id d = Some (Z.of_nat i)
        /\ D.num_replicas d = default 1 (Namespace.replicas args)
        /\ created_for args version d).
Proof. apply init_builds. Qed.

(** The worker handles of a controller have pairwise distinct names, and
    pairwise distinct DNS names when [to_dns_name] does not merge two of
    them. *)
Theorem init_worker_names_distinct args needs version p :
  K8sPod.__init__ args needs version = Ret p ->
  NoDup (D.name <$> K8sPod.k8s_deployments p)
  /\ ((forall a b,
         a ∈ D.name <$> K8sPod.k8s_deployments p ->
         b ∈ D.name <$> K8sPod.k8s_deployments p ->
         to_dns_name a = to_dns_name b -> a = b) ->
      NoDup (D.dns_name <$> K8sPod.k8s_deployments p)).
Proof.
  intros Hinit.
  apply init_returns in Hinit as (pa & _ & _ & _ & _ & Hds).
  assert (D.name <$> K8sPod.k8s_deployments p
          = (fun i : nat =>
               if (1 <? length (deployments pa))%nat
               then Namespace.name args +:+ "-" +:+ str (Z.of_nat i)
               else Namespace.name args)
            <$> seq 0 (length (deployments pa))) as Hnames.
  { rewrite Hds, fmap_imap. by rewrite <- imap_seq_0. }
  assert (D.dns_name <$> K8sPod.k8s_deployments p
          = to_dns_name <$> (D.name <$> K8sPod.k8s_deployments p)) as Hdns.
  { rewrite Hds, !fmap_imap. apply imap_ext. by intros. }
  assert (NoDup (D.name <$> K8sPod.k8s_deployments p)) as Hnodup.
  { rewrite Hnames.
    destruct (1 <? length (deployments pa))%nat eqn:Hlen.
    - apply NoDup_fmap_2; [| apply NoDup_seq].
      intros i j Hij. apply String.app_inj, String.app_inj in Hij.
      apply (inj pretty) in Hij. lia.
    - apply Nat.ltb_ge in Hlen.
      destruct (length (deployments pa)) as [|[|n]]; simpl;
        [constructor | apply NoDup_singleton | lia]. }
  split; [done |]. intros Hinj. rewrite Hdns.
  apply NoDup_fmap_2_strong; [| done]. intros a b Ha Hb. by apply Hinj.
Qed.

End InitFacts.

(** ** What a controller shows of its handles *)

Section Interface.
Context `{Externals}.

Lemma fold_left_add_const (l : list Z) (r a : Z) :
  Forall (fun x => x = r) l ->
  fold_left Z.add l a = a + Z.of_nat (length l) * r.
Proof.
  intros Hl. revert a. induction Hl as [|x l -> _ IH]; intros a; simpl.
  - lia.
  - rewrite IH. lia.
Qed.

(** The names of the worker handles, for any shard count. *)
Lemma init_names args needs version p :
  K8sPod.__init__ args needs version = Ret p ->
  D.name <$> K8sPod.k8s_deployments p
  = worker_name (Namespace.name args) (default 1 (Namespace.shards args))
    <$> seqZ 0 (default 1 (Namespace.shards args)).
Proof.
  intros Hinit.
  destruct (decide (1 <= default 1 (Namespace.shards args))) as [Hs|Hs].
  - by eapply init_worker_names.
  - apply init_builds in Hinit as (_ & _ & _ & _ & Hlen & _).
    rewrite seqZ_nonpos by lia.
    destruct (K8sPod.k8s_deployments p); [done |]. simpl in Hlen. lia.
Qed.

(** [num_peas] of a new controller: one for the head, unless it is the
    gateway, and [args.replicas] (1 when absent) for each of its shards. *)
Theorem init_num_peas args needs version p :
  K8sPod.__init__ args needs version = Ret p ->
  K8sPod.num_peas p
  = (if String.eqb (Namespace.name args) "gateway" then 0 else 1)
    + Z.max 0 (default 1 (Namespace.shards args))
      * default 1 (Namespace.replicas args).
Proof.
  intros Hinit.
  apply init_builds in Hinit as (_ & _ & Hnone & Hhead & Hlen & Hworkers).
  unfold K8sPod.num_peas. rewrite fold_left_app. simpl.
  rewrite (fold_left_add_const _ (default 1 (Namespace.replicas args))).
  - rewrite length_fmap, Hlen, ZifyInst.of_nat_to_nat_eq. f_equal.
    destruct (K8sPod.k8s_head_deployment p) as [h|] eqn:Hh.
    + destruct (Hhead h eq_refl) as (_ & _ & _ & -> & _).
      destruct (String.eqb (Namespace.name args) "gateway") eqn:Hname; [| done].
      apply String.eqb_eq in Hname. apply Hnone in Hname. done.
    + by rewrite (proj1 Hnone eq_refl).
  - apply Forall_forall. intros r Hr.
    apply list_elem_of_fmap in Hr as (d & -> & Hd).
    apply list_elem_of_lookup in Hd as [i Hd].
    by destruct (Hworkers i d Hd) as (_ & _ & -> & _).
Qed.

(** The nodes a Pod that is not the gateway shows: the head, then every
    worker in order: one more than the shards; each node is reached on the
    head port at ["<dns name>.<namespace>.svc"]. *)
Theorem init_deployments_nodes args needs version p :
  K8sPod.__init__ args needs version = Ret p ->
  Namespace.name args <> "gateway"%string ->
  exists nodes,
    K8sPod.deployments p = Ret nodes
    /\ length nodes = S (Z.to_nat (default 1 (Namespace.shards args)))
    /\ Node.name <$> nodes
       = to_dns_name
         <$> (Namespace.name args +:+ "-head")
             :: (worker_name (Namespace.name args)
                   (default 1 (Namespace.shards args))
                 <$> seqZ 0 (default 1 (Namespace.shards args)))
    /\ forall node,
         node ∈ nodes ->
         Node.head_port_in node = K8S_PORT_IN
         /\ Node.head_host node
            = Node.name node +:+ "." +:+ Namespace.k8s_namespace args +:+ ".svc".
Proof.
  intros Hinit Hname.
  pose proof (init_names _ _ _ _ Hinit) as Hnames.
  apply init_builds in Hinit as (Hargs & _ & Hnone & Hhead & Hlen & Hworkers).
  unfold K8sPod.deployments. rewrite Hargs.
  apply String.eqb_neq in Hname as Hneq. rewrite Hneq.
  destruct (K8sPod.k8s_head_deployment p) as [h|] eqn:Hh;
    [| by destruct Hname; apply Hnone].
  destruct (Hhead h eq_refl) as (Hhname & _ & _ & _ & Hcreated).
  eexists. split; [reflexivity |]. split_and!.
  - simpl. by rewrite length_fmap, Hlen.
  - simpl. f_equal.
    + destruct Hcreated as (-> & _). by rewrite Hhname.
    + rewrite <- Hnames, <- !list_fmap_compose. apply list_fmap_ext.
      intros i d Hd. simpl. by destruct (Hworkers i d Hd) as (_ & _ & _ & -> & _).
  - intros node Hnode.
    assert (exists d, node = D.to_node d /\ created_for args version d)
      as (d & -> & Hd).
    { apply elem_of_cons in Hnode as [-> | Hnode]; [by exists h |].
      apply list_elem_of_fmap in Hnode as (d & -> & Hd). exists d.
      split; [done |]. apply list_elem_of_lookup in Hd as [i Hd].
      by destruct (Hworkers i d Hd) as (_ & _ & _ & ?). }
    destruct Hd as (_ & _ & Hns & _ & Hport & _).
    unfold D.to_node. simpl. by rewrite Hns, Hport.
Qed.

(** The gateway shows one node, its first deployment, however many shards
    are configured; with no shard at all, reading [deployments] raises
    [IndexError]. *)
Theorem init_gateway_deployments args needs version p :
  K8sPod.__init__ args needs version = Ret p ->
  Namespace.name args = "gateway"%string ->
  (1 <= default 1 (Namespace.shards args) ->
   exists node,
     K8sPod.deployments p = Ret [node]
     /\ Node.name node
        = to_dns_name (worker_name "gateway"
                         (default 1 (Namespace.shards args)) 0)
     /\ Node.head_port_in node = K8S_PORT_IN)
  /\ (default 1 (Namespace.shards args) <= 0 ->
      exists msg, K8sPod.deployments p = Raise (IndexError msg)).
Proof.
  intros Hinit Hname.
  pose proof (init_names _ _ _ _ Hinit) as Hnames.
  apply init_builds in Hinit as (Hargs & _ & _ & _ & Hlen & Hworkers).
  unfold K8sPod.deployments. rewrite Hargs, Hname. simpl.
  split; intros Hs.
  - destruct (K8sPod.k8s_deployments p) as [|d ds] eqn:Hds;
      [simpl in Hlen; lia |].
    simpl. eexists. split; [reflexivity |].
    destruct (Hworkers 0%nat d eq_refl)
      as (_ & _ & _ & Hdns & _ & _ & _ & Hport & _).
    split; [| done]. simpl. rewrite Hdns. f_equal.
    rewrite Hname in Hnames.
    apply (f_equal (fun l => l !! 0%nat)) in Hnames. simpl in Hnames.
    rewrite list_lookup_fmap, lookup_seqZ_lt in Hnames by lia.
    simpl in Hnames. by injection Hnames.
  - destruct (K8sPod.k8s_deployments p) as [|d ds]; [by eexists |].
    simpl in Hlen. lia.
Qed.

(** With the managed connection pool disabled and DNS names that are the
    handles' names, the connection list the head is given is the JSON object
    that maps each shard index to the host and port of that worker's node. *)
Theorem init_connection_list_names_worker_nodes args needs version p :
  K8sPod.__init__ args needs version = Ret p ->
  Namespace.name args <> "gateway"%string ->
  Namespace.k8s_connection_pool args = false ->
  1 <= default 1 (Namespace.shards args) ->
  (forall d, d ∈ K8sPod.k8s_deployments p -> D.dns_name d = D.name d) ->
  exists h,
    K8sPod.k8s_head_deployment p = Some h
    /\ Namespace.connection_list (D.deployment_args h)
       = Some (json_object
                 (imap (fun i d =>
                          (str (Z.of_nat i),
                           Node.head_host (D.to_node d) +:+ ":" +:+
                           str (Node.head_port_in (D.to_node d))))
                    (K8sPod.k8s_deployments p))).
Proof.
  intros Hinit Hname Hpool Hs Hdns.
  pose proof (init_names _ _ _ _ Hinit) as Hnames.
  pose proof (init_builds _ _ _ _ Hinit) as (_ & _ & _ & _ & Hlen & Hworkers).
  apply init_returns in Hinit as (pa & Hparse & _ & _ & Hhead & _).
  assert (exists hargs,
             head_deployment pa = Some hargs
             /\ Namespace.connection_list hargs
                = Some (build_connection_list (Namespace.name args)
                          (Namespace.k8s_namespace args)
                          (default 1 (Namespace.shards args))))
    as (hargs & Hpa & Hlist).
  { unfold _parse_deployment_args in Hparse. rewrite Hpool in Hparse.
    apply String.eqb_neq in Hname. rewrite Hname in Hparse.
    destruct (truthy (Namespace.uses_before args)),
      (truthy (Namespace.uses_after args));
      simpl in Hparse; simplify_eq; by eexists. }
  rewrite Hpa in Hhead. eexists. split; [exact Hhead |].
  cbn [D.deployment_args D.__init__]. rewrite Hlist. f_equal.
  rewrite build_connection_list_table by done. f_equal.
  unfold connection_table. apply list_eq. intros i.
  rewrite list_lookup_fmap, list_lookup_imap.
  destruct (K8sPod.k8s_deployments p !! i) as [d|] eqn:Hd.
  - assert (Z.of_nat i < default 1 (Namespace.shards args)) as Hi.
    { apply lookup_lt_Some in Hd. lia. }
    rewrite lookup_seqZ_lt by done. cbn -[String.append]. do 2 f_equal.
    destruct (Hworkers i d Hd) as (_ & _ & _ & _ & _ & Hns & _ & Hport & _).
    rewrite Hdns by (by eapply list_elem_of_lookup_2).
    apply (f_equal (fun l => l !! i)) in Hnames.
    rewrite !list_lookup_fmap, Hd, lookup_seqZ_lt in Hnames by done.
    simpl in Hnames. injection Hnames as ->.
    rewrite Hns, Hport, Z.add_0_l. by rewrite !append_assoc.
  - rewrite lookup_seqZ_ge; [done |]. apply lookup_ge_None in Hd. lia.
Qed.

End Interface.

(** ** Starting and closing one handle *)

Section HandleStartAndClose.
Context {W : Type} `{Platform W} `{Externals}.

(** [start] on a handle: one deployment, then, unless [noblock_on_start],
    the wait. *)
Lemma handle_start_runs fuel d e o d' e' :
  D.start fuel (d, e) = (o, (d', e')) ->
  exists resp polls,
    calls e' = calls e ++ deploy_service_call (start_request d) resp :: polls
    /\ (deploy_service (start_request d) (world e)).1 = resp
    /\ Forall (poll_call_of d) polls
    /\ match resp with
       | inl ex => o = Raise (ApiExc ex) /\ polls = [] /\ d' = d
       | inr address =>
           d' = D.set_cluster_address (Some address) d
           /\ if Namespace.noblock_on_start (D.common_args d)
              then o = Ret tt /\ polls = []
              else wait_result (D.fail_msg "start" d)
                     (Namespace.timeout_ready (D.common_args d))
                     (ready_observed d (D.num_replicas d)) o polls
       end.
Proof.
  intros Hrun. unfold D.start in Hrun.
  unfold bind at 1 in Hrun. unfold self at 1 in Hrun.
  cbv beta iota zeta in Hrun. cbn [fst] in Hrun.
  unfold bind at 1 in Hrun.
  assert (exists resp w,
             (if String.eqb (D.name d) "gateway" then D._deploy_gateway
              else D._deploy_runtime false) (d, e)
             = (match resp with
                | inl ex => Raise (ApiExc ex)
                | inr _ => Ret tt
                end,
                (match resp with
                 | inl _ => d
                 | inr address => D.set_cluster_address (Some address) d
                 end,
                 {| world := w;
                    calls := calls e
                             ++ [deploy_service_call (start_request d) resp] |}))
             /\ (deploy_service (start_request d) (world e)).1 = resp)
    as (resp & w & Hdeploy & Hresp).
  { unfold start_request, D._deploy_gateway, D._deploy_runtime.
    unfold bind, self, lift, set_self, api_call. cbn [fst snd world calls].
    destruct (String.eqb (D.name d) "gateway"); cbv iota;
      match goal with
      | |- context [deploy_service ?req ?w] =>
          destruct (deploy_service req w) as [[ex|address] w'] eqn:Hanswer
      end; [exists (inl ex), w' | exists (inr address), w'
           | exists (inl ex), w' | exists (inr address), w'];
      (split; [reflexivity | exact (f_equal fst Hanswer)]). }
  rewrite Hdeploy in Hrun. exists resp.
  destruct resp as [ex|address].
  { injection Hrun as <- <- <-. exists []. by split_and!. }
  destruct (Namespace.noblock_on_start (D.common_args d)) eqn:Hnoblock;
    cbn [negb] in Hrun; cbv iota in Hrun.
  { unfold ret in Hrun. injection Hrun as <- <- <-. exists [].
    by split_and!. }
  pose proof (wait_start_success_calls _ _ _ _ _ _ Hrun) as (polls & Hcalls & Hpolls).
  apply wait_start_success_runs in Hrun as (-> & polls' & Hcalls' & Hres).
  rewrite Hcalls in Hcalls'. apply app_inv_head in Hcalls' as <-.
  exists polls. cbn [calls] in Hcalls. rewrite <- app_assoc in Hcalls.
  by split_and!.
Qed.

(** What [set_cluster_address] records. *)
Lemma set_cluster_address_records address d :
  records_address address d (D.set_cluster_address (Some address) d).
Proof. by repeat split. Qed.

(** An [ApiException] of the deployment itself is not wrapped: [start]
    raises it as it is, polls nothing and leaves the handle as it was; and when
    the deployment answers, the handle records the address it answered with
    as its [cluster_address], with nothing else of the handle changed, whatever
    the wait does afterwards. The answer is the one the platform gives to the
    request. *)
Theorem handle_start_deploys_once fuel d e o d' e' :
  D.start fuel (d, e) = (o, (d', e')) ->
  exists req resp polls,
    calls e' = calls e ++ deploy_service_call req resp :: polls
    /\ DeployService.name req = D.dns_name d
    /\ DeployService.namespace req = D.k8s_namespace d
    /\ DeployService.replace_deployment req = false
    /\ List.filter is_deployment polls = []
    /\ match resp with
       | inl ex => o = Raise (ApiExc ex) /\ polls = [] /\ d' = d
       | inr address =>
           d' = D.set_cluster_address (Some address) d
           /\ (Namespace.noblock_on_start (D.common_args d) = true ->
               o = Ret tt /\ polls = [])
       end
    /\ (deploy_service req (world e)).1 = resp
    /\ match resp with
       | inl ex => True
       | inr address => records_address address d d'
       end.
Proof.
  intros Hrun.
  apply handle_start_runs in Hrun
    as (resp & polls & Hcalls & Hanswer & Hpolls & Hresp).
  exists (start_request d), resp, polls. split; [done |].
  assert (List.filter is_deployment polls = []) as Hnone.
  { clear Hcalls Hresp. induction Hpolls as [|c cs Hc _ IH]; [done |].
    simpl. by destruct c. }
  assert (match resp with
          | inl ex => True
          | inr address => records_address address d d'
          end) as Hrecords.
  { destruct resp as [ex|address]; [done |]. destruct Hresp as [-> _].
    apply set_cluster_address_records. }
  revert Hanswer. unfold start_request.
  destruct (String.eqb (D.name d) "gateway"); cbn; intros Hanswer;
    split_and!; try done;
    destruct resp as [ex|address]; try done;
    destruct Hresp as [-> Hwait]; (split; [done |]); intros Hnoblock;
    by rewrite Hnoblock in Hwait.
Qed.

(** The handle named ["gateway"] is deployed with one replica and with
    ["gateway"] as its pod name and type, whatever the handle records; its
    blocking start still returns only after the platform has shown as many
    ready replicas as the handle records. *)
Theorem gateway_handle_start fuel d e d' e' :
  D.name d = "gateway"%string ->
  Namespace.noblock_on_start (D.common_args d) = false ->
  D.start fuel (d, e) = (Ret tt, (d', e')) ->
  exists req address now pre st,
    calls e'
    = calls e ++ deploy_service_call req (inr address) :: time_ns_call now
      :: pre ++ [read_namespaced_deployment_call (D.dns_name d)
                   (D.k8s_namespace d) (inr st)]
    /\ DeployService.replicas req = 1
    /\ DeployService.jina_pod_name req = "gateway"%string
    /\ DeployService.pea_type req = "gateway"%string
    /\ DeployService.shard_id req = None
    /\ V1DeploymentStatus.ready_replicas st = Some (D.num_replicas d)
    /\ D.cluster_address d' = Some address.
Proof.
  intros Hname Hblock Hrun.
  apply handle_start_runs in Hrun as (resp & polls & Hcalls & _ & _ & Hresp).
  destruct resp as [ex|address]; [by destruct Hresp |].
  destruct Hresp as [-> Hwait]. rewrite Hblock in Hwait. simpl in Hwait.
  destruct Hwait as (now & pre & obs & -> & _ & st & -> & Hready).
  exists (start_request d), address, now, pre, st.
  split; [done |]. unfold start_request. rewrite Hname. by split_and!.
Qed.

(** [close] on a handle never raises: it asks once for the deletion of the
    handle's deployment, and whatever the platform answers, an
    [ApiException] included, it returns and leaves the handle as it was. *)
Theorem handle_close_never_raises d (e : Env W) :
  exists resp w,
    delete_namespaced_deployment (D.dns_name d) (D.k8s_namespace d) (world e)
    = (resp, w)
    /\ D.close (d, e)
       = (Ret tt,
          (d, {| world := w;
                 calls := calls e
                          ++ [delete_namespaced_deployment_call (D.dns_name d)
                                (D.k8s_namespace d) resp] |})).
Proof.
  unfold D.close, D._delete_namespaced_deployment.
  unfold try_except_ApiException, bind, ret, lift, self, api_call. simpl.
  destruct (delete_namespaced_deployment _ _ (world e)) as [[ex|resp] w];
    by eexists _, _.
Qed.

End HandleStartAndClose.

(** ** What a rolling update stores *)

Section RollingUpdateArguments.
Context {W : Type} `{Platform W} `{Externals}.

(** [rolling_update] on a handle that is not the gateway. *)
Lemma handle_rolling_update_runs dump_path uses_with d e o d' e' :
  D.name d <> "gateway"%string ->
  D.rolling_update dump_path uses_with (d, e) = (o, (d', e')) ->
  holds_update dump_path uses_with d d'
  /\ exists req resp,
       calls e' = calls e ++ [deploy_service_call req resp]
       /\ DeployService.name req = D.dns_name d
       /\ DeployService.namespace req = D.k8s_namespace d
       /\ DeployService.replicas req = D.num_replicas d
       /\ DeployService.replace_deployment req = true
       /\ match resp with
          | inl ex =>
              o = Raise (ApiExc ex)
              /\ D.cluster_address d' = D.cluster_address d
          | inr address => o = Ret tt /\ D.cluster_address d' = Some address
          end.
Proof.
  intros Hname Hrun. unfold D.rolling_update in Hrun.
  unfold bind at 1 in Hrun. unfold self at 1 in Hrun.
  cbv beta iota zeta in Hrun. cbn [fst] in Hrun.
  apply String.eqb_neq in Hname. rewrite Hname in Hrun.
  unfold D._restart_runtime, D._deploy_runtime in Hrun.
  unfold bind, self, set_self, lift, api_call in Hrun.
  cbn [fst snd world calls] in Hrun.
  match type of Hrun with
  | context [deploy_service ?req ?w] =>
      destruct (deploy_service req w) as [[ex|address] w'] eqn:Hdeploy
  end; injection Hrun as <- <- <-.
  - split.
    + unfold holds_update, stored_uses_with, same_deployment. cbn.
      split_and!; try done. by destruct dump_path, uses_with.
    + eexists _, (inl ex). by split_and!.
  - split.
    + unfold holds_update, stored_uses_with, same_deployment. cbn.
      split_and!; try done. by destruct dump_path, uses_with.
    + eexists _, (inr address). by split_and!.
Qed.

(** A rolling update of a handle stores its arguments before it re-deploys,
    so they stay stored when the re-deployment raises; [dump_path] is put in
    the stored [uses_with] under the key ["dump_path"], the other keys are the
    ones given, and what the handle held as [uses_with] before is dropped, not
    merged; the re-deployment is one call, a replacement with the replicas
    the handle records. *)
Theorem handle_rolling_update_stores_arguments
    dump_path uses_with d e o d' e' :
  D.name d <> "gateway"%string ->
  D.rolling_update dump_path uses_with (d, e) = (o, (d', e')) ->
  Namespace.dump_path (D.deployment_args d') = dump_path
  /\ (forall path,
        dump_path = Some path ->
        exists m,
          Namespace.uses_with (D.deployment_args d') = Some m
          /\ m !! "dump_path"%string = Some path
          /\ forall key,
               key <> "dump_path"%string ->
               m !! key = uses_with ≫= (fun given => given !! key))
  /\ (dump_path = None -> Namespace.uses_with (D.deployment_args d') = uses_with)
  /\ exists req resp,
       calls e' = calls e ++ [deploy_service_call req resp]
       /\ DeployService.name req = D.dns_name d
       /\ DeployService.replicas req = D.num_replicas d
       /\ DeployService.replace_deployment req = true
       /\ (forall ex, resp = inl ex -> o = Raise (ApiExc ex))
       /\ (forall address, resp = inr address -> o = Ret tt).
Proof.
  intros Hname Hrun.
  apply handle_rolling_update_runs in Hrun
    as ((Hpath & Hwith & _) & req & resp & Hcalls & Hreq & _ & Hrep & Hrepl & Hresp);
    [| done].
  split; [done |]. split_and!.
  - intros path ->. eexists. split; [exact Hwith |]. split.
    + apply lookup_insert_eq.
    + intros key Hkey. rewrite lookup_insert_ne by done.
      destruct uses_with as [given|]; [done | apply lookup_empty].
  - by intros ->.
  - exists req, resp. split_and!; try done.
    + intros ex ->. by destruct Hresp.
    + intros address ->. by destruct Hresp.
Qed.

Lemma folds_over_unchanged {B} (body : B -> M (D.t * Env W) B) ds b e o ds' e' :
  (forall b d e o d' e', body b (d, e) = (o, (d', e')) -> d' = d) ->
  folds_over body ds b e o ds' e' -> ds' = ds.
Proof.
  intros Hbody. induction 1 as [| ? ? ? ? ? ? ? Hb | ? ? ? ? ? ? Hb
                                | ? ? ? ? ? ? ? ? ? ? Hb _ IH];
    [done | | |]; apply Hbody in Hb as ->; [done | done | by rewrite IH].
Qed.

Lemma folds_over_returned {B} (R : D.t -> D.t -> Prop)
    (body : B -> M (D.t * Env W) B) ds b e b' ds' e' :
  (forall b d e b1 d' e', body b (d, e) = (Ret b1, (d', e')) -> R d d') ->
  folds_over body ds b e (Ret b') ds' e' -> Forall2 R ds ds'.
Proof.
  intros Hbody Hfold. remember (Ret b') as o eqn:Ho. revert Ho.
  induction Hfold as [| ? ? ? ? ? ? ? Hb | ? ? ? ? ? ? Hb
                      | ? ? ? ? ? ? ? ? ? ? Hb _ IH]; intros Ho;
    [constructor | done | done |].
  constructor; [by eapply Hbody | by apply IH].
Qed.

(** The second loop of [rolling_update] changes no handle. *)
Lemma wait_restarted_unchanged fuel (old_uids : gmap string (list string))
    (b : unit) d e o d' e' :
  wait_restarted fuel old_uids (d, e) = (o, (d', e')) -> d' = d.
Proof.
  unfold wait_restarted. unfold bind at 1. unfold bind at 1.
  unfold self at 1, ret at 1. cbn [fst].
  destruct (old_uids !! D.dns_name d) as [uids|].
  - intros Hrun. by apply wait_restart_success_runs in Hrun as [-> _].
  - unfold raise. by intros [= <- <- <-].
Qed.

(** After a rolling update of the controller that returned, every worker
    handle holds the given [dump_path] and [uses_with], and records the same
    replicas for the same deployment as before; the head handle is as it was:
    a rolling update leaves the head alone. *)
Theorem pod_rolling_update_stores_arguments
    fuel dump_path uses_with p e p' e' :
  K8sPod.rolling_update fuel dump_path uses_with (p, e) = (Ret tt, (p', e')) ->
  K8sPod.k8s_head_deployment p' = K8sPod.k8s_head_deployment p
  /\ K8sPod.exit_callbacks p' = K8sPod.exit_callbacks p
  /\ Forall2 (holds_update dump_path uses_with)
       (K8sPod.k8s_deployments p) (K8sPod.k8s_deployments p').
Proof.
  intros Hrun.
  apply rolling_update_runs in Hrun as (o1 & ds1 & e1 & Hfirst & Hrest).
  destruct o1 as [old_uids|ex|]; [| by destruct Hrest | by destruct Hrest].
  destruct Hrest as (ds2 & -> & Hsecond).
  apply folds_over_unchanged in Hsecond as ->;
    [| intros; by eapply (wait_restarted_unchanged fuel old_uids tt)].
  split; [done |]. split; [done |]. cbn [K8sPod.k8s_deployments K8sPod.set_k8s_deployments].
  eapply folds_over_returned; [| exact Hfirst].
  intros acc d e0 acc1 d' e0' Hstep.
  unfold snapshot_and_replace, D.get_pod_uids in Hstep.
  unfold bind at 1 2 in Hstep. unfold self at 1, lift, api_call in Hstep.
  cbn [fst snd] in Hstep.
  destruct (list_namespaced_pod _ _ (world e0)) as [[ex|uids] w]; [done |].
  unfold bind at 1 in Hstep. unfold bind at 1 in Hstep.
  unfold self at 1, ret at 1 in Hstep. cbn [fst] in Hstep.
  unfold bind at 1 in Hstep.
  match type of Hstep with
  | context [D.rolling_update ?a ?b ?st] =>
      destruct (D.rolling_update a b st) as [ou [du eu]] eqn:Hupdate
  end.
  destruct ou as [[]|ex|]; [| done | done].
  unfold ret in Hstep. injection Hstep as _ <- <-.
  destruct (decide (D.name d = "gateway"%string)) as [Hgw|Hgw].
  - unfold D.rolling_update in Hupdate. unfold bind at 1 in Hupdate.
    unfold self at 1 in Hupdate. cbn [fst] in Hupdate.
    apply String.eqb_eq in Hgw. rewrite Hgw in Hupdate. done.
  - by apply handle_rolling_update_runs in Hupdate as [? _].
Qed.

(** The controller of a single gateway deployment refuses a rolling update:
    it lists the pods of that deployment and then raises (the
    [AssertionError] of the handle, or the [ApiException] of the list);
    nothing is re-deployed, no wait is started and the controller is as it
    was. *)
Theorem pod_rolling_update_refused_for_gateway
    fuel dump_path uses_with p e o p' e' d ds :
  K8sPod.k8s_deployments p = d :: ds ->
  D.name d = "gateway"%string ->
  K8sPod.rolling_update fuel dump_path uses_with (p, e) = (o, (p', e')) ->
  p' = p
  /\ exists resp,
       calls e' = calls e
                  ++ [list_namespaced_pod_call (D.k8s_namespace d)
                        ("app=" +:+ D.dns_name d) resp]
       /\ match resp with
          | inl ex => o = Raise (ApiExc ex)
          | inr _ => exists msg, o = Raise (AssertionError msg)
          end.
Proof.
  intros Hds Hname Hrun.
  apply rolling_update_runs in Hrun as (o1 & ds1 & e1 & Hfirst & Hrest).
  rewrite Hds in Hfirst.
  assert (exists resp,
             snapshot_and_replace dump_path uses_with ∅ (d, e)
             = (match resp with
                | inl ex => Raise (ApiExc ex)
                | inr _ =>
                    Raise (AssertionError
                             "Rolling update on the gateway is not supported")
                end,
                (d, {| world := (list_namespaced_pod (D.k8s_namespace d)
                                   ("app=" +:+ D.dns_name d) (world e)).2;
                       calls := calls e
                                ++ [list_namespaced_pod_call (D.k8s_namespace d)
                                      ("app=" +:+ D.dns_name d) resp] |})))
    as (resp & Hstep).
  { unfold snapshot_and_replace, D.get_pod_uids, D.rolling_update.
    unfold bind, self, ret, raise, lift, api_call. cbn -[String.append].
    destruct (list_namespaced_pod _ _ (world e)) as [[ex|uids] w].
    - by exists (inl ex).
    - exists (inr uids). cbn -[String.append].
      apply String.eqb_eq in Hname. by rewrite Hname. }
  assert (ds1 = d :: ds /\ e1 = {| world := (list_namespaced_pod (D.k8s_namespace d)
                                   ("app=" +:+ D.dns_name d) (world e)).2;
                       calls := calls e
                                ++ [list_namespaced_pod_call (D.k8s_namespace d)
                                      ("app=" +:+ D.dns_name d) resp] |}
          /\ o1 = match resp with
                  | inl ex => Raise (ApiExc ex)
                  | inr _ =>
                      Raise (AssertionError
                               "Rolling update on the gateway is not supported")
                  end) as (-> & -> & ->).
  { inversion Hfirst as [| ? ? ? ? ? ? ? Hb | ? ? ? ? ? ? Hb
                         | ? ? ? ? ? ? ? ? ? ? Hb]; subst;
      rewrite Hstep in Hb; by destruct resp; simplify_eq. }
  rewrite <- Hds, set_k8s_deployments_id in Hrest.
  destruct resp as [ex|uids]; destruct Hrest as (-> & -> & ->);
    (split; [done |]); eexists; (split; [reflexivity |]); simpl; by eauto.
Qed.

End RollingUpdateArguments.

(** ** Starting and closing the controller *)

Section PodStartAndClose.
Context {W : Type} `{Platform W} `{Externals}.

(** [start] enters the references of [start_refs], in order. *)
Lemma start_is_for_each fuel p (e : Env W) :
  K8sPod.start fuel (p, e)
  = for_each (start_refs p) (K8sPod.enter_context fuel) (p, e).
Proof.
  unfold K8sPod.start, start_refs. unfold bind at 1. unfold self at 1.
  cbn [fst]. destruct (K8sPod.k8s_head_deployment p); [| reflexivity].
  unfold for_each. cbn [app for_fold]. unfold bind.
  by destruct (K8sPod.enter_context fuel K8sPod.head_ref (p, e))
    as [[[]| |] s'].
Qed.

Lemma start_refs_handles p :
  Forall2 (fun r d => lookup_handle p r = Some d) (start_refs p) (handles p).
Proof.
  pose proof (registered_handles p) as Hrefs.
  apply Forall2_reverse in Hrefs. rewrite reverse_involutive in Hrefs.
  unfold all_registered in Hrefs. rewrite reverse_app, reverse_involutive in Hrefs.
  unfold start_refs. by destruct (K8sPod.k8s_head_deployment p).
Qed.

Lemma start_refs_NoDup p : NoDup (start_refs p).
Proof.
  unfold start_refs, K8sPod.deployment_refs.
  assert (NoDup (map K8sPod.worker_ref (seq 0 (length (K8sPod.k8s_deployments p)))))
    as Hworkers.
  { assert (Inj (=) (=) K8sPod.worker_ref) by (by intros i j [= ->]).
    apply (NoDup_fmap_2 K8sPod.worker_ref), NoDup_seq. }
  destruct (K8sPod.k8s_head_deployment p); [| done].
  simpl. apply NoDup_cons. split; [| done].
  intros Hin. apply list_elem_of_fmap in Hin as (i & ? & _). done.
Qed.

(** Entering one handle: its [start] runs, and only when that has returned
    its exit is pushed on the stack. *)
Lemma enter_context_runs fuel r p e o p' e' d :
  lookup_handle p r = Some d ->
  K8sPod.enter_context fuel r (p, e) = (o, (p', e')) ->
  exists d' new,
    calls e' = calls e ++ new
    /\ start_calls_of d new
    /\ same_deployment d d'
    /\ lookup_handle p' r = Some d'
    /\ (forall r', r' <> r -> lookup_handle p' r' = lookup_handle p r')
    /\ K8sPod.exit_callbacks p'
       = match o with
         | Ret _ => r :: K8sPod.exit_callbacks p
         | _ => K8sPod.exit_callbacks p
         end
    /\ shape p' = shape p
    /\ D.start fuel (d, e) = (o, (d', e')).
Proof.
  intros Hd. unfold K8sPod.enter_context. unfold bind at 1.
  destruct (D.__enter__ fuel (d, e)) as [o1 [d1 e1]] eqn:Hstart.
  assert (K8sPod.on r (D.__enter__ fuel) (p, e)
          = (o1, (match r with
                  | K8sPod.head_ref => K8sPod.set_k8s_head_deployment (Some d1) p
                  | K8sPod.worker_ref i =>
                      K8sPod.set_k8s_deployments
                        (<[i := d1]> (K8sPod.k8s_deployments p)) p
                  end, e1))) as ->.
  { unfold K8sPod.on. destruct r as [|i]; simpl in Hd; by rewrite Hd, Hstart. }
  unfold D.__enter__ in Hstart. pose proof Hstart as Hstarted.
  apply handle_start_runs in Hstart
    as (resp & polls & Hcalls & _ & Hpolls & Hresp).
  assert (same_deployment d d1) as Hsame.
  { destruct resp as [ex|address]; [by destruct Hresp as (_ & _ & ->) |].
    by destruct Hresp as [-> _]. }
  assert (start_calls_of d (deploy_service_call (start_request d) resp :: polls))
    as Hnew.
  { exists resp, polls. split_and!; [done | done |]. intros Hnoblock.
    destruct resp as [ex|address]; [by destruct Hresp as (_ & -> & _) |].
    destruct Hresp as [_ Hwait]. rewrite Hnoblock in Hwait. by destruct Hwait. }
  assert (forall q : K8sPod.t,
             q = match r with
                 | K8sPod.head_ref => K8sPod.set_k8s_head_deployment (Some d1) p
                 | K8sPod.worker_ref i =>
                     K8sPod.set_k8s_deployments
                       (<[i := d1]> (K8sPod.k8s_deployments p)) p
                 end ->
             lookup_handle q r = Some d1
             /\ (forall r', r' <> r -> lookup_handle q r' = lookup_handle p r')
             /\ K8sPod.exit_callbacks q = K8sPod.exit_callbacks p
             /\ shape q = shape p) as Hupdate.
  { intros q ->. destruct r as [|i]; simpl in Hd.
    - split_and!; [done | | done |].
      + by intros [|j] Hj.
      + unfold shape. simpl. by rewrite Hd.
    - split_and!; [| | done |].
      + simpl. apply list_lookup_insert_eq. by eapply lookup_lt_Some.
      + intros [|j] Hj; [done |]. simpl.
        apply list_lookup_insert_ne. congruence.
      + unfold shape. simpl. by rewrite length_insert. }
  destruct (Hupdate _ eq_refl) as (Hlook & Hothers & Hstack & Hshape).
  destruct o1 as [[]|ex|].
  - unfold set_self. intros [= <- <- <-].
    exists d1, (deploy_service_call (start_request d) resp :: polls).
    split_and!; try done. simpl. by rewrite Hstack.
  - intros [= <- <- <-].
    exists d1, (deploy_service_call (start_request d) resp :: polls).
    by split_and!.
  - intros [= <- <- <-].
    exists d1, (deploy_service_call (start_request d) resp :: polls).
    by split_and!.
Qed.

(** Entering the handles of [rs] in order, up to the first whose [start]
    does not return: [k] handles are entered and registered; [news] holds the
    calls of each handle that was started. *)
Lemma enter_all_runs fuel rs :
  forall p e o p' e',
    NoDup rs ->
    Forall (fun r => is_Some (lookup_handle p r)) rs ->
    for_each rs (K8sPod.enter_context fuel) (p, e) = (o, (p', e')) ->
    exists k news,
      calls e' = calls e ++ concat news
      /\ Forall2 (fun r new =>
                    exists d, lookup_handle p r = Some d /\ start_calls_of d new)
           (take (length news) rs) news
      /\ K8sPod.exit_callbacks p' = reverse (take k rs) ++ K8sPod.exit_callbacks p
      /\ (k <= length rs)%nat
      /\ (o = Ret tt -> k = length rs /\ length news = length rs)
      /\ (o <> Ret tt -> (k < length rs)%nat /\ length news = S k)
      /\ shape p' = shape p
      /\ (forall r d,
            lookup_handle p r = Some d ->
            exists d', lookup_handle p' r = Some d' /\ same_deployment d d')
      /\ (o <> Ret tt ->
          exists r d ea d',
            r ∈ rs /\ lookup_handle p r = Some d
            /\ D.start fuel (d, ea) = (o, (d', e'))).
Proof.
  unfold for_each.
  induction rs as [|r rs IH]; intros p e o p' e' Hnodup Hvalid Hrun.
  - simpl in Hrun. injection Hrun as <- <- <-. exists 0%nat, [].
    rewrite app_nil_r. split_and!; try done.
    intros r d Hd. by exists d.
  - apply NoDup_cons in Hnodup as [Hfresh Hnodup].
    apply Forall_cons in Hvalid as [[d Hd] Hvalid].
    simpl in Hrun. unfold bind at 1 in Hrun.
    destruct (K8sPod.enter_context fuel r (p, e)) as [o1 [p1 e1]] eqn:Henter.
    destruct (enter_context_runs _ _ _ _ _ _ _ _ Hd Henter)
      as (d1 & new & Hcalls & Hnew & Hsame & Hlook & Hothers & Hstack & Hshape
          & Hstopped).
    assert (forall r0 d0,
               lookup_handle p r0 = Some d0 ->
               exists d', lookup_handle p1 r0 = Some d' /\ same_deployment d0 d')
      as Hkept.
    { intros r0 d0 Hd0. destruct (decide (r0 = r)) as [-> | Hne].
      - exists d1. by simplify_eq.
      - exists d0. by rewrite Hothers. }
    destruct o1 as [[]|ex|].
    + apply IH in Hrun
        as (k & news & Hcalls' & Hall & Hstack' & Hk & Hret & Hfail & Hshape'
            & Hkept' & Hstopped');
        [| done |].
      * exists (S k), (new :: news). simpl. split_and!.
        -- by rewrite Hcalls', Hcalls, <- app_assoc.
        -- constructor; [by exists d |].
           apply Forall2_same_length_lookup. split; [by eapply Forall2_length |].
           intros i r0 new0 Hr0 Hnew0.
           destruct (Forall2_lookup_lr _ _ _ _ _ _ Hall Hr0 Hnew0) as (d0 & Hd0 & ?).
           exists d0. split; [| done]. rewrite <- Hd0. symmetry. apply Hothers.
           intros ->. apply Hfresh. apply lookup_take_Some in Hr0 as [Hr0 _].
           by eapply list_elem_of_lookup_2.
        -- by rewrite Hstack', Hstack, reverse_cons, <- app_assoc.
        -- lia.
        -- intros Ho. destruct (Hret Ho). split; congruence.
        -- intros Ho. destruct (Hfail Ho). split; [lia | congruence].
        -- congruence.
        -- intros r0 d0 Hd0. destruct (Hkept r0 d0 Hd0) as (d' & Hd' & [Hdns Hns]).
           destruct (Hkept' r0 d' Hd') as (d'' & Hd'' & [Hdns' Hns']).
           exists d''. split; [done |]. split; congruence.
        -- intros Ho. destruct (Hstopped' Ho) as (r0 & d0 & ea & d' & Hin & Hd0 & Hrun0).
           exists r0, d0, ea, d'. split; [by right |]. split; [| done].
           rewrite <- Hd0. symmetry. apply Hothers. by intros ->.
      * eapply Forall_impl; [exact Hvalid |]. intros r0 [d0 Hd0].
        destruct (Hkept r0 d0 Hd0) as (d' & -> & _). by eexists.
    + injection Hrun as <- <- <-. exists 0%nat, [new]. simpl.
      rewrite app_nil_r. split_and!; try done.
      * constructor; [by exists d | constructor].
      * lia.
      * intros _. split; [lia | done].
      * intros Ho. exists r, d, e, d1. split; [by left |]. split; [done |].
        by apply Hstopped.
    + injection Hrun as <- <- <-. exists 0%nat, [new]. simpl.
      rewrite app_nil_r. split_and!; try done.
      * constructor; [by exists d | constructor].
      * lia.
      * intros _. split; [lia | done].
      * intros Ho. exists r, d, e, d1. split; [by left |]. split; [done |].
        by apply Hstopped.
Qed.

(** Entering the handles of [rs] is starting them one after the other, up
    to the first whose [start] does not return. *)
Lemma enter_all_fold fuel rs :
  forall ds p e o p' e',
    NoDup rs ->
    Forall2 (fun r d => lookup_handle p r = Some d) rs ds ->
    for_each rs (K8sPod.enter_context fuel) (p, e) = (o, (p', e')) ->
    exists ds',
      Forall2 (fun r d => lookup_handle p' r = Some d) rs ds'
      /\ (forall r, r ∉ rs -> lookup_handle p' r = lookup_handle p r)
      /\ folds_over (fun _ : unit => D.start fuel) ds tt e o ds' e'.
Proof.
  unfold for_each.
  induction rs as [|r rs IH]; intros ds p e o p' e' Hnodup Hrefs Hrun.
  - apply Forall2_nil_inv_l in Hrefs as ->. simpl in Hrun.
    injection Hrun as <- <- <-. exists []. split_and!; [done | done |].
    constructor.
  - apply Forall2_cons_inv_l in Hrefs as (d & ds0 & Hd & Hrefs & ->).
    apply NoDup_cons in Hnodup as [Hfresh Hnodup].
    simpl in Hrun. unfold bind at 1 in Hrun.
    destruct (K8sPod.enter_context fuel r (p, e)) as [o1 [p1 e1]] eqn:Henter.
    destruct (enter_context_runs _ _ _ _ _ _ _ _ Hd Henter)
      as (d1 & new & _ & _ & _ & Hlook & Hothers & _ & _ & Hstart).
    assert (Forall2 (fun r0 d0 => lookup_handle p1 r0 = Some d0) rs ds0)
      as Hrefs1.
    { apply Forall2_same_length_lookup. split; [by eapply Forall2_length |].
      intros i r0 d0 Hr0 Hd0. rewrite Hothers.
      - by apply (Forall2_lookup_lr _ _ _ _ _ _ Hrefs Hr0 Hd0).
      - intros ->. apply Hfresh. by eapply list_elem_of_lookup_2. }
    destruct o1 as [[]|ex|].
    + destruct (IH _ _ _ _ _ _ Hnodup Hrefs1 Hrun)
        as (ds' & Hrefs' & Hothers' & Hfold).
      exists (d1 :: ds'). split_and!.
      * constructor; [| done]. by rewrite Hothers'.
      * intros r0 [Hne Hr0]%not_elem_of_cons.
        rewrite Hothers' by done. by apply Hothers.
      * by eapply folds_step.
    + injection Hrun as <- <- <-. exists (d1 :: ds0). split_and!.
      * by constructor.
      * intros r0 [Hne Hr0]%not_elem_of_cons. by apply Hothers.
      * by constructor.
    + injection Hrun as <- <- <-. exists (d1 :: ds0). split_and!.
      * by constructor.
      * intros r0 [Hne Hr0]%not_elem_of_cons. by apply Hothers.
      * by constructor.
Qed.

(** The calls of one started handle hold one deployment and no
    deletion. *)
Lemma start_calls_counts d new :
  start_calls_of d new ->
  length (List.filter is_deployment new) = 1%nat /\ deletions new = [].
Proof.
  intros (resp & polls & -> & Hpolls & _). unfold deletions. simpl.
  assert (List.filter is_deployment polls = []
          /\ List.filter is_deletion polls = []) as [-> ->]; [| done].
  induction Hpolls as [|c cs Hc _ [IH1 IH2]]; [done |].
  simpl. by destruct c.
Qed.

Lemma started_counts (ds : list D.t) news :
  Forall2 start_calls_of ds news ->
  length (List.filter is_deployment (concat news)) = length news
  /\ deletions (concat news) = [].
Proof.
  unfold deletions.
  induction 1 as [|d new ds news Hnew _ [IH1 IH2]]; [done |].
  apply start_calls_counts in Hnew as [Hone Hnone]. unfold deletions in Hnone.
  simpl. rewrite !List.filter_app, length_app, Hone, IH1, Hnone, IH2. done.
Qed.

(** [start] on the controller, in terms of its handles. *)
Lemma start_runs fuel p e o p' e' :
  K8sPod.start fuel (p, e) = (o, (p', e')) ->
  exists k news,
    calls e' = calls e ++ concat news
    /\ Forall2 start_calls_of (take (length news) (handles p)) news
    /\ K8sPod.exit_callbacks p'
       = reverse (take k (start_refs p)) ++ K8sPod.exit_callbacks p
    /\ (o = Ret tt -> k = length (handles p) /\ length news = length (handles p))
    /\ (o <> Ret tt -> (k < length (handles p))%nat /\ length news = S k)
    /\ shape p' = shape p
    /\ (forall r d,
          lookup_handle p r = Some d ->
          exists d', lookup_handle p' r = Some d' /\ same_deployment d d')
    /\ (o <> Ret tt ->
        exists d ea d',
          d ∈ handles p /\ D.start fuel (d, ea) = (o, (d', e'))).
Proof.
  intros Hrun. rewrite start_is_for_each in Hrun.
  pose proof (start_refs_handles p) as Hrefs.
  apply enter_all_runs in Hrun
    as (k & news & Hcalls & Hall & Hstack & Hk & Hret & Hfail & Hshape & Hkept
        & Hstopped).
  - pose proof (Forall2_length _ _ _ Hrefs) as Hlen.
    exists k, news. rewrite <- Hlen. split_and!; try done.
    + apply Forall2_same_length_lookup. split.
      * apply Forall2_length in Hall. rewrite !length_take in *. lia.
      * intros i d new Hd Hnew.
        apply lookup_take_Some in Hd as [Hd Hi].
        destruct (Forall2_lookup_r _ _ _ _ _ Hrefs Hd) as (r & Hr & Hlook).
        assert (take (length news) (start_refs p) !! i = Some r) as Hr'.
        { by apply lookup_take_Some. }
        destruct (Forall2_lookup_lr _ _ _ _ _ _ Hall Hr' Hnew) as (d0 & Hd0 & ?).
        by simplify_eq.
    + intros Ho. destruct (Hstopped Ho) as (r & d & ea & d' & Hin & Hd & Hrun0).
      exists d, ea, d'. split; [| done].
      apply list_elem_of_lookup in Hin as [i Hi].
      destruct (Forall2_lookup_l _ _ _ _ _ Hrefs Hi) as (d0 & Hd0 & Hlook).
      simplify_eq. by eapply list_elem_of_lookup_2.
  - apply start_refs_NoDup.
  - eapply Forall2_Forall_l; [exact Hrefs |].
    apply Forall_forall. intros d _ r Hr. by eexists.
Qed.

(** [start] on the controller is the [start] of its handles, the head first
    and then the workers in order, one after the other up to the first that
    does not return. *)
Lemma start_folds fuel p e o p' e' :
  K8sPod.start fuel (p, e) = (o, (p', e')) ->
  folds_over (fun _ : unit => D.start fuel) (handles p) tt e o (handles p') e'.
Proof.
  intros Hrun.
  pose proof (start_runs _ _ _ _ _ _ Hrun)
    as (_ & _ & _ & _ & _ & _ & _ & Hshape & _).
  rewrite start_is_for_each in Hrun.
  apply (enter_all_fold _ _ (handles p)) in Hrun
    as (ds' & Hrefs' & _ & Hfold);
    [| apply start_refs_NoDup | apply start_refs_handles].
  assert (start_refs p' = start_refs p) as Heq.
  { unfold shape in Hshape. injection Hshape as _ Hlen Hhead.
    unfold start_refs, K8sPod.deployment_refs. rewrite Hlen.
    by destruct (K8sPod.k8s_head_deployment p),
      (K8sPod.k8s_head_deployment p'). }
  pose proof (start_refs_handles p') as Hrefs. rewrite Heq in Hrefs.
  assert (ds' = handles p') as ->; [| done].
  apply list_eq_same_length with (length (start_refs p)).
  - symmetry. by eapply Forall2_length.
  - symmetry. by eapply Forall2_length.
  - intros i d1 d2 Hi Hd1 Hd2.
    destruct (Forall2_lookup_r _ _ _ _ _ Hrefs' Hd1) as (r & Hr & Hlook).
    destruct (Forall2_lookup_l _ _ _ _ _ Hrefs Hr) as (d3 & Hd3 & Hlook').
    by simplify_eq.
Qed.

(** [start] asks for the deployment of the head, then of every worker in
    order, never for a replacement; each deployment is followed by the polls of
    that handle's own wait, none when the start does not block; [start] is
    the [start] of each handle in this order and stops at the first handle
    whose start does not return, with the outcome of that start: the handles
    after it are not started; it deletes nothing, and every handle still
    stands for the deployment it stood for. *)
Theorem pod_start_deploys_head_then_workers fuel p e o p' e' :
  K8sPod.start fuel (p, e) = (o, (p', e')) ->
  exists news,
    calls e' = calls e ++ concat news
    /\ Forall2 start_calls_of (take (length news) (handles p)) news
    /\ (o = Ret tt -> length news = length (handles p))
    /\ (o <> Ret tt -> (length news <= length (handles p))%nat)
    /\ deletions (concat news) = []
    /\ Forall2 same_deployment (handles p) (handles p')
    /\ folds_over (fun _ : unit => D.start fuel) (handles p) tt e o
         (handles p') e'.
Proof.
  intros Hrun. pose proof (start_folds _ _ _ _ _ _ Hrun) as Hfold.
  apply start_runs in Hrun
    as (k & news & Hcalls & Hall & _ & Hret & Hfail & Hshape & Hkept & _).
  exists news. split_and!; [done | done | | | | | done].
  - intros Ho. by destruct (Hret Ho).
  - intros Ho. destruct (Hfail Ho). lia.
  - by destruct (started_counts _ _ Hall).
  - pose proof (start_refs_handles p) as Hrefs.
    pose proof (start_refs_handles p') as Hrefs'.
    assert (start_refs p' = start_refs p) as Heq.
    { unfold shape in Hshape. injection Hshape as _ Hlen Hhead.
      unfold start_refs, K8sPod.deployment_refs. rewrite Hlen.
      by destruct (K8sPod.k8s_head_deployment p),
        (K8sPod.k8s_head_deployment p'). }
    rewrite Heq in Hrefs'.
    apply Forall2_same_length_lookup. split.
    + rewrite <- (Forall2_length _ _ _ Hrefs). by eapply Forall2_length.
    + intros i d d' Hd Hd'.
      destruct (Forall2_lookup_r _ _ _ _ _ Hrefs Hd) as (r & Hr & Hlook).
      destruct (Forall2_lookup_l _ _ _ _ _ Hrefs' Hr) as (d1 & Hd1 & Hlook').
      destruct (Hkept r d Hlook) as (d2 & Hd2 & Hsame). by simplify_eq.
Qed.

(** Closing the controller never raises: it asks for the deletion of the
    handle of every callback on the exit stack, newest first, whatever each
    deletion answers, and leaves the stack empty, so that closing again makes
    no call at all. *)
Theorem pod_close_is_idempotent p (e : Env W) :
  Forall (fun r => is_Some (lookup_handle p r)) (K8sPod.exit_callbacks p) ->
  exists p' e' deletes,
    K8sPod.close (p, e) = (Ret tt, (p', e'))
    /\ calls e' = calls e ++ deletes
    /\ Forall2 (fun r c => exists d, lookup_handle p r = Some d
                                     /\ delete_call_of d c)
         (K8sPod.exit_callbacks p) deletes
    /\ K8sPod.exit_callbacks p' = []
    /\ handles p' = handles p
    /\ K8sPod.close (p', e') = (Ret tt, (p', e')).
Proof.
  intros Hvalid.
  destruct (unwind_deletes _ p e Hvalid) as (e' & deletes & Hunwind & Hcalls & Hall).
  eexists _, e', deletes. unfold K8sPod.close at 1. unfold bind at 1.
  unfold self at 1. cbn [fst]. split; [exact Hunwind |].
  split; [done |]. split; [done |].
  destruct (K8sPod.exit_callbacks p) eqn:Hstack;
    (split; [done |]); (split; [done |]);
    unfold K8sPod.close, bind, self; cbn [fst]; by rewrite ?Hstack.
Qed.

(** Leaving the controller after a [start] on an empty exit stack deletes
    the deployments of the handles that [start] entered, newest first, and of
    no other: after a [start] that returned, of every handle; after a [start]
    that stopped at a handle, of the handles before that one, so that one
    deployment more was asked for than is deleted. *)
Theorem pod_exit_deletes_what_start_entered fuel p e o p1 e1 :
  K8sPod.exit_callbacks p = [] ->
  K8sPod.start fuel (p, e) = (o, (p1, e1)) ->
  exists k starts deletes p2 e2,
    calls e1 = calls e ++ starts
    /\ K8sPod.__exit__ (p1, e1) = (Ret tt, (p2, e2))
    /\ calls e2 = calls e1 ++ deletes
    /\ Forall2 delete_call_of (reverse (take k (handles p))) deletes
    /\ K8sPod.exit_callbacks p2 = []
    /\ (o = Ret tt -> k = length (handles p))
    /\ length (List.filter is_deployment starts)
       = match o with
         | Ret _ => k
         | _ => S k
         end.
Proof.
  intros Hfresh Hrun.
  apply start_runs in Hrun
    as (k & news & Hcalls & Hall & Hstack & Hret & Hfail & Hshape & Hkept & _).
  rewrite Hfresh, app_nil_r in Hstack.
  pose proof (start_refs_handles p) as Hrefs.
  assert (Forall2 (fun r d => exists d', lookup_handle p1 r = Some d'
                                         /\ same_deployment d d')
            (reverse (take k (start_refs p))) (reverse (take k (handles p))))
    as Hentered.
  { apply Forall2_reverse, Forall2_take.
    eapply Forall2_impl; [exact Hrefs |]. intros r d Hd. by apply Hkept. }
  destruct (unwind_deletes (reverse (take k (start_refs p))) p1 e1)
    as (e2 & deletes & Hunwind & Hcalls2 & Hdeletes).
  { eapply Forall2_Forall_l; [exact Hentered |].
    apply Forall_forall. intros d _ r (d' & Hd' & _). by eexists. }
  eexists k, (concat news), deletes, _, e2. split_and!.
  - done.
  - unfold K8sPod.__exit__, K8sPod.join, K8sPod.close. unfold bind at 1 2.
    unfold self at 1. cbn [fst]. rewrite Hstack, Hunwind. reflexivity.
  - done.
  - apply Forall2_same_length_lookup. split.
    + rewrite <- (Forall2_length _ _ _ Hentered). by eapply Forall2_length.
    + intros i d c Hd Hc.
      destruct (Forall2_lookup_r _ _ _ _ _ Hentered Hd)
        as (r & Hr & d' & Hd' & Hdns & Hns).
      destruct (Forall2_lookup_l _ _ _ _ _ Hdeletes Hr)
        as (c' & Hc' & d1 & Hd1 & resp & ->).
      simplify_eq. exists resp. by rewrite Hdns, Hns.
  - by destruct (reverse (take k (start_refs p))).
  - intros Ho. by destruct (Hret Ho).
  - destruct (started_counts _ _ Hall) as [-> _].
    destruct o as [[]|ex|].
    + destruct (Hret eq_refl). congruence.
    + by destruct (Hfail ltac:(done)).
    + by destruct (Hfail ltac:(done)).
Qed.

Lemma nonblocking_news (ds : list D.t) news :
  Forall (fun d => Namespace.noblock_on_start (D.common_args d) = true) ds ->
  Forall2 start_calls_of ds news ->
  exists resps,
    length resps = length news
    /\ concat news
       = zip_with (fun d resp => deploy_service_call (start_request d) resp)
           ds resps.
Proof.
  intros Hnb Hall. induction Hall as [|d new ds news Hnew _ IH].
  - by exists [].
  - apply Forall_cons in Hnb as [Hd Hnb].
    destruct (IH Hnb) as (resps & Hlen & Hconcat).
    destruct Hnew as (resp & polls & -> & _ & Hnone).
    rewrite (Hnone Hd). exists (resp :: resps). simpl.
    by rewrite Hlen, Hconcat.
Qed.

(** Starts that do not block, one after the other: one deployment per
    handle, each answered with an address, up to the first that raises, whose
    [ApiException] is what the run raises. *)
Lemma nonblocking_starts fuel ds e o ds' e' :
  Forall (fun d => Namespace.noblock_on_start (D.common_args d) = true) ds ->
  folds_over (fun _ : unit => D.start fuel) ds tt e o ds' e' ->
  exists resps,
    calls e'
    = calls e
      ++ zip_with (fun d resp => deploy_service_call (start_request d) resp)
           ds resps
    /\ (length resps <= length ds)%nat
    /\ match o with
       | Ret _ =>
           length resps = length ds
           /\ exists addresses, resps = inr <$> addresses
       | Raise x =>
           exists addresses ex,
             resps = (inr <$> addresses) ++ [inl ex] /\ x = ApiExc ex
       | OutOfFuel => False
       end.
Proof.
  assert (forall d e o d' e',
             Namespace.noblock_on_start (D.common_args d) = true ->
             D.start fuel (d, e) = (o, (d', e')) ->
             exists resp,
               calls e' = calls e ++ [deploy_service_call (start_request d) resp]
               /\ match resp with
                  | inl ex => o = Raise (ApiExc ex)
                  | inr _ => o = Ret tt
                  end) as Hstep.
  { intros d0 e0 o0 d0' e0' Hnb Hstart.
    apply handle_start_runs in Hstart as (resp & polls & Hcalls & _ & _ & Hresp).
    exists resp. destruct resp as [ex|address].
    - by destruct Hresp as (-> & -> & _).
    - destruct Hresp as [_ Hwait]. rewrite Hnb in Hwait.
      by destruct Hwait as [-> ->]. }
  intros Hnb Hfold. revert Hnb.
  induction Hfold as [b e | d ds b e x d' e' Hb | d ds b e d' e' Hb
                      | d ds b e b1 d' e1 o ds' e' Hb Hrest IH];
    repeat match goal with u : unit |- _ => destruct u end; intros Hnb.
  - exists []. rewrite app_nil_r. split_and!; try done. by exists [].
  - apply Forall_cons in Hnb as [Hd Hnb].
    destruct (Hstep _ _ _ _ _ Hd Hb) as ([ex|address] & Hcalls & Ho); [| done].
    injection Ho as ->. exists [inl ex]. simpl. rewrite zip_with_nil_r.
    split_and!; [done | lia |]. by exists [], ex.
  - apply Forall_cons in Hnb as [Hd Hnb].
    by destruct (Hstep _ _ _ _ _ Hd Hb) as ([ex|address] & Hcalls & Ho).
  - apply Forall_cons in Hnb as [Hd Hnb].
    destruct (Hstep _ _ _ _ _ Hd Hb) as ([ex|address] & Hcalls & Ho); [done |].
    destruct (IH Hstep Hnb) as (resps & Hcalls' & Hlen & Hresps).
    exists (inr address :: resps). simpl. split_and!.
    + by rewrite Hcalls', Hcalls, <- app_assoc.
    + lia.
    + destruct o as [[]|x|]; [| | done].
      * destruct Hresps as (Hlen' & addresses & ->).
        split; [by rewrite Hlen' |]. by exists (address :: addresses).
      * destruct Hresps as (addresses & ex & -> & ->).
        by exists (address :: addresses), ex.
Qed.

(** A new controller whose arguments ask not to block starts with one call
    per handle and no other: the deployment of the head, then of every worker
    in order, each answered with an address, up to the first that raises; such
    a start is never cut off, and what it raises is the [ApiException] of the
    last deployment it asked for, never a failure of a wait. The starts are
    those of the handles, one after the other. *)
Theorem init_then_start_without_blocking
    args needs version p fuel (e : Env W) o p' e' :
  K8sPod.__init__ args needs version = Ret p ->
  Namespace.noblock_on_start args = true ->
  K8sPod.start fuel (p, e) = (o, (p', e')) ->
  exists resps,
    calls e'
    = calls e
      ++ zip_with (fun d resp => deploy_service_call (start_request d) resp)
           (handles p) resps
    /\ (length resps <= length (handles p))%nat
    /\ match o with
       | Ret _ =>
           length resps = length (handles p)
           /\ exists addresses, resps = inr <$> addresses
       | Raise x =>
           exists addresses ex,
             resps = (inr <$> addresses) ++ [inl ex] /\ x = ApiExc ex
       | OutOfFuel => False
       end
    /\ folds_over (fun _ : unit => D.start fuel) (handles p) tt e o
         (handles p') e'.
Proof.
  intros Hinit Hnoblock Hrun.
  apply init_builds in Hinit as (_ & _ & _ & Hhead & _ & Hworkers).
  assert (Forall (fun d => Namespace.noblock_on_start (D.common_args d) = true)
            (handles p)) as Hnb.
  { unfold handles. apply Forall_app. split.
    - destruct (K8sPod.k8s_head_deployment p) as [h|]; [| constructor].
      destruct (Hhead h eq_refl) as (_ & _ & _ & _ & _ & Hc & _).
      repeat constructor. by rewrite Hc.
    - apply Forall_forall. intros d Hd.
      apply list_elem_of_lookup in Hd as [i Hd].
      destruct (Hworkers i d Hd) as (_ & _ & _ & _ & Hc & _). by rewrite Hc. }
  apply start_folds in Hrun as Hfold.
  destruct (nonblocking_starts _ _ _ _ _ _ Hnb Hfold)
    as (resps & Hcalls & Hlen & Ho).
  exists resps. by split_and!.
Qed.

End PodStartAndClose.

(** ** Waits without deadline *)

Section NoDeadline.
Context {W : Type} `{Platform W} `{Externals}.

Ltac run :=
  unfold bind, ret, raise, lift, self, set_self, clock, sleep_1s, api_call,
    try_except_ApiException in *; cbn -[String.append] in *.

Lemma timeout_ns_of_nonpos timeout_ready :
  timeout_ready <= 0 -> timeout_ns_of timeout_ready = None.
Proof.
  intros Hle. unfold timeout_ns_of.
  destruct (timeout_ready <=? 0) eqn:Hcmp; [done |].
  apply Z.leb_gt in Hcmp. lia.
Qed.

Lemma clockless_polls (Q : Call -> Prop) (d : D.t)
    (body : M (D.t * Env W) control) (now : Z) :
  turn_calls Q d body ->
  forall fuel e o d' e',
    while_ fuel (D.before_deadline None now) body (d, e) = (o, (d', e')) ->
    exists new, calls e' = calls e ++ new /\ Forall Q new.
Proof.
  intros Hbody. induction fuel as [|fuel IH]; intros e o d' e' Hrun.
  - simpl in Hrun. injection Hrun as <- <- <-. exists []. by rewrite app_nil_r.
  - simpl in Hrun. unfold bind at 1 in Hrun. unfold D.before_deadline in Hrun.
    unfold ret at 1 in Hrun. unfold bind at 1 in Hrun.
    destruct (body (d, e)) as [ob [d1 e1]] eqn:Hturn.
    destruct (Hbody _ _ _ _ Hturn) as (-> & new1 & Hcalls1 & Hq1).
    destruct ob as [[|ex|]| |];
      try (injection Hrun as <- <- <-; by eexists).
    destruct (IH _ _ _ _ Hrun) as (new2 & Hcalls2 & Hq2).
    exists (new1 ++ new2). rewrite Hcalls2, Hcalls1, <- app_assoc.
    split; [done |]. by apply Forall_app.
Qed.

Lemma wait_scale_turn_clockless (d : D.t) (n : Z) :
  turn_calls (clockless_poll_of d) d (D.wait_scale_turn n).
Proof.
  intros e o d' e' Hrun.
  unfold D.wait_scale_turn, D._read_namespaced_deployment in Hrun. run.
  destruct (read_namespaced_deployment _ _ (world e)) as [[ex|st] w].
  - injection Hrun as <- <- <-. split; [done |].
    eexists. split; [done |]. by repeat constructor.
  - destruct (is_count _ n); injection Hrun as <- <- <-; (split; [done |]).
    + eexists. split; [done |]. by repeat constructor.
    + eexists. rewrite <- app_assoc. split; [done |]. by repeat constructor.
Qed.

Lemma wait_restart_turn_clockless (d : D.t) (previous_uids : list string) :
  turn_calls (clockless_poll_of d) d (D.wait_restart_turn previous_uids).
Proof.
  intros e o d' e' Hrun.
  unfold D.wait_restart_turn, D._read_namespaced_deployment,
    D._has_pod_with_uid, D.get_pod_uids in Hrun.
  run.
  destruct (read_namespaced_deployment _ _ (world e)) as [[ex|st] w].
  { injection Hrun as <- <- <-. split; [done |].
    eexists. split; [done |]. by repeat constructor. }
  cbn -[String.append] in Hrun.
  destruct (list_namespaced_pod _ _ w) as [[ex|uids] w'].
  { injection Hrun as <- <- <-. split; [done |].
    eexists. rewrite <- app_assoc. split; [done |]. by repeat constructor. }
  cbn -[String.append] in Hrun.
  destruct (is_count _ _ && bool_decide _ && negb _);
    injection Hrun as <- <- <-; (split; [done |]).
  - eexists. rewrite <- app_assoc. split; [done |]. by repeat constructor.
  - eexists. rewrite <- !app_assoc. split; [done |]. by repeat constructor.
Qed.

(** The frame of a wait without deadline: the clock is read once. *)
Lemma wait_frame_no_deadline (succeeded : list Call -> Prop) (d : D.t)
    (body : M (D.t * Env W) control) (fail_msg : string) (timeout_ready : Z)
    (fuel : nat) (e : Env W) (o : outcome unit) (d' : D.t) (e' : Env W) :
  timeout_ready <= 0 ->
  turn_ok succeeded d body ->
  turn_calls (clockless_poll_of d) d body ->
  (now <- lift clock ;;
   exit <- while_ fuel (D.before_deadline (timeout_ns_of timeout_ready) now) body ;;
   match exit with
   | Returned => ret tt
   | _ => D.raise_fail fail_msg exit
   end) (d, e) = (o, (d', e')) ->
  exists now polls,
    calls e' = calls e ++ time_ns_call now :: polls
    /\ Forall (clockless_poll_of d) polls
    /\ forall x,
         o = Raise x ->
         exists ex,
           api_failed ex (time_ns_call now :: polls)
           /\ x = RuntimeFailToStart (fail_msg +:+ ": " +:+ repr ex).
Proof.
  intros Hle Hok Hbody Hrun.
  pose proof (wait_runs _ _ _ _ _ _ _ _ _ _ Hok Hrun) as (_ & new & Hcalls & Hres).
  rewrite (timeout_ns_of_nonpos _ Hle) in Hrun.
  unfold bind at 1 in Hrun. unfold lift, clock in Hrun.
  simpl in Hrun. destruct (time_ns (world e)) as [now w]. simpl in Hrun.
  unfold bind at 1 in Hrun.
  destruct (while_ fuel _ body _) as [oexit [d1 e1]] eqn:Hloop.
  apply (clockless_polls (clockless_poll_of d) d body now Hbody) in Hloop
    as (polls & Hcalls1 & Hpolls).
  simpl in Hcalls1. rewrite <- app_assoc in Hcalls1.
  assert (e' = e1) as ->.
  { by destruct oexit as [[|ex|]| |]; simpl in Hrun; injection Hrun as <- <- <-. }
  rewrite Hcalls1 in Hcalls. apply app_inv_head in Hcalls as <-.
  exists now, polls. split_and!; [done | done |].
  intros x ->. simpl in Hres.
  destruct Hres as [[(t & _ & _ & _ & Ht & _) _] | Hex]; [| done].
  by rewrite (timeout_ns_of_nonpos _ Hle) in Ht.
Qed.

(** With [timeout_ready] at 0 or below a wait has no deadline: it reads the
    clock once, before it polls, and the only failure it raises is the one
    that wraps an [ApiException], raised by its last call. *)
Theorem waits_without_deadline_fail_only_on_api_error
    (fuel : nat) (previous_uids : option (list string)) (replicas : Z)
    (d : D.t) (e : Env W) (wait : M (D.t * Env W) unit) (msg : string) :
  Namespace.timeout_ready (D.common_args d) <= 0 ->
  (wait = D.wait_start_success fuel /\ msg = D.fail_msg "start" d)
  \/ (wait = D.wait_restart_success fuel previous_uids
      /\ msg = D.fail_msg "restart" d)
  \/ (wait = D.wait_scale_success fuel replicas
      /\ msg = D.fail_msg "restart" d) ->
  exists now polls,
    calls (wait (d, e)).2.2 = calls e ++ time_ns_call now :: polls
    /\ Forall (clockless_poll_of d) polls
    /\ forall x,
         (wait (d, e)).1 = Raise x ->
         exists ex,
           api_failed ex (time_ns_call now :: polls)
           /\ x = RuntimeFailToStart (msg +:+ ": " +:+ repr ex).
Proof.
  intros Hle Hwait.
  destruct (wait (d, e)) as [o [d' e']] eqn:Hrun. simpl.
  destruct Hwait as [[-> ->] | [[-> ->] | [-> ->]]].
  - unfold D.wait_start_success in Hrun. unfold bind at 1 in Hrun.
    unfold self at 1 in Hrun. cbv beta iota zeta in Hrun. cbn [fst] in Hrun.
    eapply wait_frame_no_deadline in Hrun; [done | done | |].
    + apply wait_start_turn_ok.
    + intros e0 o0 d0 e0' Hturn.
      exact (wait_scale_turn_clockless d (D.num_replicas d) e0 o0 d0 e0' Hturn).
  - unfold D.wait_restart_success in Hrun. unfold bind at 1 in Hrun.
    unfold self at 1 in Hrun. cbv beta iota zeta in Hrun. cbn [fst] in Hrun.
    eapply wait_frame_no_deadline in Hrun; [done | done | |].
    + apply wait_restart_turn_ok.
    + apply wait_restart_turn_clockless.
  - unfold D.wait_scale_success in Hrun. unfold bind at 1 in Hrun.
    unfold self at 1 in Hrun. cbv beta iota zeta in Hrun. cbn [fst] in Hrun.
    eapply wait_frame_no_deadline in Hrun; [done | done | |].
    + apply wait_scale_turn_ok.
    + apply wait_scale_turn_clockless.
Qed.

Lemma while_goes_on (Inv : W -> Prop) (d : D.t)
    (body : M (D.t * Env W) control) (now : Z) :
  turn_goes_on Inv d body ->
  forall fuel e,
    Inv (world e) ->
    (while_ fuel (D.before_deadline None now) body (d, e)).1 = OutOfFuel.
Proof.
  intros Hbody. induction fuel as [|fuel IH]; intros e Hinv; [done |].
  simpl. unfold bind at 1. unfold D.before_deadline. unfold ret at 1.
  unfold bind at 1.
  destruct (Hbody e Hinv) as (e1 & -> & Hinv1). by apply IH.
Qed.

(** With [timeout_ready] at 0 or below, on a cluster that keeps answering
    and never shows the awaited number of ready replicas,
    [wait_start_success] and [wait_scale_success] poll for ever: whatever
    the fuel, the run is cut off. *)
Theorem waits_without_deadline_poll_forever
    (Inv : W -> Prop) (n : Z) (d : D.t) :
  Namespace.timeout_ready (D.common_args d) <= 0 ->
  (forall w, Inv w -> Inv (time_ns w).2) ->
  (forall w, Inv w -> Inv (sleep w)) ->
  (forall w, Inv w ->
     exists st w',
       read_namespaced_deployment (D.dns_name d) (D.k8s_namespace d) w
       = (inr st, w')
       /\ Inv w'
       /\ V1DeploymentStatus.ready_replicas st <> Some n) ->
  forall fuel (e : Env W),
    Inv (world e) ->
    (D.wait_scale_success fuel n (d, e)).1 = OutOfFuel
    /\ (n = D.num_replicas d ->
        (D.wait_start_success fuel (d, e)).1 = OutOfFuel).
Proof.
  intros Hle Hclock Hsleep Hread fuel e Hinv.
  assert (turn_goes_on Inv d (D.wait_scale_turn n)) as Hturn.
  { intros e0 Hinv0. unfold D.wait_scale_turn, D._read_namespaced_deployment.
    run. destruct (Hread _ Hinv0) as (st & w' & -> & Hinv' & Hnot).
    destruct (is_count _ n) eqn:Hcount.
    - by apply is_count_true in Hcount.
    - eexists. split; [reflexivity |]. by apply Hsleep. }
  assert (forall body msg,
             turn_goes_on Inv d body ->
             ((now <- lift clock ;;
               exit <- while_ fuel (D.before_deadline None now) body ;;
               match exit with
               | Returned => ret tt
               | _ => D.raise_fail (A := unit) msg exit
               end) (d, e)).1 = OutOfFuel) as Hframe.
  { intros body msg Hbody. unfold bind at 1. unfold lift, clock. simpl.
    pose proof (Hclock _ Hinv) as Hinv1.
    destruct (time_ns (world e)) as [now w]. simpl in *. unfold bind at 1.
    pose proof (while_goes_on Inv d _ now Hbody fuel
                  {| world := w; calls := calls e ++ [time_ns_call now] |} Hinv1)
      as Hloop.
    destruct (while_ fuel _ _ _) as [oexit [d1 e1]]. simpl in Hloop.
    by rewrite Hloop. }
  split.
  - unfold D.wait_scale_success. unfold bind at 1. unfold self at 1.
    cbv beta iota zeta. cbn [fst]. rewrite (timeout_ns_of_nonpos _ Hle).
    by apply Hframe.
  - intros ->. unfold D.wait_start_success. unfold bind at 1. unfold self at 1.
    cbv beta iota zeta. cbn [fst]. rewrite (timeout_ns_of_nonpos _ Hle).
    apply Hframe. intros e0 Hinv0. exact (Hturn e0 Hinv0).
Qed.

(** A turn of the restart wait with an empty snapshot returns on counts
    that match, whatever pods are live. *)
Lemma wait_restart_turn_empty_snapshot (d : D.t) (e : Env W) st w uids w' :
  read_namespaced_deployment (D.dns_name d) (D.k8s_namespace d) (world e)
  = (inr st, w) ->
  list_namespaced_pod (D.k8s_namespace d) ("app=" +:+ D.dns_name d) w
  = (inr uids, w') ->
  V1DeploymentStatus.updated_replicas st = Some (D.num_replicas d) ->
  V1DeploymentStatus.replicas st = Some (D.num_replicas d) ->
  D.wait_restart_turn [] (d, e)
  = (Ret Return_,
     (d, {| world := w';
            calls := calls e ++
              [read_namespaced_deployment_call (D.dns_name d)
                 (D.k8s_namespace d) (inr st);
               list_namespaced_pod_call (D.k8s_namespace d)
                 ("app=" +:+ D.dns_name d) (inr uids)] |})).
Proof.
  intros Hread Hlist Hupd Htot.
  unfold D.wait_restart_turn, D._read_namespaced_deployment,
    D._has_pod_with_uid, D.get_pod_uids.
  unfold bind, ret, raise, lift, self, set_self, sleep_1s, api_call,
    try_except_ApiException. cbn -[String.append].
  rewrite Hread. cbn -[String.append]. rewrite Hlist. cbn -[String.append].
  rewrite Hupd, Htot. cbn -[String.append].
  rewrite Z.eqb_refl, bool_decide_eq_true_2 by done.
  cbn -[String.append]. by rewrite <- app_assoc.
Qed.

(** Called without the UIDs of the previous pods, [wait_restart_success]
    waits as with an empty snapshot: when the deadline lets its first turn
    begin and that turn reads updated and total counts equal to the recorded
    replicas, it returns at that turn whatever pods are live, although it
    still lists them. *)
Theorem wait_restart_without_snapshot_counts_only
    (fuel : nat) (d : D.t) (e : Env W) now w0 e1 st w uids w' :
  time_ns (world e) = (now, w0) ->
  D.before_deadline
    (timeout_ns_of (Namespace.timeout_ready (D.common_args d))) now
    (d, {| world := w0; calls := calls e ++ [time_ns_call now] |})
  = (Ret true, (d, e1)) ->
  read_namespaced_deployment (D.dns_name d) (D.k8s_namespace d) (world e1)
  = (inr st, w) ->
  list_namespaced_pod (D.k8s_namespace d) ("app=" +:+ D.dns_name d) w
  = (inr uids, w') ->
  V1DeploymentStatus.updated_replicas st = Some (D.num_replicas d) ->
  V1DeploymentStatus.replicas st = Some (D.num_replicas d) ->
  D.wait_restart_success (S fuel) None (d, e)
  = (Ret tt,
     (d, {| world := w';
            calls := calls e1 ++
              [read_namespaced_deployment_call (D.dns_name d)
                 (D.k8s_namespace d) (inr st);
               list_namespaced_pod_call (D.k8s_namespace d)
                 ("app=" +:+ D.dns_name d) (inr uids)] |}))
  /\ D.wait_restart_success (S fuel) None (d, e)
     = D.wait_restart_success (S fuel) (Some []) (d, e).
Proof.
  intros Hclock Hcond Hread Hlist Hupd Htot. split; [| reflexivity].
  unfold D.wait_restart_success. unfold bind at 1. unfold self at 1.
  cbv beta iota zeta. cbn [fst default].
  unfold bind at 1. unfold lift at 1, clock at 1. cbn [snd fst].
  rewrite Hclock. unfold bind at 1. cbn [while_]. unfold bind at 1.
  rewrite Hcond. unfold bind at 1.
  rewrite (wait_restart_turn_empty_snapshot d e1 st w uids w' Hread Hlist Hupd
             Htot).
  reflexivity.
Qed.

End NoDeadline.

(** ** A wait of the controller that returns, and the peas after a scale *)

Section PodWaitAndScale.
Context {W : Type} `{Platform W} `{Externals}.

Lemma seen_ready_app d pre cs post :
  seen_ready d cs -> seen_ready d (pre ++ cs ++ post).
Proof.
  intros (st & Hin & Hready). exists st. split; [| done].
  rewrite !elem_of_app. auto.
Qed.

(** A wait of a handle that returns has seen the handle ready. *)
Lemma handle_wait_seen_ready fuel d e d' e' :
  D.wait_start_success fuel (d, e) = (Ret tt, (d', e')) ->
  d' = d /\ exists new, calls e' = calls e ++ new /\ seen_ready d new.
Proof.
  intros Hrun.
  apply wait_start_success_runs in Hrun as (-> & new & Hcalls & Hres).
  split; [done |]. exists new. split; [done |]. simpl in Hres.
  destruct Hres as (now & pre & obs & -> & _ & st & -> & Hready).
  exists st. split; [| done].
  rewrite elem_of_cons, elem_of_app, list_elem_of_singleton. auto.
Qed.

Lemma workers_wait_seen_ready fuel ds e ds' e' :
  folds_over (fun _ : unit => D.wait_start_success fuel) ds tt e (Ret tt) ds' e' ->
  exists waits,
    calls e' = calls e ++ waits /\ Forall (fun d => seen_ready d waits) ds.
Proof.
  intros Hfold. remember (Ret tt) as o eqn:Ho. revert Ho.
  induction Hfold as [b e | d ds b e ex d' e' Hb | d ds b e d' e' Hb
                      | d ds b e b1 d' e1 o ds' e' Hb Hrest IH]; intros Ho;
    repeat match goal with u : unit |- _ => destruct u end.
  - exists []. by rewrite app_nil_r.
  - done.
  - done.
  - apply handle_wait_seen_ready in Hb as (-> & new & Hcalls & Hseen).
    destruct (IH Ho) as (waits & Hcalls' & Hall).
    exists (new ++ waits). split; [by rewrite Hcalls', Hcalls, <- app_assoc |].
    constructor.
    + rewrite <- (app_nil_l (new ++ waits)). by apply seen_ready_app.
    + eapply Forall_impl; [exact Hall |]. intros d0 Hd0.
      rewrite <- (app_nil_r waits). by apply seen_ready_app.
Qed.

(** When [wait_start_success] of the controller returns, the controller is
    as it was, nothing was deleted, the calls made are polls of its handles,
    and every handle, the head included, has been seen with as many ready
    replicas as it records. *)
Theorem pod_wait_start_success_returns_when_all_ready fuel p e p' e' :
  K8sPod.wait_start_success fuel (p, e) = (Ret tt, (p', e')) ->
  p' = p
  /\ Namespace.noblock_on_start (K8sPod.args p) = true
  /\ exists waits,
       calls e' = calls e ++ waits
       /\ Forall (handle_poll p) waits
       /\ deletions waits = []
       /\ Forall (fun d => seen_ready d waits) (handles p).
Proof.
  intros Hrun. unfold K8sPod.wait_start_success in Hrun.
  unfold bind at 1 in Hrun. unfold self at 1 in Hrun.
  cbv beta iota zeta in Hrun. cbn [fst] in Hrun.
  destruct (Namespace.noblock_on_start (K8sPod.args p)) eqn:Hnoblock;
    [| done].
  cbn [negb] in Hrun. cbv beta iota in Hrun. unfold try_except in Hrun.
  match type of Hrun with
  | match ?waits with _ => _ end = _ =>
      destruct waits as [o1 [p1 e1]] eqn:Hwaits
  end.
  pose proof (wait_all_handles _ _ _ _ _ _ Hwaits) as (-> & waits & Hcalls & Hpolls & _).
  destruct o1 as [[]|ex1|]; [| | done].
  2:{ unfold bind in Hrun. by destruct (K8sPod.close _) as [[[]| |] ?]. }
  injection Hrun as <- <-. split; [done |]. split; [done |].
  exists waits. split_and!; [done | done | |].
  - clear Hcalls Hwaits. unfold deletions.
    induction Hpolls as [|c cs (d & _ & Hc) _ IH]; [done |].
    simpl. by destruct c.
  - unfold bind at 1 in Hwaits. unfold handles.
    destruct (K8sPod.k8s_head_deployment p) as [h|] eqn:Hh.
    + destruct (D.wait_start_success fuel (h, e)) as [oh [dh eh]] eqn:Hhead.
      pose proof (wait_start_success_runs _ _ _ _ _ _ Hhead) as [-> _].
      rewrite (on_same K8sPod.head_ref _ p e h oh eh) in Hwaits by done.
      destruct oh as [[]| |]; [| done | done].
      apply handle_wait_seen_ready in Hhead as (_ & newh & Hcallsh & Hseenh).
      apply (for_each_workers _ (D.wait_start_success fuel)) in Hwaits
        as (ds' & _ & Hfold); [| apply acts_on | done].
      apply workers_wait_seen_ready in Hfold as (neww & Hcallsw & Hseenw).
      assert (waits = newh ++ neww) as ->.
      { rewrite Hcallsw, Hcallsh, <- app_assoc in Hcalls.
        by apply app_inv_head in Hcalls. }
      constructor.
      * rewrite <- (app_nil_l (newh ++ neww)). by apply seen_ready_app.
      * eapply Forall_impl; [exact Hseenw |]. intros d0 Hd0.
        rewrite <- (app_nil_r neww). by apply seen_ready_app.
    + unfold ret at 1 in Hwaits.
      apply (for_each_workers _ (D.wait_start_success fuel)) in Hwaits
        as (ds' & _ & Hfold); [| apply acts_on | done].
      apply workers_wait_seen_ready in Hfold as (neww & Hcallsw & Hseenw).
      rewrite Hcallsw in Hcalls. by apply app_inv_head in Hcalls as ->.
Qed.

Lemma folds_over_raised {B} (body : B -> M (D.t * Env W) B) ds b e x ds' e' :
  folds_over body ds b e (Raise x) ds' e' ->
  exists b0 d e0 d0 e1, body b0 (d, e0) = (Raise x, (d0, e1)).
Proof.
  intros Hfold. remember (Raise x) as o eqn:Ho. revert Ho.
  induction Hfold as [| ? ? ? ? ? ? ? Hb | ? ? ? ? ? ? Hb
                      | ? ? ? ? ? ? ? ? ? ? Hb _ IH]; intros Ho;
    [done | | done | by apply IH].
  injection Ho as ->. by eexists _, _, _, _, _.
Qed.

(** After a [scale] that returned, [num_peas] counts the target for every
    worker and, for the head, what it counted before; a [scale] that raised an
    [ApiException], which only a patch can make it raise, has changed no
    recorded count. *)
Theorem pod_scale_num_peas fuel replicas p e o p' e' :
  K8sPod.scale fuel replicas (p, e) = (o, (p', e')) ->
  head_peas p' = head_peas p
  /\ (o = Ret tt ->
      K8sPod.num_peas p'
      = head_peas p + Z.of_nat (length (K8sPod.k8s_deployments p)) * replicas)
  /\ (forall ex, o = Raise (ApiExc ex) ->
      K8sPod.k8s_deployments p' = K8sPod.k8s_deployments p
      /\ K8sPod.num_peas p' = K8sPod.num_peas p).
Proof.
  intros Hrun.
  apply scale_runs in Hrun as (ds' & o1 & e1 & -> & Hfan & Hrest).
  split; [done |]. split.
  - intros ->. destruct o1 as [[]|ex|]; [| by destruct Hrest | by destruct Hrest].
    apply scale_wait_all in Hrest as (_ & k & _ & _ & _ & -> & Hall & _).
    rewrite (Hall eq_refl), firstn_all, drop_all, app_nil_r.
    unfold K8sPod.num_peas, head_peas. cbn [K8sPod.k8s_head_deployment
      K8sPod.k8s_deployments K8sPod.set_k8s_deployments].
    rewrite fold_left_app. simpl.
    rewrite (fold_left_add_const _ replicas).
    + by rewrite !length_fmap.
    + apply Forall_forall. intros r Hr.
      apply list_elem_of_fmap in Hr as (d & -> & Hd).
      by apply list_elem_of_fmap in Hd as (d0 & -> & _).
  - intros ex ->. destruct o1 as [[]|ex1|].
    + apply folds_over_raised in Hrest as (b0 & d & e0 & d0 & e2 & Hstep).
      unfold bind in Hstep.
      destruct (D.wait_scale_success fuel replicas (d, e0))
        as [ow [dw ew]] eqn:Hwait.
      apply wait_scale_success_runs in Hwait as (_ & new & _ & Hres).
      destruct ow as [[]|x|]; [done | | done].
      injection Hstep as -> _ _. simpl in Hres.
      by destruct Hres as [[_ ?] | (? & _ & ?)].
    + destruct Hrest as (_ & -> & _).
      by rewrite set_k8s_deployments_id.
    + by destruct Hrest.
Qed.

End PodWaitAndScale.

(** * Examples on the scripted cluster *)

Import Scripted.

(** A run is its outcome, its object and its environment. *)
Lemma run_eta {A X S} (r : outcome A * (X * S)) : r = (r.1, (r.2.1, r.2.2)).
Proof. by destruct r as [? [? ?]]. Defined.

(** [C5] on the Pod ["enc"] with two shards. *)
Lemma partition_non_gateway_witness :
  exists head workers,
    _parse_deployment_args "enc" "ns"
      (pod_args "enc" (Some 2) true false None 2000)
    = Ret {| head_deployment := Some head; deployments := workers |}
    /\ Namespace.replicas head = Some 1
    /\ Namespace.pea_role head = Some HEAD
    /\ length workers = Z.to_nat 2
    /\ map Namespace.shard_id workers = map Some (seqZ 0 2).
Proof.
  apply (partition_non_gateway "enc" "ns"
           (pod_args "enc" (Some 2) true false None 2000) 2);
    [by intros [=] | reflexivity | lia].
Defined.



(** [C4] on the gateway with its single shard. *)
Lemma partition_gateway_witness :
  exists workers,
    _parse_deployment_args "gateway" "ns"
      (pod_args "gateway" (Some 1) true false None 2000)
    = Ret {| head_deployment := None; deployments := workers |}
    /\ length workers = Z.to_nat 1
    /\ map Namespace.shard_id workers = map Some (seqZ 0 1)
    /\ Forall (fun w => Namespace.pea_role w = Some GATEWAY) workers
    /\ (1 = 1 -> exists w, workers = [w]).
Proof.
  apply (partition_gateway "gateway" "ns"
           (pod_args "gateway" (Some 1) true false None 2000) 1);
    reflexivity.
Defined.

(** Against [C4] as stated: a gateway configured with two shards is not
    partitioned into a single spec. *)
Lemma partition_gateway_two_shards :
  ~ exists w,
      _parse_deployment_args "gateway" "ns"
        (pod_args "gateway" (Some 2) true false None 2000)
      = Ret {| head_deployment := None; deployments := [w] |}.
Proof. intros [w Hw]. vm_compute in Hw. discriminate Hw. Qed.

(** [C9] on the gateway with a uses-before executor. *)
Lemma partition_gateway_sidecar_raises_witness :
  exists attr,
    _parse_deployment_args "gateway" "ns"
      (pod_args "gateway" (Some 1) true false (Some "docker://pre"%string) 2000)
    = Raise (AttributeError
               ("'NoneType' object has no attribute '" +:+ attr +:+ "'")).
Proof.
  apply (partition_gateway_sidecar_raises "gateway" "ns"
           (pod_args "gateway" (Some 1) true false (Some "docker://pre"%string)
              2000));
    [reflexivity | left; reflexivity].
Defined.

(** [C1] on a restart wait that succeeds at its first turn, and on a turn
    that sees the snapshot UID ["old"] still live while desired = updated =
    total = 3. *)
Lemma wait_restart_success_only_when_restarted_witness :
  (exists now pre st uids,
     calls (D.wait_restart_success 3 (Some ["old"%string])
              (enc_worker 2000, settled 3 ["new"%string])).2.2
     = [] ++ time_ns_call now :: pre ++
         [read_namespaced_deployment_call "enc" "ns" (inr st);
          list_namespaced_pod_call "ns" "app=enc" (inr uids)]
     /\ V1DeploymentStatus.updated_replicas st = Some 3
     /\ V1DeploymentStatus.replicas st = Some 3
     /\ forall uid, uid ∈ ["old"%string] -> uid ∉ uids)
  /\ (D.wait_restart_turn ["old"%string]
        (enc_worker 2000, settled 3 ["new"; "old"]%string)).1
     = Ret Continue.
Proof.
  split.
  - apply (proj1 (wait_restart_success_only_when_restarted 3 ["old"%string]
                    (enc_worker 2000) (settled 3 ["new"%string]))
             (enc_worker 2000)).
    vm_compute. reflexivity.
  - erewrite (proj2 (wait_restart_success_only_when_restarted 3 ["old"%string]
                       (enc_worker 2000) (settled 3 ["new"; "old"]%string)));
      [reflexivity | reflexivity | reflexivity | | ].
    + apply list_elem_of_here.
    + apply list_elem_of_further, list_elem_of_here.
Defined.

(** Against [C2] as stated: in a blocking [start] of ["enc"] whose second
    worker cannot be read, the failure leaves [start] after the head and the
    two workers were deployed, and nothing was deleted. *)
Lemma blocking_start_failure_deletes_nothing :
  let r := K8sPod.start 3 (enc_pod false, second_shard_unreadable) in
  (exists msg, r.1 = Raise (RuntimeFailToStart msg))
  /\ map (fun c => match c with
                   | deploy_service_call req (inr _) =>
                       Some (DeployService.name req)
                   | _ => None
                   end)
         (List.filter (fun c => match c with
                                | deploy_service_call _ _ => true
                                | _ => false
                                end) (calls r.2.2))
     = [Some "enc-head"; Some "enc-0"; Some "enc-1"]%string
  /\ deletions (calls r.2.2) = [].
Proof. vm_compute. split; [by eexists | done]. Qed.

(** [C2], as the code has it, on a non-blocking [start] of ["enc"] followed
    by [wait_start_success], on a cluster where the second worker cannot be
    read: the three deployments are deleted, newest first, before the failure
    is re-raised. *)
Lemma pod_wait_start_success_closes_on_failure_witness :
  let s1 := (K8sPod.start 3 (enc_pod true, second_shard_unreadable)).2 in
  let r := K8sPod.wait_start_success 3 s1 in
  (exists msg, r.1 = Raise (RuntimeFailToStart msg))
  /\ exists e1 waits deletes,
       folds_over (fun _ : unit => D.wait_start_success 3)
         (handles s1.1) tt s1.2
         (Raise (RuntimeFailToStart
                   (" Deployment enc-1 did not start with a timeout of 2000"
                    +:+ ": ApiException(Not Found)")))
         (handles s1.1) e1
       /\ calls e1 = calls s1.2 ++ waits
       /\ calls r.2.2 = calls e1 ++ deletes
       /\ Forall2 delete_call_of (reverse (handles s1.1)) deletes
       /\ K8sPod.exit_callbacks r.2.1 = []
       /\ map D.dns_name (reverse (handles s1.1))
          = ["enc-1"; "enc-0"; "enc-head"]%string.
Proof.
  intros s1 r. split; [vm_compute; by eexists |].
  destruct (pod_wait_start_success_closes_on_failure 3 3
              (enc_pod true) second_shard_unreadable s1.1 s1.2
              (Raise (RuntimeFailToStart
                        (" Deployment enc-1 did not start with a timeout of 2000"
                         +:+ ": ApiException(Not Found)")))
              r.2.1 r.2.2)
    as (e1 & waits & deletes & Hfold & Hwaits & _ & Hcalls & _ & Hdeletes
        & Hstack & _).
  - reflexivity.
  - vm_compute. reflexivity.
  - reflexivity.
  - vm_compute. reflexivity.
  - exists e1, waits, deletes.
    split; [exact Hfold |]. split; [exact Hwaits |]. split; [exact Hcalls |].
    split; [exact Hdeletes |]. split; [exact Hstack |]. vm_compute. reflexivity.
Defined.

(** Against [C3] as stated: in a rolling update of ["enc"] on a cluster
    where the first worker cannot be read, the wait of the first worker raises
    and the deployment of the second worker is never read: its wait was not
    started. *)
Lemma rolling_update_stops_at_first_failure :
  let r := K8sPod.rolling_update 3 None None
             (enc_pod true, first_shard_unreadable) in
  (exists msg, r.1 = Raise (RuntimeFailToStart msg))
  /\ existsb (reads_deployment "enc-0") (calls r.2.2) = true
  /\ existsb (reads_deployment "enc-1") (calls r.2.2) = false.
Proof. vm_compute. split; [by eexists | done]. Qed.

(** [C3], as the code has it, on a rolling update of ["enc"] on a cluster
    whose old pods are gone after a second. *)
Lemma pod_rolling_update_replaces_then_waits_in_turn_witness :
  let r := K8sPod.rolling_update 3 None None (enc_pod true, rolling) in
  r.1 = Ret tt
  /\ exists old_uids e1 replaces waits,
       calls e1 = calls rolling ++ replaces
       /\ replace_phase replaces
       /\ calls r.2.2 = calls e1 ++ waits
       /\ Forall (worker_poll (K8sPod.k8s_deployments r.2.1)) waits
       /\ waits_in_turn 3 old_uids (K8sPod.k8s_deployments r.2.1) e1 (Ret tt)
            r.2.2
       /\ waits <> [].
Proof.
  intros r. assert (r.1 = Ret tt) as Hret by (vm_compute; reflexivity).
  split; [exact Hret |].
  destruct (pod_rolling_update_replaces_then_waits_in_turn 3 None None
              (enc_pod true) rolling r.1 r.2.1 r.2.2 (run_eta r))
    as (_ & o1 & e1 & replaces & waits & _ & Hcalls & Hphase & Hwaits & Hpolls
        & Ho1).
  destruct o1 as [old_uids|ex|].
  - destruct Ho1 as (_ & Hturn & Hsome).
    exists old_uids, e1, replaces, waits.
    split; [exact Hcalls |]. split; [exact Hphase |].
    split; [exact Hwaits |]. split; [exact Hpolls |].
    split; [by rewrite <- Hret | apply Hsome; discriminate].
  - destruct Ho1 as [Ho1 _]. rewrite Hret in Ho1. discriminate Ho1.
  - destruct Ho1.
Defined.

(** [C7] on scaling ["enc"] to four replicas on a cluster that shows
    four. *)
Lemma pod_scale_fans_out_then_waits_witness :
  let r := K8sPod.scale 3 4 (enc_pod true, settled 4 []) in
  r.1 = Ret tt
  /\ K8sPod.k8s_head_deployment r.2.1 = K8sPod.k8s_head_deployment (enc_pod true)
  /\ exists k,
       K8sPod.k8s_deployments r.2.1
       = (D.set_num_replicas 4 <$> take k (K8sPod.k8s_deployments (enc_pod true)))
         ++ drop k (K8sPod.k8s_deployments (enc_pod true))
       /\ k = length (K8sPod.k8s_deployments (enc_pod true))
       /\ forall i d d',
            K8sPod.k8s_deployments (enc_pod true) !! i = Some d ->
            K8sPod.k8s_deployments r.2.1 !! i = Some d' ->
            if decide (i < k)%nat then records_replicas 4 d d' else d' = d.
Proof.
  intros r. assert (r.1 = Ret tt) as Hret by (vm_compute; reflexivity).
  split; [exact Hret |].
  destruct (pod_scale_fans_out_then_waits 3 4 (enc_pod true) (settled 4 [])
              r.1 r.2.1 r.2.2)
    as (Hhead & _ & patches & waits & k & _ & _ & _ & _ & Hset & Hall & _ & _
        & Hrecords & _).
  - apply run_eta.
  - split; [exact Hhead |]. exists k. split; [exact Hset |].
    split; [exact (Hall Hret) | exact Hrecords].
Defined.

(** Against [C8] as stated: two waits that time out after observing
    different counts raise the same failure, so the counts are not in it. *)
Lemma timeout_failure_carries_no_counts :
  let r0 := D.wait_start_success 5 (enc_worker 2000, settled 0 []) in
  let r1 := D.wait_start_success 5 (enc_worker 2000, settled 1 []) in
  r0.1 = Raise (RuntimeFailToStart
                  " Deployment enc did not start with a timeout of 2000")
  /\ r1.1 = r0.1
  /\ deadline_elapsed 2000 (calls r0.2.2)
  /\ deadline_elapsed 2000 (calls r1.2.2)
  /\ last_observed (calls r0.2.2) ≠ last_observed (calls r1.2.2).
Proof.
  intros r0 r1.
  pose (mid := fun n : Z =>
          [time_ns_call 0;
           read_namespaced_deployment_call "enc" "ns" (counts n n n);
           sleep_call; time_ns_call 1000000000;
           read_namespaced_deployment_call "enc" "ns" (counts n n n);
           sleep_call]).
  split; [vm_compute; reflexivity |]. split; [vm_compute; reflexivity |].
  split; [| split].
  - exists 2000000000, 0, (mid 0), 2000000000.
    split; [reflexivity |]. split; [vm_compute; reflexivity |].
    split; [by repeat constructor | done].
  - exists 2000000000, 0, (mid 1), 2000000000.
    split; [reflexivity |]. split; [vm_compute; reflexivity |].
    split; [by repeat constructor | done].
  - vm_compute. intros [=].
Qed.

(** [C10] on a controller built for a blocking start. *)
Lemma pod_wait_start_success_requires_noblock_witness :
  exists msg,
    K8sPod.wait_start_success 3 (enc_pod false, settled 3 [])
    = (Raise (ValueError msg), (enc_pod false, settled 3 [])).
Proof.
  apply (pod_wait_start_success_requires_noblock 3 (enc_pod false)
           (settled 3 [])).
  reflexivity.
Defined.

(** Four turns are enough for a wait with a deadline of two seconds to
    return or raise. *)
Lemma finite_deadline_waits_end_witness :
  (D.wait_start_success 4 (enc_worker 2000, settled 0 [])).1 <> OutOfFuel
  /\ (D.wait_restart_success 4 None (enc_worker 2000, settled 0 [])).1
     <> OutOfFuel
  /\ (D.wait_scale_success 4 5 (enc_worker 2000, settled 0 [])).1
     <> OutOfFuel.
Proof.
  apply (finite_deadline_waits_end 4 None 5 (enc_worker 2000) (settled 0 [])
           2000000000); [reflexivity | vm_compute; lia].
Defined.

(** The two worker specs of the Pod ["enc"]. *)
Lemma partition_worker_specs_witness :
  length (deployments (parsed (pod_args "enc" (Some 2) true true None 2000)))
  = Z.to_nat (default 1 (Some 2)).
Proof.
  apply (partition_worker_specs "enc" "ns"
           (pod_args "enc" (Some 2) true true None 2000)).
  vm_compute. reflexivity.
Defined.

(** The head spec of a Pod ["enc"] with a uses-before executor. *)
Lemma partition_head_spec_witness :
  exists head,
    head_deployment
      (parsed (pod_args "enc" (Some 2) true true (Some "exec"%string) 2000))
    = Some head
    /\ Namespace.uses_before_address head = Some "127.0.0.1:8082"%string
    /\ Namespace.uses_before head = Some "exec"%string.
Proof.
  destruct (partition_head_spec "enc" "ns"
              (pod_args "enc" (Some 2) true true (Some "exec"%string) 2000))
    as (head & workers & Hparse & _ & _ & _ & Hub & _ & Haddr & _).
  - intros Hname. vm_compute in Hname. discriminate.
  - exists head. unfold parsed.
    change (Namespace.name (pod_args "enc" (Some 2) true true (Some "exec"%string) 2000))
      with "enc"%string.
    change (Namespace.k8s_namespace
              (pod_args "enc" (Some 2) true true (Some "exec"%string) 2000))
      with "ns"%string.
    rewrite Hparse. split; [reflexivity |]. split; [| exact Hub].
    rewrite Haddr. vm_compute. reflexivity.
Defined.

(** The Pod ["enc"] with no shard and the managed pool disabled. *)
Lemma partition_without_shards_witness :
  exists head,
    _parse_deployment_args "enc" "ns"
      (pod_args "enc" (Some 0) false true None 2000)
    = Ret {| head_deployment := Some head; deployments := [] |}
    /\ Namespace.connection_list head = Some "}"%string.
Proof.
  destruct (partition_without_shards "enc" "ns"
              (pod_args "enc" (Some 0) false true None 2000))
    as (head & Hparse & Hlist).
  - intros Hname. vm_compute in Hname. discriminate.
  - simpl. lia.
  - exists head. split; [exact Hparse |]. apply Hlist. reflexivity.
Defined.

(** The handles of the Pod ["enc"] with two shards. *)
Lemma init_handles_witness :
  K8sPod.exit_callbacks (enc_pod true) = []
  /\ length (K8sPod.k8s_deployments (enc_pod true))
     = Z.to_nat (default 1 (Some 2)).
Proof.
  destruct (init_handles (pod_args "enc" (Some 2) true true None 2000) ∅
              "master" (enc_pod true))
    as (_ & Hstack & _ & _ & Hlen & _).
  - vm_compute. reflexivity.
  - split; [exact Hstack | exact Hlen].
Defined.

(** The two workers of ["enc"] have distinct names. *)
Lemma init_worker_names_distinct_witness :
  NoDup (D.name <$> K8sPod.k8s_deployments (enc_pod true)).
Proof.
  destruct (init_worker_names_distinct
              (pod_args "enc" (Some 2) true true None 2000) ∅ "master"
              (enc_pod true)) as [Hnames _].
  - vm_compute. reflexivity.
  - exact Hnames.
Defined.

(** ["enc"], with two shards of three replicas and its head, has seven
    peas. *)
Lemma init_num_peas_witness : K8sPod.num_peas (enc_pod true) = 7.
Proof.
  rewrite (init_num_peas (pod_args "enc" (Some 2) true true None 2000) ∅
             "master" (enc_pod true)).
  - reflexivity.
  - vm_compute. reflexivity.
Defined.

(** ["enc"] shows three nodes. *)
Lemma init_deployments_nodes_witness :
  exists nodes,
    K8sPod.deployments (enc_pod true) = Ret nodes
    /\ length nodes = S (Z.to_nat (default 1 (Some 2))).
Proof.
  destruct (init_deployments_nodes
              (pod_args "enc" (Some 2) true true None 2000) ∅ "master"
              (enc_pod true))
    as (nodes & Hnodes & Hlen & _).
  - vm_compute. reflexivity.
  - intros Hname. vm_compute in Hname. discriminate.
  - exists nodes. split; [exact Hnodes | exact Hlen].
Defined.

(** The gateway shows its one deployment. *)
Lemma init_gateway_deployments_witness :
  exists node,
    K8sPod.deployments (new_pod (gateway_args true)) = Ret [node]
    /\ Node.head_port_in node = 8081.
Proof.
  destruct (init_gateway_deployments (gateway_args true) ∅ "master"
              (new_pod (gateway_args true)))
    as [Hone _].
  - vm_compute. reflexivity.
  - reflexivity.
  - destruct Hone as (node & Hnode & _ & Hport); [simpl; lia |].
    exists node. split; [exact Hnode | exact Hport].
Defined.

(** The connection list of ["enc"] with the managed pool disabled. *)
Lemma init_connection_list_names_worker_nodes_witness :
  exists h,
    K8sPod.k8s_head_deployment
      (new_pod (pod_args "enc" (Some 2) false true None 2000)) = Some h
    /\ is_Some (Namespace.connection_list (D.deployment_args h)).
Proof.
  destruct (init_connection_list_names_worker_nodes
              (pod_args "enc" (Some 2) false true None 2000) ∅ "master"
              (new_pod (pod_args "enc" (Some 2) false true None 2000)))
    as (h & Hhead & Hlist).
  - vm_compute. reflexivity.
  - intros Hname. vm_compute in Hname. discriminate.
  - reflexivity.
  - simpl. lia.
  - intros d Hd. vm_compute in Hd.
    repeat (apply elem_of_cons in Hd as [-> | Hd]; [reflexivity |]).
    by apply elem_of_nil in Hd.
  - exists h. split; [exact Hhead |]. rewrite Hlist. by eexists.
Defined.

(** A blocking start of the worker of ["enc"] on a cluster that shows its
    three replicas. *)
Lemma handle_start_deploys_once_witness :
  let r := D.start 3 (enc_worker 2000, settled 3 []) in
  exists req resp polls,
    calls r.2.2 = calls (settled 3 []) ++ deploy_service_call req resp :: polls
    /\ DeployService.name req = D.dns_name (enc_worker 2000)
    /\ DeployService.namespace req = D.k8s_namespace (enc_worker 2000)
    /\ DeployService.replace_deployment req = false
    /\ match resp with
       | inl ex => True
       | inr address => records_address address (enc_worker 2000) r.2.1
       end.
Proof.
  intros r.
  destruct (handle_start_deploys_once 3 (enc_worker 2000) (settled 3 [])
              r.1 r.2.1 r.2.2)
    as (req & resp & polls & Hcalls & Hname & Hns & Hrepl & _ & _ & _
        & Hrecords).
  - apply run_eta.
  - exists req, resp, polls.
    split; [exact Hcalls |]. split; [exact Hname |].
    split; [exact Hns |]. split; [exact Hrepl | exact Hrecords].
Defined.

(** A blocking start of the gateway's handle, which records three
    replicas, on a cluster that shows three. *)
Lemma gateway_handle_start_witness :
  let r := D.start 3 (gateway_handle false, settled 3 []) in
  exists req address now pre st,
    calls r.2.2
    = calls (settled 3 []) ++ deploy_service_call req (inr address)
      :: time_ns_call now
      :: pre ++ [read_namespaced_deployment_call
                   (D.dns_name (gateway_handle false))
                   (D.k8s_namespace (gateway_handle false)) (inr st)]
    /\ DeployService.replicas req = 1
    /\ V1DeploymentStatus.ready_replicas st
       = Some (D.num_replicas (gateway_handle false)).
Proof.
  intros r.
  destruct (gateway_handle_start 3 (gateway_handle false) (settled 3 [])
              r.2.1 r.2.2)
    as (req & address & now & pre & st & Hcalls & Hone & _ & _ & _ & Hready & _).
  - reflexivity.
  - reflexivity.
  - vm_compute. reflexivity.
  - exists req, address, now, pre, st.
    split; [exact Hcalls |]. split; [exact Hone | exact Hready].
Defined.

(** A rolling update of the worker of ["enc"] with a dump path. *)
Lemma handle_rolling_update_stores_arguments_witness :
  let r := D.rolling_update (Some "/dump"%string) None
             (enc_worker 2000, settled 3 []) in
  Namespace.dump_path (D.deployment_args r.2.1) = Some "/dump"%string
  /\ exists m,
       Namespace.uses_with (D.deployment_args r.2.1) = Some m
       /\ m !! "dump_path"%string = Some "/dump"%string.
Proof.
  intros r.
  destruct (handle_rolling_update_stores_arguments (Some "/dump"%string) None
              (enc_worker 2000) (settled 3 []) r.1 r.2.1 r.2.2)
    as (Hpath & Hwith & _).
  - intros Hname. vm_compute in Hname. discriminate.
  - apply run_eta.
  - split; [exact Hpath |].
    destruct (Hwith "/dump"%string eq_refl) as (m & Hm & Hkey & _).
    exists m. split; [exact Hm | exact Hkey].
Defined.

(** A rolling update of ["enc"] on a cluster whose old pods are gone after
    a second. *)
Lemma pod_rolling_update_stores_arguments_witness :
  let r := K8sPod.rolling_update 3 (Some "/dump"%string) None
             (enc_pod true, rolling) in
  K8sPod.k8s_head_deployment r.2.1 = K8sPod.k8s_head_deployment (enc_pod true)
  /\ Forall2 (holds_update (Some "/dump"%string) None)
       (K8sPod.k8s_deployments (enc_pod true)) (K8sPod.k8s_deployments r.2.1).
Proof.
  intros r.
  destruct (pod_rolling_update_stores_arguments 3 (Some "/dump"%string) None
              (enc_pod true) rolling r.2.1 r.2.2)
    as (Hhead & _ & Hall).
  - transitivity (r.1, (r.2.1, r.2.2)); [apply run_eta |].
    f_equal; vm_compute; reflexivity.
  - split; [exact Hhead | exact Hall].
Defined.

(** A rolling update of the gateway. *)
Lemma pod_rolling_update_refused_for_gateway_witness :
  let r := K8sPod.rolling_update 3 None None
             (new_pod (gateway_args true), settled 3 []) in
  r.2.1 = new_pod (gateway_args true)
  /\ exists resp,
       calls r.2.2
       = calls (settled 3 [])
         ++ [list_namespaced_pod_call (D.k8s_namespace (gateway_handle true))
               ("app=" +:+ D.dns_name (gateway_handle true)) resp].
Proof.
  intros r.
  destruct (pod_rolling_update_refused_for_gateway 3 None None
              (new_pod (gateway_args true)) (settled 3 []) r.1 r.2.1 r.2.2
              (gateway_handle true) [])
    as (Hsame & resp & Hcalls & _).
  - vm_compute. reflexivity.
  - reflexivity.
  - apply run_eta.
  - split; [exact Hsame |]. exists resp. exact Hcalls.
Defined.

(** A start of ["enc"] that does not block. *)
Lemma pod_start_deploys_head_then_workers_witness :
  let r := K8sPod.start 3 (enc_pod true, settled 3 []) in
  exists news,
    calls r.2.2 = calls (settled 3 []) ++ concat news
    /\ Forall2 start_calls_of (take (length news) (handles (enc_pod true))) news
    /\ deletions (concat news) = []
    /\ folds_over (fun _ : unit => D.start 3) (handles (enc_pod true)) tt
         (settled 3 []) r.1 (handles r.2.1) r.2.2.
Proof.
  intros r.
  destruct (pod_start_deploys_head_then_workers 3 (enc_pod true)
              (settled 3 []) r.1 r.2.1 r.2.2)
    as (news & Hcalls & Hall & _ & _ & Hnone & _ & Hfold).
  - apply run_eta.
  - exists news. split; [exact Hcalls |]. split; [exact Hall |].
    split; [exact Hnone | exact Hfold].
Defined.

(** Closing ["enc"] after it has started. *)
Lemma pod_close_is_idempotent_witness :
  let s1 := (K8sPod.start 3 (enc_pod true, settled 3 [])).2 in
  exists p' e',
    K8sPod.close (s1.1, s1.2) = (Ret tt, (p', e'))
    /\ K8sPod.exit_callbacks p' = []
    /\ K8sPod.close (p', e') = (Ret tt, (p', e')).
Proof.
  intros s1.
  destruct (pod_close_is_idempotent s1.1 s1.2)
    as (p' & e' & deletes & Hclose & _ & _ & Hstack & _ & Hagain).
  - vm_compute. repeat constructor; by eexists.
  - exists p', e'. split; [exact Hclose |]. split; [exact Hstack | exact Hagain].
Defined.

(** Leaving ["enc"] after a blocking start that stopped at its second
    worker. *)
Lemma pod_exit_deletes_what_start_entered_witness :
  let r := K8sPod.start 3 (enc_pod false, second_shard_unreadable) in
  exists k starts deletes p2 e2,
    calls r.2.2 = calls second_shard_unreadable ++ starts
    /\ K8sPod.__exit__ (r.2.1, r.2.2) = (Ret tt, (p2, e2))
    /\ calls e2 = calls r.2.2 ++ deletes
    /\ Forall2 delete_call_of (reverse (take k (handles (enc_pod false))))
         deletes
    /\ length (List.filter is_deployment starts)
       = match r.1 with
         | Ret _ => k
         | _ => S k
         end.
Proof.
  intros r.
  destruct (pod_exit_deletes_what_start_entered 3 (enc_pod false)
              second_shard_unreadable r.1 r.2.1 r.2.2)
    as (k & starts & deletes & p2 & e2 & Hcalls & Hexit & Hcalls2 & Hall & _ & _
        & Hcount).
  - reflexivity.
  - apply run_eta.
  - exists k, starts, deletes, p2, e2.
    split; [exact Hcalls |]. split; [exact Hexit |].
    split; [exact Hcalls2 |]. split; [exact Hall | exact Hcount].
Defined.

(** The wait of ["enc"] on a cluster where every deployment is ready. *)
Lemma pod_wait_start_success_returns_when_all_ready_witness :
  let s1 := (K8sPod.start 3 (enc_pod true, all_ready)).2 in
  let r := K8sPod.wait_start_success 3 s1 in
  r.2.1 = s1.1
  /\ exists waits,
       calls r.2.2 = calls s1.2 ++ waits
       /\ Forall (fun d => seen_ready d waits) (handles s1.1).
Proof.
  intros s1 r.
  destruct (pod_wait_start_success_returns_when_all_ready 3 s1.1 s1.2
              r.2.1 r.2.2)
    as (Hsame & _ & waits & Hcalls & _ & _ & Hseen).
  - vm_compute. reflexivity.
  - split; [exact Hsame |]. exists waits. split; [exact Hcalls | exact Hseen].
Defined.

(** A wait without deadline on a cluster that cannot be read. *)
Lemma waits_without_deadline_fail_only_on_api_error_witness :
  exists now polls,
    calls (D.wait_start_success 3 (enc_worker 0, unreadable)).2.2
    = calls unreadable ++ time_ns_call now :: polls
    /\ Forall (clockless_poll_of (enc_worker 0)) polls.
Proof.
  destruct (waits_without_deadline_fail_only_on_api_error 3 None 0
              (enc_worker 0) unreadable (D.wait_start_success 3)
              (D.fail_msg "start" (enc_worker 0)))
    as (now & polls & Hcalls & Hpolls & _).
  - simpl. lia.
  - left. split; reflexivity.
  - exists now, polls. split; [exact Hcalls | exact Hpolls].
Defined.

(** A wait without deadline on a cluster that shows no replica. *)
Lemma waits_without_deadline_poll_forever_witness :
  (D.wait_scale_success 5 3 (enc_worker 0, settled 0 [])).1 = OutOfFuel
  /\ (D.wait_start_success 5 (enc_worker 0, settled 0 [])).1 = OutOfFuel.
Proof.
  destruct (waits_without_deadline_poll_forever shows_nothing 3 (enc_worker 0))
    with (fuel := 5%nat) (e := settled 0 []) as [Hscale Hstart].
  - simpl. lia.
  - intros w Hw. exact Hw.
  - intros w Hw. exact Hw.
  - intros w Hw. unfold shows_nothing in Hw.
    eexists _, w. simpl. rewrite Hw. split; [reflexivity |].
    split; [exact Hw | discriminate].
  - reflexivity.
  - split; [exact Hscale | apply Hstart; reflexivity].
Defined.

(** A turn of a wait without snapshot while an old pod is still live. *)
Lemma wait_restart_without_snapshot_counts_only_witness :
  (D.wait_restart_success 1 None
     (enc_worker 2000, settled 3 ["old"%string])).1 = Ret tt.
Proof.
  pose (w := world (settled 3 ["old"%string])).
  refine (f_equal fst
            (proj1 (wait_restart_without_snapshot_counts_only 0
                      (enc_worker 2000) (settled 3 ["old"%string]) 0 w
                      {| world := w;
                         calls := [time_ns_call 0; time_ns_call 0] |}
                      {| V1DeploymentStatus.ready_replicas := Some 3;
                         V1DeploymentStatus.updated_replicas := Some 3;
                         V1DeploymentStatus.replicas := Some 3 |}
                      w ["old"%string] w _ _ _ _ _ _)));
    vm_compute; reflexivity.
Defined.

(** Scaling ["enc"] to four replicas on a cluster that shows four. *)
Lemma pod_scale_num_peas_witness :
  let r := K8sPod.scale 3 4 (enc_pod true, settled 4 []) in
  head_peas r.2.1 = head_peas (enc_pod true)
  /\ K8sPod.num_peas r.2.1
     = head_peas (enc_pod true)
       + Z.of_nat (length (K8sPod.k8s_deployments (enc_pod true))) * 4.
Proof.
  intros r.
  destruct (pod_scale_num_peas 3 4 (enc_pod true) (settled 4 [])
              r.1 r.2.1 r.2.2) as (Hhead & Hret & _).
  - apply run_eta.
  - split; [exact Hhead |]. apply Hret. vm_compute. reflexivity.
Defined.

(** A start of ["enc"] that does not block makes three calls. *)
Lemma init_then_start_without_blocking_witness :
  let r := K8sPod.start 3 (enc_pod true, settled 3 []) in
  exists resps,
    calls r.2.2
    = calls (settled 3 [])
      ++ zip_with (fun d resp => deploy_service_call (start_request d) resp)
           (handles (enc_pod true)) resps
    /\ (length resps <= length (handles (enc_pod true)))%nat
    /\ (exists addresses, resps = inr <$> addresses)
    /\ folds_over (fun _ : unit => D.start 3) (handles (enc_pod true)) tt
         (settled 3 []) r.1 (handles r.2.1) r.2.2.
Proof.
  intros r. assert (r.1 = Ret tt) as Hret by (vm_compute; reflexivity).
  destruct (init_then_start_without_blocking
              (pod_args "enc" (Some 2) true true None 2000) ∅ "master"
              (enc_pod true) 3 (settled 3 []) r.1 r.2.1 r.2.2)
    as (resps & Hcalls & Hlen & Ho & Hfold).
  - vm_compute. reflexivity.
  - reflexivity.
  - apply run_eta.
  - exists resps. split; [exact Hcalls |]. split; [exact Hlen |].
    split; [| exact Hfold]. rewrite Hret in Ho. exact (proj2 Ho).
Defined.
